(** * script/mnist.py: the MNIST training script of the notebook

    A shallow embedding of the training script that the notebook
    [2_pytorch_training_job.ipynb] writes to [script/mnist.py]: the network
    [Net], [log_performance], [train_model], [save_model] and the
    [__main__] block.

    The script is glue around PyTorch.  The numerical kernels of the
    framework (convolution, pooling, autograd, the optimizers' update
    rules, the random number generator) are not part of the repository;
    they are the fields of the interface [Torch] below, and everything that
    the script itself decides (which layers exist and with which sizes, the
    order of the calls, which optimizer is built, what is logged, what is
    divided by what, where the file goes) is written out.

    Conventions of the model:
    - Python [float] arithmetic of the script ([loss += ...], [loss /= n],
      [100.0 * correct / n], the literals [0.01] and [0.5]) is carried out
      in exact rationals [Qc]; rounding is not modelled.
    - A batch is the list of its rows: the leading dimension of a batch
      tensor is the example index, and every layer of [Net] acts on each
      example separately.
    - Python exceptions are values of [exn]; a computation is a function
      from the [World] (generator state, output written so far, files,
      directories) to an outcome and the new world.
    - The kernels [conv2d] and [linear] are total functions, which is what
      they are on layers with at least one channel.  A convolution built
      with no output channel is accepted by the constructor and refused by
      the first forward pass; statements about runs that train therefore
      assume [0 < hidden_channels].
    - The command line is read as the platform passes it, a sequence of
      [--name value] pairs with the full option names.  The other forms
      [argparse] accepts or refuses in its own way ([--name=value],
      abbreviated names, [-h], values that begin with [-]) are not
      modelled; [plain_argv] delimits the command lines on which
      [parse_args] is [argparse]. *)

From Stdlib Require Import ZArith QArith Qcanon List Permutation Lia Ascii String.
From stdpp Require Import base numbers list strings gmap.

Open Scope Z_scope.

(** ** Numbers *)

Definition Qc_of_Z (z : Z) : Qc := Q2Qc (inject_Z z).
Definition Qc_of_nat (n : nat) : Qc := Qc_of_Z (Z.of_nat n).

(** The [float] literals of the script. *)
Definition lit_0_01 : Qc := Q2Qc (1 # 100).
Definition lit_0_5 : Qc := Q2Qc (1 # 2).
Definition lit_100_0 : Qc := Qc_of_Z 100.

(** ** The framework interface *)

(** What the script takes from [torch]: tensors, the default generator and
    the kernels.  [conv2d] and [linear] receive the sizes the layer object
    was built with besides its weight and bias. *)
Class Torch := {
  Tensor : Type;
  Generator : Type;
  (** per-parameter state kept by an optimizer (momentum buffer, moments) *)
  OptSlot : Type;
  cuda_is_available : bool;
  manual_seed : Z → Generator;
  randperm : nat → Generator → list nat * Generator;
  (** [init.kaiming_uniform_] on a fresh tensor of the given shape *)
  kaiming_uniform_ : list Z → Generator → Tensor * Generator;
  (** [init.uniform_] with the bound computed from [fan_in] *)
  uniform_ : list Z → Z → Generator → Tensor * Generator;
  conv2d : Z → Z → Z → Tensor → Tensor → Tensor → Tensor;
  linear : Z → Z → Tensor → Tensor → Tensor → Tensor;
  max_pool2d : Z → Tensor → Tensor;
  relu : Tensor → Tensor;
  view : Z → Tensor → Tensor;
  log_softmax : Tensor → Tensor;
  (** the random masks of the two dropouts, drawn in training mode *)
  dropout2d_train : Qc → Tensor → Generator → Tensor * Generator;
  dropout_train : Qc → Tensor → Generator → Tensor * Generator;
  (** negative log-likelihood of one row of log-probabilities *)
  nll : Tensor → Z → Qc;
  (** index of the largest entry of one row *)
  argmax : Tensor → Z;
  zeros_like : Tensor → Tensor;
  tensor_add : Tensor → Tensor → Tensor;
  (** autograd: the gradient of the mean loss of a batch with respect to
      the named parameter, for the mode of the network, the parameter
      values, the batch and the generator state the forward pass started
      from *)
  autograd : bool → list (string * Tensor) → list (Tensor * Z) → Generator →
             string → option Tensor;
  sgd_update : Qc → Qc → option OptSlot → Tensor → Tensor → Tensor * OptSlot;
  adam_update : Qc → option OptSlot → Tensor → Tensor → Tensor * OptSlot
}.

(** The one law of the generator the script relies on: a shuffled pass
    visits every index once. *)
Class TorchOk (T : Torch) : Prop := {
  randperm_Permutation :
    ∀ n g, Permutation (fst (randperm n g)) (seq 0 n)
}.

(** ** Exceptions, events and the world *)

Inductive exn :=
| KeyError (key : string)
| ZeroDivisionError
| IndexError
| RuntimeError (msg : string)
| ValueError (msg : string)
| SystemExit (code : Z).

Inductive Device := cpu | cuda.

Inductive OptimizerKind :=
| SGD (lr momentum : Qc)
| Adam (lr : Qc).

(** What the script writes to standard output, in order, with the numbers
    before formatting.  [OptimizerStep] is not an output: it records each
    call of [optimizer.step()] so that the order of updates and logging can
    be stated. *)
Inductive Event :=
| LogProcesses (part : string) (n m : nat) (pct : Qc)
| PrintEpoch (epoch : Z)
| OptimizerStep (epoch batch_idx : Z) (kind : OptimizerKind)
| LogTrain (epoch seen : Z) (total : nat) (pct loss : Qc)
| LogPerformance (metric_type : string) (loss accuracy : Qc)
| LogSaving.

Section Script.
Context {T : Torch}.

(** A labelled image of a partition, as [datasets.MNIST] yields it with
    the script's transform: a normalized 1x28x28 tensor and its digit. *)
Definition Sample : Type := Tensor * Z.

(** A serialized parameter mapping: names to shaped tensors, in order. *)
Definition StateDict : Type := list (string * (list Z * Tensor)).

(** The two partitions [datasets.MNIST] finds under a data directory. *)
Record MnistFiles := {
  mnist_train : list Sample;
  mnist_test : list Sample
}.

(** [fs] holds the files written by [torch.save], [disk] the datasets
    found under a root, [isdir] tells which directories exist. *)
Record World := {
  rng : Generator;
  log : list Event;
  fs : gmap string StateDict;
  disk : gmap string MnistFiles;
  isdir : string → bool
}.

Definition set_rng (g : Generator) (w : World) : World :=
  {| rng := g; log := log w; fs := fs w; disk := disk w; isdir := isdir w |}.
Definition add_log (e : Event) (w : World) : World :=
  {| rng := rng w; log := log w ++ [e]; fs := fs w; disk := disk w;
     isdir := isdir w |}.
Definition write_file (path : string) (sd : StateDict) (w : World) : World :=
  {| rng := rng w; log := log w; fs := <[path := sd]> (fs w); disk := disk w;
     isdir := isdir w |}.

(** ** The monad of the script *)

Definition M (A : Type) : Type := World → (exn + A) * World.

Definition ret {A} (a : A) : M A := λ w, (inr a, w).
Definition raise {A} (e : exn) : M A := λ w, (inl e, w).
Definition bind {A B} (m : M A) (f : A → M B) : M B :=
  λ w, match m w with
       | (inr a, w') => f a w'
       | (inl e, w') => (inl e, w')
       end.

#[global] Instance M_ret : MRet M := @ret.
#[global] Instance M_bind : MBind M := λ A B f m, bind m f.

(** Draw from the default generator. *)
Definition draw {A} (f : Generator → A * Generator) : M A :=
  λ w, let '(a, g) := f (rng w) in (inr a, set_rng g w).
Definition emit (e : Event) : M unit := λ w, (inr tt, add_log e w).

(** [for x in l: s = body(s, x)] *)
Fixpoint foldM {S A} (body : S → A → M S) (s : S) (l : list A) : M S :=
  match l with
  | [] => ret s
  | x :: l' => s' ← body s x; foldM body s' l'
  end.

(** Python's true division [a / b]. *)
Definition py_div (a b : Qc) : M Qc :=
  if decide (b = 0%Qc) then raise ZeroDivisionError else ret (a / b)%Qc.

(** [range(a, b)] *)
Definition range (a b : Z) : list Z :=
  map (λ i, a + Z.of_nat i) (seq 0 (Z.to_nat (b - a))).

(** [enumerate(l, start)] *)
Definition enumerate {A} (start : Z) (l : list A) : list (Z * A) :=
  imap (λ i x, (start + Z.of_nat i, x)) l.

(** ** Datasets and loaders *)

(** [torch.utils.data.DataLoader(dataset, batch_size=..., shuffle=...)] *)
Record DataLoader := {
  dataset : list Sample;
  batch_size : nat;
  shuffle : bool
}.

(** [len(loader.sampler)] and [len(loader.dataset)] *)
Definition len_sampler (dl : DataLoader) : nat := length (dataset dl).
(** [len(loader)]: the number of batches, the last one possibly short *)
Definition len_loader (dl : DataLoader) : nat :=
  (length (dataset dl) + batch_size dl - 1) `div` batch_size dl.

Fixpoint chunks {A} (fuel n : nat) (l : list A) : list (list A) :=
  match fuel with
  | O => []
  | S fuel' =>
      match l with
      | [] => []
      | _ => take n l :: chunks fuel' n (drop n l)
      end
  end.

(** [iter(loader)]: the sampler's index order, cut into batches.  With
    [shuffle=True] the order is drawn from the default generator when the
    iteration starts. *)
Definition DataLoader_iter (dl : DataLoader) : M (list (list nat)) :=
  idx ← (if shuffle dl
         then draw (randperm (length (dataset dl)))
         else ret (seq 0 (length (dataset dl))));
  ret (chunks (length idx) (batch_size dl) idx).

(** The constructor.  With [shuffle=True] it builds a [RandomSampler],
    which refuses a dataset without examples. *)
Definition DataLoader_init (dataset : list Sample) (batch_size : nat)
    (shuffle : bool) : M DataLoader :=
  if shuffle && bool_decide (length dataset = 0%nat)
  then raise (ValueError
         "num_samples should be a positive integer value, but got num_samples=0")
  else ret {| dataset := dataset; batch_size := batch_size;
              shuffle := shuffle |}.

(** Fetching one batch: [dataset[i]] for each index of the batch. *)
Definition DataLoader_fetch (dl : DataLoader) (idxs : list nat)
  : M (list Sample) :=
  match mapM (λ i, dataset dl !! i) idxs with
  | Some batch => ret batch
  | None => raise IndexError
  end.

(** ** Layers *)

Record Param := {
  p_shape : list Z;
  p_data : Tensor;
  p_grad : option Tensor
}.

Definition set_data (d : Tensor) (p : Param) : Param :=
  {| p_shape := p_shape p; p_data := d; p_grad := p_grad p |}.
Definition set_grad (g : option Tensor) (p : Param) : Param :=
  {| p_shape := p_shape p; p_data := p_data p; p_grad := g |}.

(** A fresh parameter: [torch.empty(shape)] filled by an initializer.
    Allocation refuses a negative dimension. *)
Definition new_parameter (shape : list Z)
    (init : Generator → Tensor * Generator) : M Param :=
  if forallb (Z.leb 0) shape
  then t ← draw init;
       ret {| p_shape := shape; p_data := t; p_grad := None |}
  else raise (RuntimeError "Trying to create tensor with negative dimension").

Record Conv2d := {
  in_channels : Z;
  out_channels : Z;
  kernel_size : Z;
  conv_weight : Param;
  conv_bias : Param
}.

Record Linear := {
  in_features : Z;
  out_features : Z;
  lin_weight : Param;
  lin_bias : Param
}.

Record Dropout2d := { drop_p : Qc }.

(** [torch.nn.Conv2d(in_channels, out_channels, kernel_size=k)] *)
Definition Conv2d_init (cin cout k : Z) : M Conv2d :=
  weight ← new_parameter [cout; cin; k; k] (kaiming_uniform_ [cout; cin; k; k]);
  bias ← new_parameter [cout] (uniform_ [cout] (cin * k * k));
  ret {| in_channels := cin; out_channels := cout; kernel_size := k;
         conv_weight := weight; conv_bias := bias |}.

(** [torch.nn.Linear(in_features, out_features)] *)
Definition Linear_init (fin fout : Z) : M Linear :=
  weight ← new_parameter [fout; fin] (kaiming_uniform_ [fout; fin]);
  bias ← new_parameter [fout] (uniform_ [fout] fin);
  ret {| in_features := fin; out_features := fout;
         lin_weight := weight; lin_bias := bias |}.

(** The layers' [forward], on one example.  The kernel is applied as a
    function of the sizes and tensors of the layer (see the conventions
    on layers without channels). *)
Definition Conv2d_forward (c : Conv2d) (x : Tensor) : Tensor :=
  conv2d (in_channels c) (out_channels c) (kernel_size c)
         (p_data (conv_weight c)) (p_data (conv_bias c)) x.

Definition Linear_forward (l : Linear) (x : Tensor) : Tensor :=
  linear (in_features l) (out_features l)
         (p_data (lin_weight l)) (p_data (lin_bias l)) x.

(** The module [Dropout2d] draws a mask only while its owner is in
    training mode. *)
Definition Dropout2d_forward (d : Dropout2d) (training : bool)
    (x : list Tensor) : M (list Tensor) :=
  if training then mapM (λ r, draw (dropout2d_train (drop_p d) r)) x
  else ret x.

(** [torch.nn.functional.dropout(x, training=...)], with its default
    [p=0.5]. *)
Definition F_dropout (x : list Tensor) (training : bool) : M (list Tensor) :=
  if training then mapM (λ r, draw (dropout_train lit_0_5 r)) x
  else ret x.

(** ** class Net *)

Record Net := {
  conv1 : Conv2d;
  conv2 : Conv2d;
  conv2_drop : Dropout2d;
  fc1 : Linear;
  fc2 : Linear;
  training : bool
}.

(** [Net.__init__(self, hidden_channels, kernel_size, drop_out)] *)
Definition Net_init (hidden_channels kernel_size : Z) (drop_out : Qc) : M Net :=
  c1 ← Conv2d_init 1 hidden_channels kernel_size;
  c2 ← Conv2d_init hidden_channels 20 kernel_size;
  let cd := {| drop_p := drop_out |} in
  f1 ← Linear_init 320 50;
  f2 ← Linear_init 50 10;
  ret {| conv1 := c1; conv2 := c2; conv2_drop := cd; fc1 := f1; fc2 := f2;
         training := true |}.

(** [Net.forward(self, x)], on a batch [x] given by its rows.
    [x.view(-1, 320)] regroups the values of the batch into rows of 320; a
    28x28 input leaves 20 channels of 4x4 values per example, so the rows
    stay the examples and [view 320] flattens each of them. *)
Definition forward (self : Net) (x : list Tensor) : M (list Tensor) :=
  let x := map (λ r, relu (max_pool2d 2 (Conv2d_forward (conv1 self) r))) x in
  d ← Dropout2d_forward (conv2_drop self) (training self)
        (map (Conv2d_forward (conv2 self)) x);
  let x := map (λ r, relu (max_pool2d 2 r)) d in
  let x := map (view 320) x in
  let x := map (λ r, relu (Linear_forward (fc1 self) r)) x in
  x ← F_dropout x (training self);
  let x := map (Linear_forward (fc2 self)) x in
  ret (map log_softmax x).

(** [named_parameters()]: the parameters in registration order. *)
Definition Net_named_parameters (n : Net) : list (string * Param) :=
  [ ("conv1.weight", conv_weight (conv1 n)); ("conv1.bias", conv_bias (conv1 n));
    ("conv2.weight", conv_weight (conv2 n)); ("conv2.bias", conv_bias (conv2 n));
    ("fc1.weight", lin_weight (fc1 n)); ("fc1.bias", lin_bias (fc1 n));
    ("fc2.weight", lin_weight (fc2 n)); ("fc2.bias", lin_bias (fc2 n)) ].

Definition Conv2d_map (name : string) (f : string → Param → Param)
    (c : Conv2d) : Conv2d :=
  {| in_channels := in_channels c; out_channels := out_channels c;
     kernel_size := kernel_size c;
     conv_weight := f (name +:+ ".weight") (conv_weight c);
     conv_bias := f (name +:+ ".bias") (conv_bias c) |}.

Definition Linear_map (name : string) (f : string → Param → Param)
    (l : Linear) : Linear :=
  {| in_features := in_features l; out_features := out_features l;
     lin_weight := f (name +:+ ".weight") (lin_weight l);
     lin_bias := f (name +:+ ".bias") (lin_bias l) |}.

(** An in-place update of every parameter tensor of the module. *)
Definition Net_map_parameters (f : string → Param → Param) (n : Net)
  : Net :=
  {| conv1 := Conv2d_map "conv1" f (conv1 n);
     conv2 := Conv2d_map "conv2" f (conv2 n);
     conv2_drop := conv2_drop n;
     fc1 := Linear_map "fc1" f (fc1 n);
     fc2 := Linear_map "fc2" f (fc2 n);
     training := training n |}.

Definition Net_set_training (b : bool) (n : Net) : Net :=
  {| conv1 := conv1 n; conv2 := conv2 n; conv2_drop := conv2_drop n;
     fc1 := fc1 n; fc2 := fc2 n; training := b |}.

(** ** torch.nn.DataParallel *)

(** The wrapper owns the network as its submodule [module]; a call runs the
    wrapped network. *)
Record DataParallel := { module : Net }.

Definition DataParallel_forward (m : DataParallel) (x : list Tensor)
  : M (list Tensor) := forward (module m) x.

(** [model.train()] and [model.eval()] *)
Definition train (m : DataParallel) : DataParallel :=
  {| module := Net_set_training true (module m) |}.
Definition eval (m : DataParallel) : DataParallel :=
  {| module := Net_set_training false (module m) |}.

Definition named_parameters (m : DataParallel) : list (string * Param) :=
  map (λ '(n, p), ("module." +:+ n, p)) (Net_named_parameters (module m)).

Definition map_parameters (f : string → Param → Param)
    (m : DataParallel) : DataParallel :=
  {| module := Net_map_parameters (λ n, f ("module." +:+ n)) (module m) |}.

(** [model.state_dict()]: every parameter under its qualified name. *)
Definition state_dict (m : DataParallel) : StateDict :=
  map (λ '(n, p), (n, (p_shape p, p_data p))) (named_parameters m).

(** [.to(device)] and [.cpu()] move storage; values are unchanged. *)
Definition to_device {A} (x : A) (d : Device) : A := x.

(** ** Optimizers *)

(** An optimizer object: its kind with the hyperparameters it was built
    with, and the state it keeps per parameter.  The object refers to the
    model's own parameter tensors, so [zero_grad] and [step] act on the
    model that [train_model] holds; the model is passed in and out. *)
Record Optimizer := {
  opt_kind : OptimizerKind;
  opt_state : gmap string OptSlot
}.

(** [torch.optim.SGD(params, lr=lr, momentum=momentum)] *)
Definition torch_optim_SGD (params : list (string * Param)) (lr momentum : Qc)
  : Optimizer := {| opt_kind := SGD lr momentum; opt_state := ∅ |}.

(** [torch.optim.Adam(params, lr=lr)] *)
Definition torch_optim_Adam (params : list (string * Param)) (lr : Qc)
  : Optimizer := {| opt_kind := Adam lr; opt_state := ∅ |}.

(** [optimizer.zero_grad()]: gradients that exist are zeroed in place. *)
Definition zero_grad (o : Optimizer) (m : DataParallel) : DataParallel :=
  map_parameters (λ _ p, set_grad (zeros_like <$> p_grad p) p) m.

(** One parameter's update, skipped when it has no gradient. *)
Definition update_param (k : OptimizerKind) (slot : option OptSlot)
    (p : Param) : option (Tensor * OptSlot) :=
  match p_grad p with
  | None => None
  | Some g =>
      Some match k with
           | SGD lr momentum => sgd_update lr momentum slot (p_data p) g
           | Adam lr => adam_update lr slot (p_data p) g
           end
  end.

(** [optimizer.step()] *)
Definition step (o : Optimizer) (m : DataParallel) : Optimizer * DataParallel :=
  let upd := λ n p, update_param (opt_kind o) (opt_state o !! n) p in
  let m' := map_parameters
              (λ n p, match upd n p with
                      | Some (d, _) => set_data d p
                      | None => p
                      end) m in
  let st := foldl (λ st '(n, p), match upd n p with
                                 | Some (_, s) => <[n := s]> st
                                 | None => st
                                 end)
                  (opt_state o) (named_parameters m) in
  ({| opt_kind := opt_kind o; opt_state := st |}, m').

(** ** Losses *)

(** [nll_loss(output, target, reduction="sum").item()] *)
Definition nll_loss_sum (output : list Tensor) (target : list Z) : Qc :=
  foldr (λ '(o, t) acc, (nll o t + acc)%Qc) 0%Qc (zip output target).

(** [nll_loss(output, target)], the mean over the batch *)
Definition nll_loss (output : list Tensor) (target : list Z) : Qc :=
  (nll_loss_sum output target / Qc_of_nat (length output))%Qc.

(** [pred.eq(target.view_as(pred)).sum().item()] for
    [pred = output.max(1, keepdim=True)[1]] *)
Definition count_correct (output : list Tensor) (target : list Z) : Z :=
  Z.of_nat (length (filter (λ '(o, t), argmax o = t) (zip output target))).

(** [loss.backward()]: the gradient of each parameter is accumulated into
    its [grad]. *)
Definition accumulate (old new : option Tensor) : option Tensor :=
  match new, old with
  | None, _ => old
  | Some g, None => Some g
  | Some g, Some a => Some (tensor_add a g)
  end.

Definition backward (m : DataParallel) (batch : list Sample) (g0 : Generator)
  : DataParallel :=
  let values := map (λ '(n, p), (n, p_data p)) (named_parameters m) in
  map_parameters
    (λ n p, set_grad (accumulate (p_grad p)
                        (autograd (training (module m)) values batch g0 n)) p)
    m.

Definition get_rng : M Generator := λ w, (inr (rng w), w).

(** ** log_performance *)

(** [log_performance(model, data_loader, device, epoch, metric_type)].
    [model.eval()] changes the caller's model, which is returned. *)
Definition log_performance (model : DataParallel) (data_loader : DataLoader)
    (device : Device) (epoch : Z) (metric_type : string) : M DataParallel :=
  let model := eval model in
  let loss := 0%Qc in
  let correct := 0 in
  batches ← DataLoader_iter data_loader;
  '(loss, correct) ←
    foldM (λ '(loss, correct) idxs,
             batch ← DataLoader_fetch data_loader idxs;
             let data := to_device (map fst batch) device in
             let target := to_device (map snd batch) device in
             output ← DataParallel_forward model data;
             let loss := (loss + nll_loss_sum output target)%Qc in
             let correct := correct + count_correct output target in
             ret (loss, correct))
          (loss, correct) batches;
  loss ← py_div loss (Qc_of_nat (length (dataset data_loader)));
  accuracy ← py_div (lit_100_0 * Qc_of_Z correct)
                    (Qc_of_nat (length (dataset data_loader)));
  emit (LogPerformance metric_type loss accuracy);;
  ret model.

(** ** train_model *)

(** The body of [for batch_idx, (data, target) in enumerate(train_loader, 1)] *)
Definition train_batch (train_loader : DataLoader) (device : Device)
    (log_interval epoch : Z) (st : DataParallel * Optimizer)
    (it : Z * list nat) : M (DataParallel * Optimizer) :=
  let '(model, optimizer) := st in
  let '(batch_idx, idxs) := it in
  batch ← DataLoader_fetch train_loader idxs;
  let data := to_device (map fst batch) device in
  let target := to_device (map snd batch) device in
  let model := zero_grad optimizer model in
  g0 ← get_rng;
  output ← DataParallel_forward model data;
  let loss := nll_loss output target in
  let model := backward model batch g0 in
  let '(optimizer, model) := step optimizer model in
  emit (OptimizerStep epoch batch_idx (opt_kind optimizer));;
  (if decide (batch_idx `mod` log_interval = 0)
   then pct ← py_div (lit_100_0 * Qc_of_Z batch_idx)
                     (Qc_of_nat (len_loader train_loader));
        emit (LogTrain epoch (batch_idx * Z.of_nat (length data))
                       (len_sampler train_loader) pct loss)
   else ret tt);;
  ret (model, optimizer).

(** The body of [for epoch in range(1, epochs + 1)] *)
Definition train_epoch (train_loader test_loader : DataLoader)
    (device : Device) (log_interval : Z) (st : DataParallel * Optimizer)
    (epoch : Z) : M (DataParallel * Optimizer) :=
  let '(model, optimizer) := st in
  emit (PrintEpoch epoch);;
  let model := train model in
  batches ← DataLoader_iter train_loader;
  '(model, optimizer) ←
    foldM (train_batch train_loader device log_interval epoch)
          (model, optimizer) (enumerate 1 batches);
  model ← log_performance model train_loader device epoch "Train";
  model ← log_performance model test_loader device epoch "Test";
  ret (model, optimizer).

Definition torch_manual_seed (seed : Z) : M unit :=
  λ w, (inr tt, set_rng (manual_seed seed) w).

(** The "Processes n/m (p%) of ... data" line. *)
Definition log_processes (part : string) (dl : DataLoader) : M unit :=
  pct ← py_div (lit_100_0 * Qc_of_nat (len_sampler dl))
               (Qc_of_nat (length (dataset dl)));
  emit (LogProcesses part (len_sampler dl) (length (dataset dl)) pct).

(** [train_model(train_set, test_set, optimizer, epochs, hidden_channels)] *)
Definition train_model (train_set test_set : list Sample)
    (optimizer : string) (epochs hidden_channels : Z) : M DataParallel :=
  let device := if cuda_is_available then cuda else cpu in
  torch_manual_seed 42;;
  train_loader ← DataLoader_init train_set 64 true;
  test_loader ← DataLoader_init test_set 1000 true;
  log_processes "train" train_loader;;
  log_processes "test" test_loader;;
  net ← Net_init hidden_channels 5 lit_0_5;
  let model := {| module := to_device net device |} in
  let momentum := lit_0_5 in
  let lr := lit_0_01 in
  let log_interval := 100 in
  let optimizer :=
    if decide (optimizer = "sgd")
    then torch_optim_SGD (named_parameters model) lr momentum
    else torch_optim_Adam (named_parameters model) lr in
  st ← foldM (train_epoch train_loader test_loader device log_interval)
             (model, optimizer) (range 1 (epochs + 1));
  ret (fst st).

(** ** save_model *)

(** [os.path.join(a, b)] on POSIX paths *)
Definition os_path_join (a b : string) : string :=
  if String.prefix "/" b then b
  else if decide (a = "") then b
  else if String.eqb (String.substring (String.length a - 1) 1 a) "/" then a +:+ b
  else a +:+ "/" +:+ b.

Fixpoint has_slash (s : string) : bool :=
  match s with
  | EmptyString => false
  | String c s' => if Ascii.eqb c "/" then true else has_slash s'
  end.

(** The text of a path before its last ["/"], empty if it has none. *)
Fixpoint parentdir (path : string) : string :=
  match path with
  | EmptyString => EmptyString
  | String c rest =>
      if has_slash rest then String c (parentdir rest) else EmptyString
  end.

(** [torch.save(obj, path)]: the file writer refuses a path whose parent
    directory does not exist; in an existing directory the file is taken
    to be writable. *)
Definition torch_save (sd : StateDict) (path : string) : M unit :=
  λ w, let parent := parentdir path in
       if bool_decide (parent = "") || isdir w parent
       then (inr tt, write_file path sd w)
       else (inl (RuntimeError
                    ("Parent directory " +:+ parent +:+ " does not exist.")),
             w).

(** [save_model(model, model_dir)] *)
Definition save_model (model : DataParallel) (model_dir : string) : M unit :=
  emit LogSaving;;
  let path := os_path_join model_dir "model.pth" in
  torch_save (state_dict (to_device model cpu)) path.

(** ** The __main__ block *)

(** [int(s)] for a decimal numeral with an optional sign: the value
    [int] gives on such a string.  ([int] also accepts surrounding blanks
    and underscores between digits, which are not read here.) *)
Definition digit_of (a : ascii) : option Z :=
  let n := Z.of_nat (nat_of_ascii a) in
  if (48 <=? n) && (n <=? 57) then Some (n - 48) else None.

Fixpoint parse_digits (acc : Z) (s : string) : option Z :=
  match s with
  | EmptyString => Some acc
  | String a s' => d ← digit_of a; parse_digits (acc * 10 + d) s'
  end.

Definition py_int (s : string) : option Z :=
  match s with
  | EmptyString => None
  | String "-" (String _ _ as s') => Z.opp <$> parse_digits 0 s'
  | String "+" (String _ _ as s') => parse_digits 0 s'
  | _ => parse_digits 0 s
  end.

(** The namespace [parser.parse_args()] returns. *)
Record Namespace := {
  args_epochs : Z;
  args_optimizer : string;
  args_hidden_channels : Z;
  args_model_dir : string;
  args_num_gpus : Z;
  args_data_dir : string
}.

(** The namespace while the command line is read: [--num-gpus] has a
    string default that [type=int] converts only if the option is not
    given. *)
Record RawArgs := {
  raw_epochs : Z;
  raw_optimizer : string;
  raw_hidden_channels : Z;
  raw_model_dir : string;
  raw_num_gpus : Z + string;
  raw_data_dir : string
}.

(** [type=int] applied to an option's value; a value that is not an
    integer ends the process with status 2. *)
Definition arg_int (v : string) : M Z :=
  match py_int v with
  | Some n => ret n
  | None => raise (SystemExit 2)
  end.

(** One [--name value] pair stored into the namespace. *)
Definition store_arg (name value : string) (ns : RawArgs) : M RawArgs :=
  if decide (name = "--epochs") then
    n ← arg_int value;
    ret {| raw_epochs := n; raw_optimizer := raw_optimizer ns;
           raw_hidden_channels := raw_hidden_channels ns;
           raw_model_dir := raw_model_dir ns; raw_num_gpus := raw_num_gpus ns;
           raw_data_dir := raw_data_dir ns |}
  else if decide (name = "--optimizer") then
    ret {| raw_epochs := raw_epochs ns; raw_optimizer := value;
           raw_hidden_channels := raw_hidden_channels ns;
           raw_model_dir := raw_model_dir ns; raw_num_gpus := raw_num_gpus ns;
           raw_data_dir := raw_data_dir ns |}
  else if decide (name = "--hidden_channels") then
    n ← arg_int value;
    ret {| raw_epochs := raw_epochs ns; raw_optimizer := raw_optimizer ns;
           raw_hidden_channels := n;
           raw_model_dir := raw_model_dir ns; raw_num_gpus := raw_num_gpus ns;
           raw_data_dir := raw_data_dir ns |}
  else if decide (name = "--model-dir") then
    ret {| raw_epochs := raw_epochs ns; raw_optimizer := raw_optimizer ns;
           raw_hidden_channels := raw_hidden_channels ns;
           raw_model_dir := value; raw_num_gpus := raw_num_gpus ns;
           raw_data_dir := raw_data_dir ns |}
  else if decide (name = "--num-gpus") then
    n ← arg_int value;
    ret {| raw_epochs := raw_epochs ns; raw_optimizer := raw_optimizer ns;
           raw_hidden_channels := raw_hidden_channels ns;
           raw_model_dir := raw_model_dir ns; raw_num_gpus := inl n;
           raw_data_dir := raw_data_dir ns |}
  else if decide (name = "--data-dir") then
    ret {| raw_epochs := raw_epochs ns; raw_optimizer := raw_optimizer ns;
           raw_hidden_channels := raw_hidden_channels ns;
           raw_model_dir := raw_model_dir ns; raw_num_gpus := raw_num_gpus ns;
           raw_data_dir := value |}
  else raise (SystemExit 2).

(** The command line as the platform passes it: [--name value] pairs.
    Anything else ends the process with status 2 here; [plain_argv] below
    delimits the command lines on which this is [argparse]. *)
Fixpoint parse_pairs (argv : list string) (ns : RawArgs) : M RawArgs :=
  match argv with
  | [] => ret ns
  | name :: value :: argv' => ns' ← store_arg name value ns; parse_pairs argv' ns'
  | _ => raise (SystemExit 2)
  end.

(** [parser.parse_args()] for the six arguments the script declares, given
    the defaults the three [add_argument] calls of the container
    environment were built with. *)
Definition parse_args (model_dir num_gpus data_dir : string)
    (argv : list string) : M Namespace :=
  ns ← parse_pairs argv
         {| raw_epochs := 10; raw_optimizer := "sgd";
            raw_hidden_channels := 10; raw_model_dir := model_dir;
            raw_num_gpus := inr num_gpus; raw_data_dir := data_dir |};
  gpus ← match raw_num_gpus ns with
         | inl n => ret n
         | inr s => arg_int s
         end;
  ret {| args_epochs := raw_epochs ns; args_optimizer := raw_optimizer ns;
         args_hidden_channels := raw_hidden_channels ns;
         args_model_dir := raw_model_dir ns; args_num_gpus := gpus;
         args_data_dir := raw_data_dir ns |}.

(** [os.environ[key]] *)
Definition environ_getitem (environ : gmap string string) (key : string)
  : M string :=
  match environ !! key with
  | Some v => ret v
  | None => raise (KeyError key)
  end.

(** [datasets.MNIST(root, train=..., transform=..., download=False)]: the
    normalized examples of the partition stored under [root]. *)
Definition MNIST (root : string) (train : bool) : M (list Sample) :=
  λ w, match disk w !! root with
       | Some files =>
           (inr (if train then mnist_train files else mnist_test files), w)
       | None =>
           (inl (RuntimeError
                   "Dataset not found. You can use download=True to download it"),
            w)
       end.

(** [if __name__ == "__main__":] with the process environment and the
    command-line arguments.  The defaults of the three container arguments
    are read from the environment while the parser is being built. *)
Definition main (environ : gmap string string) (argv : list string) : M unit :=
  model_dir ← environ_getitem environ "SM_MODEL_DIR";
  num_gpus ← environ_getitem environ "SM_NUM_GPUS";
  data_dir ← environ_getitem environ "SM_CHANNEL_TRAINING";
  args ← parse_args model_dir num_gpus data_dir argv;
  train_set ← MNIST (args_data_dir args) true;
  test_set ← MNIST (args_data_dir args) false;
  model ← train_model train_set test_set (args_optimizer args)
            (args_epochs args) (args_hidden_channels args);
  save_model model (args_model_dir args).

(** ** Notions used to state the properties *)

(** The network on one example in evaluation mode: [forward] with both
    dropouts inactive. *)
Definition forward_eval_row (self : Net) (r : Tensor) : Tensor :=
  let r := relu (max_pool2d 2 (Conv2d_forward (conv1 self) r)) in
  let r := relu (max_pool2d 2 (Conv2d_forward (conv2 self) r)) in
  let r := view 320 r in
  let r := relu (Linear_forward (fc1 self) r) in
  log_softmax (Linear_forward (fc2 self) r).

Definition sum_Qc (l : list Qc) : Qc := foldr Qcplus 0%Qc l.

(** The summed per-example loss of a partition, and the number of its
    examples whose arg-max class is the label. *)
Definition total_loss (net : Net) (ds : list Sample) : Qc :=
  sum_Qc (map (λ e, nll (forward_eval_row net (fst e)) (snd e)) ds).

Definition num_correct (net : Net) (ds : list Sample) : nat :=
  length (filter (λ e, argmax (forward_eval_row net (fst e)) = snd e) ds).

(** The pipeline of section 4.1, step 4, as a list of stages. *)
Inductive Stage :=
| SConv (cin cout k : Z)
| SMaxPool (k : Z)
| SReLU
| SDropout2d (p : Qc)
| SFlatten (features : Z)
| SLinear (fin fout : Z)
| SDropout
| SLogSoftmax.

Definition spec_pipeline (hidden : Z) : list Stage :=
  [ SConv 1 hidden 5; SMaxPool 2; SReLU;
    SConv hidden 20 5; SDropout2d lit_0_5; SMaxPool 2; SReLU;
    SFlatten 320;
    SLinear 320 50; SReLU; SDropout;
    SLinear 50 10; SLogSoftmax ].

(** Running the stages in order on a batch.  The parametrized stages take
    their weight and bias from [params], in order; a dropout stage draws
    masks in training mode and is the identity otherwise. *)
Fixpoint run_pipeline (stages : list Stage) (params : list Tensor)
    (training : bool) (x : list Tensor) : M (list Tensor) :=
  match stages with
  | [] => ret x
  | SConv cin cout k :: rest =>
      match params with
      | w :: b :: params' =>
          run_pipeline rest params' training (map (conv2d cin cout k w b) x)
      | _ => raise (RuntimeError "missing parameter")
      end
  | SMaxPool k :: rest =>
      run_pipeline rest params training (map (max_pool2d k) x)
  | SReLU :: rest => run_pipeline rest params training (map relu x)
  | SDropout2d p :: rest =>
      y ← (if training then mapM (λ r, draw (dropout2d_train p r)) x
           else ret x);
      run_pipeline rest params training y
  | SFlatten n :: rest => run_pipeline rest params training (map (view n) x)
  | SLinear fin fout :: rest =>
      match params with
      | w :: b :: params' =>
          run_pipeline rest params' training (map (linear fin fout w b) x)
      | _ => raise (RuntimeError "missing parameter")
      end
  | SDropout :: rest =>
      y ← (if training then mapM (λ r, draw (dropout_train lit_0_5 r)) x
           else ret x);
      run_pipeline rest params training y
  | SLogSoftmax :: rest =>
      run_pipeline rest params training (map log_softmax x)
  end.

Definition parameter_values (n : Net) : list Tensor :=
  map (λ e, p_data (snd e)) (Net_named_parameters n).

(** The architecture of a network: the sizes its layers were built with
    and the shape of every parameter. *)
Record Arch := {
  arch_conv1 : Z * Z * Z;
  arch_conv2 : Z * Z * Z;
  arch_drop : Qc;
  arch_fc1 : Z * Z;
  arch_fc2 : Z * Z;
  arch_shapes : list (string * list Z)
}.

Definition Net_arch (n : Net) : Arch :=
  {| arch_conv1 := (in_channels (conv1 n), out_channels (conv1 n),
                    kernel_size (conv1 n));
     arch_conv2 := (in_channels (conv2 n), out_channels (conv2 n),
                    kernel_size (conv2 n));
     arch_drop := drop_p (conv2_drop n);
     arch_fc1 := (in_features (fc1 n), out_features (fc1 n));
     arch_fc2 := (in_features (fc2 n), out_features (fc2 n));
     arch_shapes := map (λ e, (fst e, p_shape (snd e)))
                        (Net_named_parameters n) |}.

(** The architecture [Net(hidden, kernel_size=5, drop_out=0.5)] has. *)
Definition arch_of (hidden : Z) : Arch :=
  {| arch_conv1 := (1, hidden, 5);
     arch_conv2 := (hidden, 20, 5);
     arch_drop := lit_0_5;
     arch_fc1 := (320, 50);
     arch_fc2 := (50, 10);
     arch_shapes :=
       [ ("conv1.weight", [hidden; 1; 5; 5]); ("conv1.bias", [hidden]);
         ("conv2.weight", [20; hidden; 5; 5]); ("conv2.bias", [20]);
         ("fc1.weight", [50; 320]); ("fc1.bias", [50]);
         ("fc2.weight", [10; 50]); ("fc2.bias", [10]) ] |}.

(** Names and shapes of a serialized parameter mapping. *)
Definition entry_shapes (sd : StateDict) : list (string * list Z) :=
  map (λ e, (fst e, fst (snd e))) sd.

Definition saved_shapes (hidden : Z) : list (string * list Z) :=
  [ ("module.conv1.weight", [hidden; 1; 5; 5]); ("module.conv1.bias", [hidden]);
    ("module.conv2.weight", [20; hidden; 5; 5]); ("module.conv2.bias", [20]);
    ("module.fc1.weight", [50; 320]); ("module.fc1.bias", [50]);
    ("module.fc2.weight", [10; 50]); ("module.fc2.bias", [10]) ].

(** [sum(p.numel() for p in model.parameters())] *)
Definition numel (shape : list Z) : Z := foldr Z.mul 1 shape.
Definition num_parameters (m : DataParallel) : Z :=
  foldr (λ e acc, numel (p_shape (snd e)) + acc) 0 (named_parameters m).

(** [w'] is [w] after writing the events [evs] and touching nothing but
    the generator. *)
Definition emits (w w' : World) (evs : list Event) : Prop :=
  log w' = log w ++ evs ∧ fs w' = fs w ∧ disk w' = disk w ∧
  isdir w' = isdir w.

(** [m] returns normally from [w], with a result and world satisfying [Q]. *)
Definition returns {A} (m : M A) (w : World) (Q : A → World → Prop) : Prop :=
  ∃ a w', m w = (inr a, w') ∧ Q a w'.

(** The events of [n] consecutive batches of one epoch, the first numbered
    [i]: an optimizer step each, followed by a progress line on every
    100th batch. *)
Inductive batch_events (epoch : Z) (k : OptimizerKind)
  : Z → nat → list Event → Prop :=
| batch_events_nil i : batch_events epoch k i 0 []
| batch_events_quiet i n evs :
    i `mod` 100 ≠ 0 →
    batch_events epoch k (i + 1) n evs →
    batch_events epoch k i (S n) (OptimizerStep epoch i k :: evs)
| batch_events_logged i n evs seen total pct loss :
    i `mod` 100 = 0 →
    batch_events epoch k (i + 1) n evs →
    batch_events epoch k i (S n)
      (OptimizerStep epoch i k :: LogTrain epoch seen total pct loss :: evs).

(** The events of one epoch over a train partition cut into [nb] batches. *)
Definition epoch_block (k : OptimizerKind) (nb : nat) (epoch : Z)
    (blk : list Event) : Prop :=
  ∃ evs l1 a1 l2 a2,
    batch_events epoch k 1 nb evs ∧
    blk = PrintEpoch epoch :: evs ++
          [LogPerformance "Train" l1 a1; LogPerformance "Test" l2 a2].

(** The events of [n] consecutive epochs, the first numbered [epoch]. *)
Inductive epoch_blocks (k : OptimizerKind) (nb : nat)
  : Z → nat → list Event → Prop :=
| epoch_blocks_nil epoch : epoch_blocks k nb epoch 0 []
| epoch_blocks_cons epoch n blk rest :
    epoch_block k nb epoch blk →
    epoch_blocks k nb (epoch + 1) n rest →
    epoch_blocks k nb epoch (S n) (blk ++ rest).

(** One of the three container variables is not set. *)
Definition missing_environment (environ : gmap string string) : Prop :=
  environ !! "SM_MODEL_DIR" = None ∨
  environ !! "SM_NUM_GPUS" = None ∨
  environ !! "SM_CHANNEL_TRAINING" = None.

(** The optimizer kind a selector stands for in [train_model]. *)
Definition kind_of (selector : string) : OptimizerKind :=
  if decide (selector = "sgd") then SGD lit_0_01 lit_0_5 else Adam lit_0_01.

(** The percentage of its "Processes" line. *)
Definition processes_line (part : string) (k : nat) : Event :=
  LogProcesses part k k (lit_100_0 * Qc_of_nat k / Qc_of_nat k)%Qc.

(** The test [torch.save] makes before writing [model.pth] under
    [model_dir]: the directory part of the path is empty or exists. *)
Definition model_dir_exists (w : World) (model_dir : string) : bool :=
  let parent := parentdir (os_path_join model_dir "model.pth") in
  bool_decide (parent = "") || isdir w parent.

Definition train_loader_of (train_set : list Sample) : DataLoader :=
  {| dataset := train_set; batch_size := 64; shuffle := true |}.
Definition test_loader_of (test_set : list Sample) : DataLoader :=
  {| dataset := test_set; batch_size := 1000; shuffle := true |}.
Definition device_of : Device := if cuda_is_available then cuda else cpu.

(** The optimizer [train_model] builds for a selector. *)
Definition optimizer_of (selector : string) (model : DataParallel)
  : Optimizer :=
  if decide (selector = "sgd")
  then torch_optim_SGD (named_parameters model) lit_0_01 lit_0_5
  else torch_optim_Adam (named_parameters model) lit_0_01.

(** [train_model] up to the epoch loop: seeding, the two loaders and
    their log lines, and the freshly initialized, wrapped network. *)
Definition fresh_model (train_set test_set : list Sample)
    (hidden_channels : Z) : M DataParallel :=
  torch_manual_seed 42;;
  train_loader ← DataLoader_init train_set 64 true;
  test_loader ← DataLoader_init test_set 1000 true;
  log_processes "train" train_loader;;
  log_processes "test" test_loader;;
  net ← Net_init hidden_channels 5 lit_0_5;
  ret {| module := net |}.

(** The model and the optimizer [train_model] holds after its loop. *)
Definition train_model_state (train_set test_set : list Sample)
    (optimizer : string) (epochs hidden_channels : Z)
  : M (DataParallel * Optimizer) :=
  model ← fresh_model train_set test_set hidden_channels;
  foldM (train_epoch (train_loader_of train_set) (test_loader_of test_set)
                     device_of 100)
        (model, optimizer_of optimizer model) (range 1 (epochs + 1)).

End Script.

(** ** A small instance of the interface

    Integers for tensors and a counter for the generator: enough to run the
    script on a few examples, and to exhibit runs in the statements
    below. *)
Definition toy_torch : Torch := {|
  Tensor := Z;
  Generator := Z;
  OptSlot := Z;
  cuda_is_available := false;
  manual_seed := λ s, s;
  randperm := λ n g, (rev (seq 0 n), g + 1);
  kaiming_uniform_ := λ _ g, (g, g + 1);
  uniform_ := λ _ _ g, (g, g + 1);
  conv2d := λ _ _ _ w b x, w * x + b;
  linear := λ _ _ w b x, w * x + b;
  max_pool2d := λ _ x, x;
  relu := λ x, Z.max 0 x;
  view := λ _ x, x;
  log_softmax := λ x, x;
  dropout2d_train := λ _ x g, (if Z.even g then x else 0, g + 1);
  dropout_train := λ _ x g, (if Z.even g then x else 0, g + 1);
  nll := λ o t, Qc_of_Z (Z.abs (o - t));
  argmax := λ o, o `mod` 10;
  zeros_like := λ _, 0;
  tensor_add := Z.add;
  autograd := λ _ _ _ _ _, Some 1;
  sgd_update := λ _ _ _ p g, (p - g, g);
  adam_update := λ _ _ p g, (p - 2 * g, g)
|}.

Definition toy_world : @World toy_torch :=
  @Build_World toy_torch 7 [] ∅ ∅ (String.eqb "/opt/ml/model").

Definition toy_examples : list (@Sample toy_torch) := [(3, 3); (5, 1); (6, 0)].

Definition toy_param (shape : list Z) : @Param toy_torch :=
  @Build_Param toy_torch shape 1 None.

Definition toy_model : @DataParallel toy_torch :=
  {| module :=
       {| conv1 := {| in_channels := 1; out_channels := 5; kernel_size := 5;
                      conv_weight := toy_param [5; 1; 5; 5];
                      conv_bias := toy_param [5] |};
          conv2 := {| in_channels := 5; out_channels := 20; kernel_size := 5;
                      conv_weight := toy_param [20; 5; 5; 5];
                      conv_bias := toy_param [20] |};
          conv2_drop := {| drop_p := lit_0_5 |};
          fc1 := {| in_features := 320; out_features := 50;
                    lin_weight := toy_param [50; 320];
                    lin_bias := toy_param [50] |};
          fc2 := {| in_features := 50; out_features := 10;
                    lin_weight := toy_param [10; 50];
                    lin_bias := toy_param [10] |};
          training := true |} |}.

Definition toy_loader : @DataLoader toy_torch :=
  {| dataset := toy_examples; batch_size := 2; shuffle := true |}.

(** The kind of line an event is, for reading a trace at a glance. *)
Definition event_name (e : Event) : string :=
  match e with
  | LogProcesses _ _ _ _ => "processes"
  | PrintEpoch _ => "epoch"
  | OptimizerStep _ _ _ => "step"
  | LogTrain _ _ _ _ _ => "progress"
  | LogPerformance metric_type _ _ => metric_type
  | LogSaving => "saving"
  end.

(** The numbers of a line, as fractions in lowest terms. *)
Definition event_values (e : Event) : list Q :=
  match e with
  | LogProcesses _ _ _ pct => [this pct]
  | LogTrain _ _ _ pct loss => [this pct; this loss]
  | LogPerformance _ loss accuracy => [this loss; this accuracy]
  | _ => []
  end.

(** ** Training runs, step by step *)

(** The two numbers of an evaluation line for a network and a partition. *)
Definition average_loss {T : Torch} (net : Net) (ds : list Sample) : Qc :=
  (total_loss net ds / Qc_of_nat (length ds))%Qc.

Definition accuracy {T : Torch} (net : Net) (ds : list Sample) : Qc :=
  (lit_100_0 * Qc_of_nat (num_correct net ds) / Qc_of_nat (length ds))%Qc.

(** The update rule of an optimizer kind, with its hyperparameters, on one
    tensor and its gradient. *)
Definition opt_update {T : Torch} (k : OptimizerKind) (slot : option OptSlot)
    (v g : Tensor) : Tensor * OptSlot :=
  match k with
  | SGD lr momentum => sgd_update lr momentum slot v g
  | Adam lr => adam_update lr slot v g
  end.

(** The gradient a parameter of [m] holds once its old gradient has been
    zeroed and the loss of [batch] back-propagated, for a forward pass in
    the mode [m] is in, started from the generator state [g0]. *)
Definition batch_grad {T : Torch} (m : DataParallel) (batch : list Sample)
    (g0 : Generator) (name : string) (p : Param) : option Tensor :=
  accumulate (zeros_like <$> p_grad p)
    (autograd (training (module m))
       (map (λ e, (fst e, p_data (snd e))) (named_parameters m))
       batch g0 name).

(** The model with each of its eight parameters replaced by a function of
    its qualified name and itself; sizes, dropout rate and mode stay. *)
Definition replace_parameters {T : Torch} (f : string → Param → Param)
    (m : DataParallel) : DataParallel :=
  let n := module m in
  {| module :=
       {| conv1 :=
            {| in_channels := in_channels (conv1 n);
               out_channels := out_channels (conv1 n);
               kernel_size := kernel_size (conv1 n);
               conv_weight := f "module.conv1.weight" (conv_weight (conv1 n));
               conv_bias := f "module.conv1.bias" (conv_bias (conv1 n)) |};
          conv2 :=
            {| in_channels := in_channels (conv2 n);
               out_channels := out_channels (conv2 n);
               kernel_size := kernel_size (conv2 n);
               conv_weight := f "module.conv2.weight" (conv_weight (conv2 n));
               conv_bias := f "module.conv2.bias" (conv_bias (conv2 n)) |};
          conv2_drop := conv2_drop n;
          fc1 :=
            {| in_features := in_features (fc1 n);
               out_features := out_features (fc1 n);
               lin_weight := f "module.fc1.weight" (lin_weight (fc1 n));
               lin_bias := f "module.fc1.bias" (lin_bias (fc1 n)) |};
          fc2 :=
            {| in_features := in_features (fc2 n);
               out_features := out_features (fc2 n);
               lin_weight := f "module.fc2.weight" (lin_weight (fc2 n));
               lin_bias := f "module.fc2.bias" (lin_bias (fc2 n)) |};
          training := training n |} |}.

(** One training step as section 4.1, step 6 words it (zero the
    gradients, forward pass and loss of the batch, back-propagate, apply
    the optimizer), written as one function of the model and the
    optimizer: every parameter that has a gradient is replaced by the
    update rule of kind [k] applied to its value and gradient, and the
    optimizer keeps the rule's new state for it. *)
Definition train_step {T : Torch} (k : OptimizerKind) (batch : list Sample)
    (g0 : Generator) (st : DataParallel * Optimizer)
  : DataParallel * Optimizer :=
  let m := fst st in
  let slots := opt_state (snd st) in
  let upd := λ name p,
    (λ g, opt_update k (slots !! name) (p_data p) g)
      <$> batch_grad m batch g0 name p in
  (replace_parameters
     (λ name p,
        {| p_shape := p_shape p;
           p_data := match upd name p with
                     | Some r => fst r
                     | None => p_data p
                     end;
           p_grad := batch_grad m batch g0 name p |}) m,
   {| opt_kind := k;
      opt_state :=
        foldl (λ s e, match upd (fst e) (snd e) with
                      | Some r => <[fst e := snd r]> s
                      | None => s
                      end)
              slots (named_parameters m) |}).

(** The batches of one epoch, the first numbered [i], run from a state:
    each batch is one [train_step] of kind [k] on the state the batches
    before it left, recorded as an optimizer step, and every 100th batch
    is followed by its progress line: examples seen, size of the
    partition, percentage of the [nb] batches, and the mean loss of the
    forward pass of the model on the batch before the step. *)
Inductive batch_run {T : Torch} (epoch : Z) (k : OptimizerKind)
    (total nb : nat)
  : DataParallel * Optimizer → Z → list (list Sample) → list Event →
    DataParallel * Optimizer → Prop :=
| batch_run_nil st i : batch_run epoch k total nb st i [] [] st
| batch_run_quiet st i batch g0 batches evs st' :
    i `mod` 100 ≠ 0 →
    batch_run epoch k total nb (train_step k batch g0 st) (i + 1) batches
      evs st' →
    batch_run epoch k total nb st i (batch :: batches)
      (OptimizerStep epoch i k :: evs) st'
| batch_run_logged st i batch w0 output w1 batches evs st' :
    i `mod` 100 = 0 →
    forward (module (fst st)) (map fst batch) w0 = (inr output, w1) →
    batch_run epoch k total nb (train_step k batch (rng w0) st) (i + 1)
      batches evs st' →
    batch_run epoch k total nb st i (batch :: batches)
      (OptimizerStep epoch i k
       :: LogTrain epoch (i * Z.of_nat (length batch)) total
            (lit_100_0 * Qc_of_Z i / Qc_of_nat nb)%Qc
            (nll_loss output (map snd batch))
       :: evs) st'.

(** One epoch from a state: the model is put in training mode; the train
    partition, in some order, is cut into batches of at most 64, the
    [ceil(len(train_set) / 64)] batches of the train loader, that are run
    one after the other from 1; the model this leaves is evaluated on the
    whole train partition, then on the whole test partition, and goes on
    in evaluation mode. *)
Definition epoch_run {T : Torch} (k : OptimizerKind)
    (train_set test_set : list Sample) (st : DataParallel * Optimizer)
    (epoch : Z) (blk : list Event) (st' : DataParallel * Optimizer) : Prop :=
  ∃ batches evs st1,
    concat batches ≡ₚ train_set ∧
    length batches = ((length train_set + 64 - 1) `div` 64)%nat ∧
    Forall (λ b, b ≠ [] ∧ (length b ≤ 64)%nat) batches ∧
    batch_run epoch k (length train_set)
      ((length train_set + 64 - 1) `div` 64)%nat
      (train (fst st), snd st) 1 batches evs st1 ∧
    blk = PrintEpoch epoch :: evs ++
          [LogPerformance "Train"
             (average_loss (module (fst st1)) train_set)
             (accuracy (module (fst st1)) train_set);
           LogPerformance "Test"
             (average_loss (module (fst st1)) test_set)
             (accuracy (module (fst st1)) test_set)] ∧
    st' = (eval (eval (fst st1)), snd st1).

(** [n] consecutive epochs, the first numbered [epoch]: each starts from
    the state the one before it ended in. *)
Inductive epochs_run {T : Torch} (k : OptimizerKind)
    (train_set test_set : list Sample)
  : DataParallel * Optimizer → Z → nat → list Event →
    DataParallel * Optimizer → Prop :=
| epochs_run_nil st epoch : epochs_run k train_set test_set st epoch 0 [] st
| epochs_run_cons st epoch n blk st1 rest st2 :
    epoch_run k train_set test_set st epoch blk st1 →
    epochs_run k train_set test_set st1 (epoch + 1) n rest st2 →
    epochs_run k train_set test_set st epoch (S n) (blk ++ rest) st2.

(** ** Notions used by the further properties *)

(** The option names the script declares. *)
Definition option_names : list string :=
  ["--epochs"; "--optimizer"; "--hidden_channels";
   "--model-dir"; "--num-gpus"; "--data-dir"].

(** A command line as the platform builds it from the hyperparameters:
    [--name value] pairs with declared names, written in full, and values
    that do not begin with ["-"]. *)
Fixpoint plain_argv (argv : list string) : bool :=
  match argv with
  | [] => true
  | name :: value :: argv' =>
      existsb (String.eqb name) option_names
      && negb (String.prefix "-" value)
      && plain_argv argv'
  | _ => false
  end.

Definition is_epoch_line (e : Event) : bool :=
  match e with PrintEpoch _ => true | _ => false end.
Definition is_step (e : Event) : bool :=
  match e with OptimizerStep _ _ _ => true | _ => false end.
Definition is_progress (e : Event) : bool :=
  match e with LogTrain _ _ _ _ _ => true | _ => false end.
Definition is_evaluation (e : Event) : bool :=
  match e with LogPerformance _ _ _ => true | _ => false end.

(** How many events of a trace satisfy a test. *)
Fixpoint count_events (f : Event → bool) (evs : list Event) : nat :=
  match evs with
  | [] => 0
  | e :: evs' => (if f e then 1 else 0) + count_events f evs'
  end.

(** A namespace with one destination replaced. *)
Definition with_epochs (n : Z) (a : Namespace) : Namespace :=
  {| args_epochs := n; args_optimizer := args_optimizer a;
     args_hidden_channels := args_hidden_channels a;
     args_model_dir := args_model_dir a; args_num_gpus := args_num_gpus a;
     args_data_dir := args_data_dir a |}.
Definition with_optimizer (v : string) (a : Namespace) : Namespace :=
  {| args_epochs := args_epochs a; args_optimizer := v;
     args_hidden_channels := args_hidden_channels a;
     args_model_dir := args_model_dir a; args_num_gpus := args_num_gpus a;
     args_data_dir := args_data_dir a |}.
Definition with_hidden_channels (n : Z) (a : Namespace) : Namespace :=
  {| args_epochs := args_epochs a; args_optimizer := args_optimizer a;
     args_hidden_channels := n;
     args_model_dir := args_model_dir a; args_num_gpus := args_num_gpus a;
     args_data_dir := args_data_dir a |}.
Definition with_model_dir (v : string) (a : Namespace) : Namespace :=
  {| args_epochs := args_epochs a; args_optimizer := args_optimizer a;
     args_hidden_channels := args_hidden_channels a;
     args_model_dir := v; args_num_gpus := args_num_gpus a;
     args_data_dir := args_data_dir a |}.
Definition with_data_dir (v : string) (a : Namespace) : Namespace :=
  {| args_epochs := args_epochs a; args_optimizer := args_optimizer a;
     args_hidden_channels := args_hidden_channels a;
     args_model_dir := args_model_dir a; args_num_gpus := args_num_gpus a;
     args_data_dir := v |}.
Definition with_num_gpus (n : Z) (a : Namespace) : Namespace :=
  {| args_epochs := args_epochs a; args_optimizer := args_optimizer a;
     args_hidden_channels := args_hidden_channels a;
     args_model_dir := args_model_dir a; args_num_gpus := n;
     args_data_dir := args_data_dir a |}.

(** Two namespaces under construction that agree on every destination
    except possibly the GPU count, which is either the same or still the
    unconverted default of either environment. *)
Definition same_but_gpus (ng1 ng2 : string) (a b : RawArgs) : Prop :=
  raw_epochs a = raw_epochs b ∧
  raw_optimizer a = raw_optimizer b ∧
  raw_hidden_channels a = raw_hidden_channels b ∧
  raw_model_dir a = raw_model_dir b ∧
  raw_data_dir a = raw_data_dir b ∧
  (raw_num_gpus a = raw_num_gpus b ∨
   (raw_num_gpus a = inr ng1 ∧ raw_num_gpus b = inr ng2)).

(** A disk for the small instance, with the data under [/data]. *)
Definition toy_disk_world : @World toy_torch :=
  @Build_World toy_torch 7 [] ∅
    {["/data" := {| mnist_train := toy_examples; mnist_test := toy_examples |}]}
    (String.eqb "/opt/ml/model").

Definition toy_environ : gmap string string :=
  {["SM_MODEL_DIR" := "/opt/ml/model"; "SM_NUM_GPUS" := "0";
    "SM_CHANNEL_TRAINING" := "/data"]}.

(** * Properties *)

(** ** The script on small inputs *)

Example range_three_epochs : range 1 (3 + 1) = [1; 2; 3].
Proof. reflexivity. Qed.

Example range_zero_epochs : range 1 (0 + 1) = [].
Proof. reflexivity. Qed.

Example chunks_five_by_two :
  chunks 5 2 [1; 2; 3; 4; 5]%nat = [[1; 2]; [3; 4]; [5]]%nat.
Proof. reflexivity. Qed.

Example os_path_join_plain :
  os_path_join "/opt/ml/model" "model.pth" = "/opt/ml/model/model.pth".
Proof. reflexivity. Qed.

Example os_path_join_slash :
  os_path_join "/opt/ml/model/" "model.pth" = "/opt/ml/model/model.pth".
Proof. reflexivity. Qed.

Example py_int_signed : py_int "-12" = Some (-12) ∧ py_int "1a" = None.
Proof. split; reflexivity. Qed.

(** Evaluation of a network whose parameters are all 1: every layer of the
    small instance adds 1, so the outputs are 7, 9 and 10, the losses 4, 8
    and 10, and only the third example is classified as labelled. *)
Example toy_log_performance :
  map event_values
    (log (snd (@log_performance toy_torch toy_model toy_loader cpu 1 "Test"
                 toy_world)))
  = [[22 # 3; 100 # 3]]%Q.
Proof. vm_compute. reflexivity. Qed.

(** Two epochs on three examples: one batch per epoch. *)
Example toy_trace :
  map event_name
    (log (snd (@train_model toy_torch toy_examples toy_examples "adam" 2 5
                 toy_world)))
  = ["processes"; "processes";
     "epoch"; "step"; "Train"; "Test";
     "epoch"; "step"; "Train"; "Test"].
Proof. vm_compute. reflexivity. Qed.

(** The parameter values a run returns.  In the small instance the
    initializers hand out 42, 43, ..., every gradient is 1, an SGD step
    subtracts the gradient and an Adam step twice the gradient: one
    epoch on three examples is one step. *)
Example toy_updates :
  let values := λ sel epochs,
    match fst (@train_model toy_torch toy_examples toy_examples sel epochs 5
                 toy_world) with
    | inr m => map (λ e, p_data (snd e)) (named_parameters m)
    | inl _ => []
    end in
  values "sgd" 0 = [42; 43; 44; 45; 46; 47; 48; 49] ∧
  values "sgd" 1 = [41; 42; 43; 44; 45; 46; 47; 48] ∧
  values "adam" 1 = [40; 41; 42; 43; 44; 45; 46; 47] ∧
  values "sgd" 2 = [40; 41; 42; 43; 44; 45; 46; 47].
Proof. vm_compute. auto. Qed.

(** An empty train partition stops the run when its loader is built,
    before any line is written. *)
Example toy_empty_train :
  ∃ msg,
    @train_model toy_torch [] toy_examples "adam" 2 5 toy_world
    = (inl (ValueError msg), @set_rng toy_torch 42 toy_world).
Proof. eexists. vm_compute. reflexivity. Qed.

(** A negative width is refused when the first layer is allocated. *)
Example toy_negative_width :
  ∃ msg,
    fst (@train_model toy_torch toy_examples toy_examples "adam" 2 (-1)
           toy_world)
    = inl (RuntimeError msg).
Proof. eexists. vm_compute. reflexivity. Qed.

Example parentdir_model_pth :
  parentdir "/opt/ml/model/model.pth" = "/opt/ml/model" ∧
  parentdir "model.pth" = "".
Proof. split; reflexivity. Qed.

(** Saving under a directory that does not exist fails after the line
    "Saving the model." and writes no file. *)
Example toy_save_missing_directory :
  ∃ msg,
    fst (@save_model toy_torch toy_model "/nowhere" toy_world)
    = inl (RuntimeError msg) ∧
    fs (snd (@save_model toy_torch toy_model "/nowhere" toy_world)) = ∅ ∧
    log (snd (@save_model toy_torch toy_model "/nowhere" toy_world))
    = [LogSaving].
Proof. eexists. vm_compute. auto. Qed.

(** The whole script on a command line, with the data on disk. *)
Example toy_main :
  let w := @Build_World toy_torch 7 [] ∅
             {["/data" := {| mnist_train := toy_examples;
                             mnist_test := toy_examples |}]}
             (String.eqb "/opt/ml/model") in
  let environ : gmap string string :=
    {["SM_MODEL_DIR" := "/opt/ml/model"; "SM_NUM_GPUS" := "0";
      "SM_CHANNEL_TRAINING" := "/data"]} in
  let out := @main toy_torch environ
               ["--epochs"; "1"; "--hidden_channels"; "5";
                "--optimizer"; "adam"] w in
  fst out = inr tt ∧
  map event_name (log (snd out))
  = ["processes"; "processes"; "epoch"; "step"; "Train"; "Test"; "saving"] ∧
  (entry_shapes <$> fs (snd out) !! "/opt/ml/model/model.pth")
  = Some (saved_shapes 5).
Proof. vm_compute. auto. Qed.

Section Monad.
Context {T : Torch}.
Implicit Types (w : World) (evs : list Event).

Lemma bind_unfold {A B} (m : M A) (f : A → M B) w :
  (m ≫= f) w = match m w with
               | (inr a, w') => f a w'
               | (inl e, w') => (inl e, w')
               end.
Proof. reflexivity. Qed.

Lemma bind_inr {A B} (m : M A) (f : A → M B) w a w' :
  m w = (inr a, w') → (m ≫= f) w = f a w'.
Proof. intros H. rewrite bind_unfold, H. reflexivity. Qed.

Lemma bind_inl {A B} (m : M A) (f : A → M B) w e w' :
  m w = (inl e, w') → (m ≫= f) w = (inl e, w').
Proof. intros H. rewrite bind_unfold, H. reflexivity. Qed.

Lemma emits_refl w : emits w w [].
Proof. unfold emits. rewrite app_nil_r. auto. Qed.

Lemma emits_log w w' evs : emits w w' evs → log w' = log w ++ evs.
Proof. intros H. apply H. Qed.

Lemma emits_fs w w' evs : emits w w' evs → fs w' = fs w.
Proof. intros H. apply H. Qed.

Lemma emits_isdir w w' evs : emits w w' evs → isdir w' = isdir w.
Proof. intros H. apply H. Qed.

Lemma emits_trans w1 w2 w3 e1 e2 :
  emits w1 w2 e1 → emits w2 w3 e2 → emits w1 w3 (e1 ++ e2).
Proof.
  intros (L1 & F1 & D1 & I1) (L2 & F2 & D2 & I2). unfold emits.
  rewrite L2, L1, F2, F1, D2, D1, I2, I1, app_assoc. auto.
Qed.

Lemma emits_set_rng g w : emits w (set_rng g w) [].
Proof. unfold emits, set_rng; simpl. rewrite app_nil_r. auto. Qed.

Lemma emits_add_log e w : emits w (add_log e w) [e].
Proof. unfold emits, add_log; simpl. auto. Qed.

Lemma returns_ret {A} (a : A) w (Q : A → World → Prop) :
  Q a w → returns (mret a) w Q.
Proof. intros H. exists a, w. split; [reflexivity | exact H]. Qed.

Lemma returns_bind {A B} (m : M A) (f : A → M B) w (Q : B → World → Prop) :
  returns m w (λ a w', returns (f a) w' Q) → returns (m ≫= f) w Q.
Proof.
  intros (a & w1 & Hm & b & w2 & Hf & HQ).
  exists b, w2. split; [| exact HQ].
  rewrite (bind_inr _ _ _ _ _ Hm). exact Hf.
Qed.

Lemma returns_mono {A} (m : M A) w (P Q : A → World → Prop) :
  returns m w P → (∀ a w', P a w' → Q a w') → returns m w Q.
Proof. intros (a & w' & Hm & HP) H. exists a, w'. auto. Qed.

Lemma returns_emit e w : returns (emit e) w (λ _ w', w' = add_log e w).
Proof. exists tt, (add_log e w). split; reflexivity. Qed.

Lemma returns_draw {A} (f : Generator → A * Generator) w :
  returns (draw f) w
    (λ a w', a = fst (f (rng w)) ∧ w' = set_rng (snd (f (rng w))) w).
Proof.
  unfold returns, draw. destruct (f (rng w)) as [a g]. eauto.
Qed.

Lemma returns_py_div (a b : Qc) w :
  b ≠ 0%Qc → returns (py_div a b) w (λ q w', q = (a / b)%Qc ∧ w' = w).
Proof.
  intros Hb. unfold py_div. destruct (decide (b = 0%Qc)); [contradiction |].
  apply returns_ret. auto.
Qed.

(** A loop with invariant [I], indexed by the items still to come. *)
Lemma returns_foldM {S A} (I : list A → S → World → Prop)
    (body : S → A → M S) (l : list A) (s : S) w :
  I l s w →
  (∀ x rest s w, I (x :: rest) s w →
     returns (body s x) w (λ s' w', I rest s' w')) →
  returns (foldM body s l) w (λ s' w', I [] s' w').
Proof.
  intros HI Hbody. revert s w HI.
  induction l as [| x l IH]; intros s w HI.
  - apply returns_ret. exact HI.
  - simpl. apply returns_bind.
    eapply returns_mono; [apply Hbody; exact HI |].
    intros s' w' HI'. apply IH. exact HI'.
Qed.

Lemma returns_mapM_draw (f : Tensor → Generator → Tensor * Generator)
    (x : list Tensor) w :
  returns (mapM (λ r, draw (f r)) x) w (λ _ w', emits w w' []).
Proof.
  revert w. induction x as [| r x IH]; intros w.
  - apply returns_ret, emits_refl.
  - simpl. apply returns_bind.
    eapply returns_mono; [apply returns_draw |].
    intros a w1 [_ ->]. apply returns_bind.
    eapply returns_mono; [apply IH |].
    intros k w2 H2. apply returns_ret.
    apply (emits_trans _ _ _ [] [] (emits_set_rng _ w) H2).
Qed.

End Monad.

Section Network.
Context {T : Torch}.
Implicit Types (w : World) (n : Net) (m : DataParallel).

(** In evaluation mode [forward] draws nothing and maps the row function. *)
Lemma forward_eval n (x : list Tensor) w :
  training n = false →
  forward n x w = (inr (map (forward_eval_row n) x), w).
Proof.
  intros Ht. unfold forward, Dropout2d_forward, F_dropout. rewrite Ht.
  unfold mbind, M_bind, bind, ret; simpl.
  f_equal. f_equal. rewrite !map_map. reflexivity.
Qed.

Lemma forward_returns n (x : list Tensor) w :
  returns (forward n x) w (λ _ w', emits w w' []).
Proof.
  unfold forward. apply returns_bind.
  eapply returns_mono.
  { unfold Dropout2d_forward. destruct (training n).
    - apply returns_mapM_draw.
    - apply returns_ret, emits_refl. }
  intros d w1 H1. apply returns_bind.
  eapply returns_mono.
  { unfold F_dropout. destruct (training n).
    - apply returns_mapM_draw.
    - apply returns_ret, emits_refl. }
  intros d2 w2 H2. apply returns_ret.
  apply (emits_trans _ _ _ [] [] H1 H2).
Qed.

(** [forward] is the pipeline of the specification, for a network with
    the architecture [Net(hidden, 5, 0.5)]. *)
Lemma forward_pipeline n hidden (x : list Tensor) w :
  Net_arch n = arch_of hidden →
  forward n x w =
  run_pipeline (spec_pipeline hidden) (parameter_values n) (training n) x w.
Proof.
  intros Ha.
  pose proof (f_equal arch_conv1 Ha) as Hc1.
  pose proof (f_equal arch_conv2 Ha) as Hc2.
  pose proof (f_equal arch_drop Ha) as Hd.
  pose proof (f_equal arch_fc1 Ha) as Hf1.
  pose proof (f_equal arch_fc2 Ha) as Hf2.
  simpl in Hc1, Hc2, Hd, Hf1, Hf2.
  injection Hc1 as Hi1 Ho1 Hk1. injection Hc2 as Hi2 Ho2 Hk2.
  injection Hf1 as Hfi1 Hfo1. injection Hf2 as Hfi2 Hfo2.
  unfold forward, spec_pipeline, parameter_values, Net_named_parameters.
  unfold Dropout2d_forward, F_dropout, Conv2d_forward, Linear_forward.
  simpl. rewrite Hi1, Ho1, Hk1, Hi2, Ho2, Hk2, Hd, Hfi1, Hfo1, Hfi2, Hfo2.
  destruct (training n).
  - rewrite !map_map, (bind_unfold (mapM _ _)).
    symmetry. rewrite (bind_unfold (mapM _ _)). symmetry.
    match goal with |- context [mapM ?f ?l w] =>
      destruct (mapM f l w) as [[e | d] w1] end; [reflexivity |].
    rewrite !map_map, (bind_unfold (mapM _ _)).
    symmetry. rewrite (bind_unfold (mapM _ _)). symmetry.
    match goal with |- context [mapM ?f ?l w1] =>
      destruct (mapM f l w1) as [[e | d2] w2] end; [reflexivity |].
    unfold ret. rewrite !map_map. reflexivity.
  - unfold mbind, M_bind, bind, ret. rewrite !map_map. reflexivity.
Qed.

Lemma Net_map_parameters_arch (f : string → Param → Param) n :
  (∀ name p, p_shape (f name p) = p_shape p) →
  Net_arch (Net_map_parameters f n) = Net_arch n.
Proof.
  intros Hf. unfold Net_arch, Net_map_parameters; simpl.
  rewrite !Hf. reflexivity.
Qed.

Lemma Net_set_training_arch b n : Net_arch (Net_set_training b n) = Net_arch n.
Proof. reflexivity. Qed.

Lemma map_parameters_arch (f : string → Param → Param) m :
  (∀ name p, p_shape (f name p) = p_shape p) →
  Net_arch (module (map_parameters f m)) = Net_arch (module m).
Proof. intros Hf. apply Net_map_parameters_arch. intros. apply Hf. Qed.

Lemma zero_grad_arch o m : Net_arch (module (zero_grad o m)) = Net_arch (module m).
Proof. apply map_parameters_arch. reflexivity. Qed.

Lemma backward_arch m batch g :
  Net_arch (module (backward m batch g)) = Net_arch (module m).
Proof. apply map_parameters_arch. reflexivity. Qed.

Lemma step_arch o m : Net_arch (module (snd (step o m))) = Net_arch (module m).
Proof.
  unfold step; simpl. apply Net_map_parameters_arch.
  intros name p. destruct (update_param _ _ p) as [[d s] |]; reflexivity.
Qed.

Lemma step_kind o m : opt_kind (fst (step o m)) = opt_kind o.
Proof. reflexivity. Qed.

Lemma Net_set_training_values b n :
  Net_named_parameters (Net_set_training b n) = Net_named_parameters n.
Proof. reflexivity. Qed.

(** The saved names and shapes are those of the architecture, under the
    wrapper's prefix. *)
Lemma state_dict_shapes m hidden :
  Net_arch (module m) = arch_of hidden →
  entry_shapes (state_dict m) = saved_shapes hidden.
Proof.
  intros Ha. apply (f_equal arch_shapes) in Ha. simpl in Ha.
  unfold Net_named_parameters in Ha. simpl in Ha.
  injection Ha as H1 H2 H3 H4 H5 H6 H7 H8.
  unfold entry_shapes, state_dict, named_parameters, Net_named_parameters,
    saved_shapes.
  simpl. rewrite H1, H2, H3, H4, H5, H6, H7, H8. reflexivity.
Qed.

Lemma num_parameters_arch m hidden :
  Net_arch (module m) = arch_of hidden →
  num_parameters m = 526 * hidden + 16580.
Proof.
  intros Ha. apply (f_equal arch_shapes) in Ha. simpl in Ha.
  unfold Net_named_parameters in Ha. simpl in Ha.
  injection Ha as H1 H2 H3 H4 H5 H6 H7 H8.
  unfold num_parameters, named_parameters, Net_named_parameters. simpl.
  rewrite H1, H2, H3, H4, H5, H6, H7, H8. unfold numel; simpl. lia.
Qed.

End Network.

Section Loaders.
Context {T : Torch}.
Implicit Types (w : World) (dl : DataLoader) (ds : list Sample).

Lemma bind_inv {A B} (m : M A) (f : A → M B) w b w' :
  (m ≫= f) w = (inr b, w') →
  ∃ a w1, m w = (inr a, w1) ∧ f a w1 = (inr b, w').
Proof.
  rewrite bind_unfold. destruct (m w) as [[e | a] w1]; [discriminate |].
  intros H. exists a, w1. auto.
Qed.

Lemma concat_chunks {A} (fuel n : nat) (l : list A) :
  (length l ≤ fuel)%nat → (0 < n)%nat → concat (chunks fuel n l) = l.
Proof.
  intros Hl Hn. revert l Hl.
  induction fuel as [| fuel IH]; intros l Hl.
  - destruct l; [reflexivity | simpl in Hl; lia].
  - destruct l as [| x l]; [reflexivity |].
    cbn [chunks concat]. rewrite IH.
    + apply take_drop.
    + rewrite length_drop. simpl in *. lia.
Qed.

Lemma length_chunks {A} (fuel n : nat) (l : list A) :
  (length l ≤ fuel)%nat → (0 < n)%nat →
  length (chunks fuel n l) = ((length l + n - 1) `div` n)%nat.
Proof.
  intros Hl Hn. revert l Hl.
  induction fuel as [| fuel IH]; intros l Hl.
  - destruct l; [| simpl in Hl; lia].
    simpl. symmetry. apply Nat.div_small. lia.
  - destruct l as [| x l].
    { simpl. symmetry. apply Nat.div_small. lia. }
    cbn [chunks length]. rewrite IH by (rewrite length_drop; simpl in *; lia).
    rewrite length_drop. cbn [length].
    destruct (le_lt_dec (S (length l)) n) as [Hle | Hgt].
    + replace (S (length l) - n)%nat with 0%nat by lia.
      rewrite (Nat.div_small (0 + n - 1) n) by lia.
      apply (Nat.div_unique _ n 1 (length l)); lia.
    + replace (S (length l) + n - 1)%nat
        with ((S (length l) - n + n - 1) + 1 * n)%nat by lia.
      rewrite Nat.div_add by lia. lia.
Qed.

(** The examples at a list of positions. *)
Lemma mapM_lookup_valid ds (idxs : list nat) :
  Forall (λ i, (i < length ds)%nat) idxs →
  mapM (λ i, ds !! i) idxs = Some (omap (λ i, ds !! i) idxs).
Proof.
  induction 1 as [| i idxs Hi _ IH]; [reflexivity |].
  apply lookup_lt_is_Some_2 in Hi. destruct Hi as [e He].
  cbn [omap list_omap]. rewrite He.
  apply mapM_Some. constructor; [exact He |].
  apply mapM_Some. exact IH.
Qed.

Lemma fetch_valid dl (idxs : list nat) w :
  Forall (λ i, (i < length (dataset dl))%nat) idxs →
  DataLoader_fetch dl idxs w =
  (inr (omap (λ i, dataset dl !! i) idxs), w).
Proof.
  intros H. unfold DataLoader_fetch. rewrite (mapM_lookup_valid _ _ H).
  reflexivity.
Qed.

Lemma omap_lookup_seq_app (pre ds : list Sample) :
  omap (λ i, (pre ++ ds) !! i) (seq (length pre) (length ds)) = ds.
Proof.
  revert pre. induction ds as [| e ds IH]; intros pre; [reflexivity |].
  cbn [length seq omap list_omap].
  rewrite list_lookup_middle by reflexivity. f_equal.
  specialize (IH (pre ++ [e])).
  rewrite <- app_assoc, length_app in IH. cbn [length app] in IH.
  replace (length pre + 1)%nat with (S (length pre)) in IH by lia.
  exact IH.
Qed.

Lemma omap_lookup_seq ds :
  omap (λ i, ds !! i) (seq 0 (length ds)) = ds.
Proof. apply (omap_lookup_seq_app [] ds). Qed.

(** A pass over positions that are a permutation of all positions visits
    a permutation of the partition. *)
Lemma omap_lookup_Permutation ds (idx : list nat) :
  idx ≡ₚ seq 0 (length ds) → omap (λ i, ds !! i) idx ≡ₚ ds.
Proof.
  intros H. rewrite H. rewrite omap_lookup_seq. reflexivity.
Qed.

Lemma Permutation_seq_bound (idx : list nat) (n : nat) :
  idx ≡ₚ seq 0 n → Forall (λ i, (i < n)%nat) idx.
Proof.
  intros H. apply Forall_forall. intros i Hi.
  rewrite H in Hi. apply elem_of_seq in Hi. lia.
Qed.

Lemma Forall_concat_inv {A} (P : A → Prop) (ls : list (list A)) :
  Forall P (concat ls) → Forall (Forall P) ls.
Proof.
  induction ls as [| l ls IH]; simpl; intros H; [constructor |].
  apply Forall_app in H. destruct H as [H1 H2].
  constructor; auto.
Qed.

(** Starting an iteration returns batches that together hold every
    position once, [len(loader)] of them. *)
Lemma DataLoader_iter_returns `{!TorchOk T} dl w :
  (0 < batch_size dl)%nat →
  returns (DataLoader_iter dl) w
    (λ batches w',
       emits w w' [] ∧
       concat batches ≡ₚ seq 0 (length (dataset dl)) ∧
       length batches = len_loader dl).
Proof.
  intros Hb. unfold DataLoader_iter. apply returns_bind.
  set (n := length (dataset dl)).
  assert (returns (if shuffle dl then draw (randperm n) else ret (seq 0 n)) w
            (λ idx w', emits w w' [] ∧ idx ≡ₚ seq 0 n)) as Hidx.
  { destruct (shuffle dl).
    - eapply returns_mono; [apply returns_draw |].
      intros idx w' [-> ->]. split; [apply emits_set_rng |].
      apply randperm_Permutation.
    - apply returns_ret. split; [apply emits_refl | reflexivity]. }
  eapply returns_mono; [exact Hidx |].
  intros idx w' [He Hp]. apply returns_ret.
  split; [exact He |]. split.
  - rewrite concat_chunks by (auto; lia). exact Hp.
  - rewrite length_chunks by (auto; lia). unfold len_loader.
    rewrite (Permutation_length Hp), length_seq. reflexivity.
Qed.

End Loaders.

Section Evaluation.
Context {T : Torch}.
Implicit Types (w : World) (dl : DataLoader) (ds : list Sample) (n : Net).

Lemma returns_eq {A} (m : M A) w a w' (Q : A → World → Prop) :
  m w = (inr a, w') → Q a w' → returns m w Q.
Proof. intros H HQ. exists a, w'. auto. Qed.

Lemma emits_nil_set_rng w w' : emits w w' [] → w' = set_rng (rng w') w.
Proof.
  destruct w, w'. unfold emits, set_rng; simpl.
  rewrite app_nil_r. intros (-> & -> & -> & ->). reflexivity.
Qed.

Lemma Qc_of_Z_eq_0 (z : Z) : Qc_of_Z z = 0%Qc → z = 0.
Proof.
  unfold Qc_of_Z. intros H. apply Q2Qc_eq_iff in H.
  apply (inject_Z_injective z 0) in H. exact H.
Qed.

Lemma Qc_of_nat_neq_0 (k : nat) : k ≠ 0%nat → Qc_of_nat k ≠ 0%Qc.
Proof.
  intros Hk H. apply Qc_of_Z_eq_0 in H. lia.
Qed.

Lemma sum_Qc_app (l1 l2 : list Qc) :
  sum_Qc (l1 ++ l2) = (sum_Qc l1 + sum_Qc l2)%Qc.
Proof.
  induction l1 as [| q l1 IH]; simpl.
  - ring.
  - unfold sum_Qc in *. simpl. rewrite IH. ring.
Qed.

Lemma sum_Qc_Permutation (l1 l2 : list Qc) :
  l1 ≡ₚ l2 → sum_Qc l1 = sum_Qc l2.
Proof.
  induction 1 as [| q l1 l2 _ IH | p q l | l1 l2 l3 _ IH1 _ IH2].
  - reflexivity.
  - unfold sum_Qc in *. simpl. rewrite IH. reflexivity.
  - unfold sum_Qc. simpl. ring.
  - congruence.
Qed.

Lemma total_loss_app n ds1 ds2 :
  total_loss n (ds1 ++ ds2) = (total_loss n ds1 + total_loss n ds2)%Qc.
Proof. unfold total_loss. rewrite map_app. apply sum_Qc_app. Qed.

Lemma total_loss_Permutation n ds1 ds2 :
  ds1 ≡ₚ ds2 → total_loss n ds1 = total_loss n ds2.
Proof.
  intros H. unfold total_loss. apply sum_Qc_Permutation.
  apply Permutation_map. exact H.
Qed.

Lemma num_correct_app n ds1 ds2 :
  num_correct n (ds1 ++ ds2) = (num_correct n ds1 + num_correct n ds2)%nat.
Proof. unfold num_correct. rewrite filter_app, length_app. reflexivity. Qed.

Lemma num_correct_Permutation n ds1 ds2 :
  ds1 ≡ₚ ds2 → num_correct n ds1 = num_correct n ds2.
Proof.
  intros H. unfold num_correct. apply Permutation_length.
  rewrite H. reflexivity.
Qed.

(** On the output of the network in evaluation mode, the batch's summed
    loss and its count of hits are those of its examples. *)
Lemma nll_loss_sum_eval n (batch : list Sample) :
  nll_loss_sum (map (forward_eval_row n) (map fst batch)) (map snd batch)
  = total_loss n batch.
Proof.
  unfold nll_loss_sum, total_loss, sum_Qc.
  induction batch as [| [x y] batch IH]; [reflexivity |].
  simpl. rewrite IH. reflexivity.
Qed.

Lemma count_correct_eval n (batch : list Sample) :
  count_correct (map (forward_eval_row n) (map fst batch)) (map snd batch)
  = Z.of_nat (num_correct n batch).
Proof.
  unfold count_correct, num_correct. f_equal.
  induction batch as [| [x y] batch IH]; [reflexivity |].
  cbn [map zip zip_with]. rewrite !filter_cons. cbn [fst snd].
  destruct (decide (argmax (forward_eval_row n x) = y)); simpl; rewrite IH;
    reflexivity.
Qed.

(** [log_performance] returns the model in evaluation mode and logs the
    full-partition averages. *)
Lemma log_performance_returns `{!TorchOk T} (model : DataParallel) dl
    (device : Device) (epoch : Z) (metric_type : string) w :
  dataset dl ≠ [] → (0 < batch_size dl)%nat →
  returns (log_performance model dl device epoch metric_type) w
    (λ m' w',
       m' = eval model ∧
       ∃ g, w' = add_log
                   (LogPerformance metric_type
                      (total_loss (module model) (dataset dl)
                       / Qc_of_nat (length (dataset dl)))%Qc
                      (lit_100_0
                       * Qc_of_nat (num_correct (module model) (dataset dl))
                       / Qc_of_nat (length (dataset dl)))%Qc)
                   (set_rng g w)).
Proof.
  intros Hne Hbs. unfold log_performance.
  assert (Qc_of_nat (length (dataset dl)) ≠ 0%Qc) as HM.
  { apply Qc_of_nat_neq_0. destruct (dataset dl); [contradiction | simpl; lia]. }
  set (net := module model).
  apply returns_bind.
  eapply returns_mono; [apply DataLoader_iter_returns; exact Hbs |].
  intros batches w1 (He & Hperm & _).
  apply emits_nil_set_rng in He.
  pose proof (Forall_concat_inv _ _ (Permutation_seq_bound _ _ Hperm)) as Hval.
  apply returns_bind.
  eapply returns_mono.
  { apply (returns_foldM
      (λ rest (s : Qc * Z) w',
         w' = w1 ∧
         Forall (Forall (λ i, (i < length (dataset dl))%nat)) rest ∧
         (fst s + total_loss net (omap (λ i, dataset dl !! i) (concat rest))
          = total_loss net (omap (λ i, dataset dl !! i) (concat batches)))%Qc ∧
         snd s + Z.of_nat (num_correct net (omap (λ i, dataset dl !! i) (concat rest)))
         = Z.of_nat (num_correct net (omap (λ i, dataset dl !! i) (concat batches))))).
    - split; [reflexivity |]. split; [exact Hval |]. simpl. split; [ring | lia].
    - intros idxs rest [loss correct] w2 (-> & Hv & HL & HC).
      apply Forall_cons in Hv. destruct Hv as [Hv1 Hv2].
      cbn [fst snd concat] in HL, HC.
      rewrite omap_app, total_loss_app in HL.
      rewrite omap_app, num_correct_app in HC.
      apply returns_bind.
      eapply returns_eq; [apply fetch_valid; exact Hv1 |].
      apply returns_bind. unfold to_device.
      eapply returns_eq.
      { unfold DataParallel_forward. apply forward_eval. reflexivity. }
      apply returns_ret.
      split; [reflexivity |]. split; [exact Hv2 |].
      change (forward_eval_row (module (eval model)))
        with (forward_eval_row net).
      rewrite nll_loss_sum_eval, count_correct_eval. cbn [fst snd].
      split.
      + rewrite <- HL. ring.
      + rewrite <- HC. lia. }
  intros [loss correct] w2 (-> & _ & HL & HC). cbn [fst snd concat] in HL, HC.
  change (omap (λ i, dataset dl !! i) []) with (@nil Sample) in HL, HC.
  unfold total_loss in HL at 1. unfold num_correct in HC at 1.
  simpl in HL, HC.
  rewrite (total_loss_Permutation _ _ _ (omap_lookup_Permutation _ _ Hperm)) in HL.
  rewrite (num_correct_Permutation _ _ _ (omap_lookup_Permutation _ _ Hperm)) in HC.
  apply returns_bind.
  eapply returns_mono; [apply returns_py_div; exact HM |].
  intros q1 w3 [-> ->]. apply returns_bind.
  eapply returns_mono; [apply returns_py_div; exact HM |].
  intros q2 w3 [-> ->]. apply returns_bind.
  eapply returns_mono; [apply returns_emit |].
  intros [] w3 ->. apply returns_ret.
  split; [reflexivity |]. exists (rng w1). rewrite <- He.
  f_equal. f_equal.
  - f_equal. rewrite <- HL. unfold sum_Qc. simpl. ring.
  - f_equal. f_equal. replace correct with (Z.of_nat (num_correct net (dataset dl))) by lia.
    reflexivity.
Qed.

End Evaluation.

Section Training.
Context {T : Torch}.
Implicit Types (w : World) (dl : DataLoader) (m model : DataParallel)
  (o opt : Optimizer) (k : OptimizerKind).

Lemma batch_events_app epoch k i n1 n2 e1 e2 :
  batch_events epoch k i n1 e1 →
  batch_events epoch k (i + Z.of_nat n1) n2 e2 →
  batch_events epoch k i (n1 + n2) (e1 ++ e2).
Proof.
  induction 1 as [i | i n evs Hmod _ IH | i n evs seen total pct loss Hmod _ IH];
    intros H2.
  - replace (i + Z.of_nat 0) with i in H2 by lia. exact H2.
  - simpl. apply batch_events_quiet; [exact Hmod |].
    apply IH. replace (i + 1 + Z.of_nat n) with (i + Z.of_nat (S n)) by lia.
    exact H2.
  - simpl. apply batch_events_logged; [exact Hmod |].
    apply IH. replace (i + 1 + Z.of_nat n) with (i + Z.of_nat (S n)) by lia.
    exact H2.
Qed.

(** One batch: the model keeps its architecture, the optimizer its kind,
    and the step is recorded, with a progress line on a 100th batch. *)
Lemma train_batch_returns dl (device : Device) (epoch i : Z) model opt
    (idxs : list nat) w :
  Forall (λ j, (j < length (dataset dl))%nat) idxs →
  len_loader dl ≠ 0%nat →
  returns (train_batch dl device 100 epoch (model, opt) (i, idxs)) w
    (λ st w',
       Net_arch (module (fst st)) = Net_arch (module model) ∧
       opt_kind (snd st) = opt_kind opt ∧
       ∃ evs, emits w w' evs ∧ batch_events epoch (opt_kind opt) i 1 evs).
Proof.
  intros Hv Hlen. unfold train_batch.
  apply returns_bind.
  eapply returns_eq; [apply fetch_valid; exact Hv |].
  apply returns_bind. eapply returns_eq; [reflexivity |].
  apply returns_bind. unfold to_device, DataParallel_forward.
  eapply returns_mono; [apply forward_returns |].
  intros output w1 He1. unfold step. cbn iota beta.
  apply returns_bind. eapply returns_mono; [apply returns_emit |].
  intros [] w2 ->. cbn [opt_kind].
  pose proof (emits_trans _ _ _ _ _ He1 (emits_add_log
    (OptimizerStep epoch i (opt_kind opt)) w1)) as He2.
  assert (Net_arch (module (snd (step opt
            (backward (zero_grad opt model)
               (omap (λ j, dataset dl !! j) idxs) (rng w))))) =
          Net_arch (module model)) as Harch.
  { rewrite step_arch, backward_arch, zero_grad_arch. reflexivity. }
  apply returns_bind.
  destruct (decide (i `mod` 100 = 0)) as [Hmod | Hmod].
  - apply returns_bind.
    eapply returns_mono.
    { apply returns_py_div. apply Qc_of_nat_neq_0. exact Hlen. }
    intros pct w3 [-> ->].
    eapply returns_mono; [apply returns_emit |].
    intros [] w3 ->. apply returns_ret.
    split; [exact Harch |]. split; [reflexivity |].
    eexists. split.
    + apply (emits_trans _ _ _ _ _ He2 (emits_add_log _ _)).
    + simpl. apply batch_events_logged; [exact Hmod | constructor].
  - apply returns_ret. apply returns_ret.
    split; [exact Harch |]. split; [reflexivity |].
    eexists. split; [exact He2 |].
    simpl. apply batch_events_quiet; [exact Hmod | constructor].
Qed.

(** The batches of one pass, numbered from [i]. *)
Lemma train_batches_returns dl (device : Device) (epoch : Z)
    (batches : list (list nat)) (i : Z) model opt w :
  Forall (Forall (λ j, (j < length (dataset dl))%nat)) batches →
  len_loader dl ≠ 0%nat →
  returns (foldM (train_batch dl device 100 epoch) (model, opt)
                 (imap (λ j x, (i + Z.of_nat j, x)) batches)) w
    (λ st w',
       Net_arch (module (fst st)) = Net_arch (module model) ∧
       opt_kind (snd st) = opt_kind opt ∧
       ∃ evs, emits w w' evs ∧
              batch_events epoch (opt_kind opt) i (length batches) evs).
Proof.
  intros Hv Hlen. revert i model opt w.
  induction Hv as [| idxs batches Hv1 _ IH]; intros i model opt w.
  - apply returns_ret. split; [reflexivity |]. split; [reflexivity |].
    exists []. split; [apply emits_refl | constructor].
  - rewrite imap_cons. cbn [foldM]. apply returns_bind.
    replace (i + Z.of_nat 0) with i by lia.
    eapply returns_mono; [apply train_batch_returns; eassumption |].
    intros [m1 o1] w1 (Ha1 & Hk1 & evs1 & He1 & Hb1). cbn [fst snd] in *.
    rewrite (imap_ext _ (λ j x, (i + 1 + Z.of_nat j, x)))
      by (intros; simpl; f_equal; lia).
    eapply returns_mono; [apply IH |].
    intros [m2 o2] w2 (Ha2 & Hk2 & evs2 & He2 & Hb2). cbn [fst snd] in *.
    split; [congruence |]. split; [congruence |].
    exists (evs1 ++ evs2). split; [eapply emits_trans; eassumption |].
    rewrite Hk1 in Hb2.
    apply (batch_events_app epoch _ i 1 (length batches)); [exact Hb1 |].
    exact Hb2.
Qed.

Lemma len_loader_neq_0 dl :
  dataset dl ≠ [] → (0 < batch_size dl)%nat → len_loader dl ≠ 0%nat.
Proof.
  intros Hne Hb. unfold len_loader.
  destruct (dataset dl) as [| e ds]; [contradiction |]. cbn [length].
  intros H. apply Nat.div_small_iff in H; lia.
Qed.

(** One epoch: its events form an epoch block. *)
Lemma train_epoch_returns `{!TorchOk T} (train_set test_set : list Sample)
    (device : Device) (epoch : Z) model opt w :
  train_set ≠ [] → test_set ≠ [] →
  returns (train_epoch (train_loader_of train_set) (test_loader_of test_set)
             device 100 (model, opt) epoch) w
    (λ st w',
       Net_arch (module (fst st)) = Net_arch (module model) ∧
       opt_kind (snd st) = opt_kind opt ∧
       ∃ blk, emits w w' blk ∧
              epoch_block (opt_kind opt)
                (len_loader (train_loader_of train_set)) epoch blk).
Proof.
  intros Htr Hte. unfold train_epoch.
  assert (len_loader (train_loader_of train_set) ≠ 0%nat) as Hlen.
  { apply len_loader_neq_0; [exact Htr | simpl; lia]. }
  apply returns_bind. eapply returns_mono; [apply returns_emit |].
  intros [] w1 ->. apply returns_bind.
  eapply returns_mono; [apply DataLoader_iter_returns; simpl; lia |].
  intros batches w2 (He2 & Hperm & Hnb). apply returns_bind.
  pose proof (Forall_concat_inv _ _ (Permutation_seq_bound _ _ Hperm)) as Hval.
  eapply returns_mono.
  { unfold enumerate. apply train_batches_returns; [exact Hval | exact Hlen]. }
  intros [m1 o1] w3 (Ha1 & Hk1 & evs & He3 & Hb). cbn [fst snd] in *.
  apply returns_bind.
  eapply returns_mono.
  { apply log_performance_returns; [exact Htr | simpl; lia]. }
  intros m2 w4 (-> & g4 & ->). apply returns_bind.
  eapply returns_mono.
  { apply log_performance_returns; [exact Hte | simpl; lia]. }
  intros m3 w5 (-> & g5 & ->). apply returns_ret. cbn [fst snd].
  split; [exact Ha1 |]. split; [exact Hk1 |].
  eexists. split.
  - eapply emits_trans; [apply emits_add_log |].
    eapply emits_trans; [exact He2 |].
    eapply emits_trans; [exact He3 |].
    eapply emits_trans; [apply emits_set_rng |].
    eapply emits_trans; [apply emits_add_log |].
    eapply emits_trans; [apply emits_set_rng |].
    apply emits_add_log.
  - unfold epoch_block. do 5 eexists. split.
    + rewrite <- Hnb. exact Hb.
    + simpl. reflexivity.
Qed.

End Training.

Section Epochs.
Context {T : Torch}.
Implicit Types (w : World) (model : DataParallel) (opt : Optimizer).

Lemma range_nil (a b : Z) : b ≤ a → range a b = [].
Proof.
  intros H. unfold range. replace (Z.to_nat (b - a)) with 0%nat by lia.
  reflexivity.
Qed.

Lemma range_cons (a b : Z) : a < b → range a b = a :: range (a + 1) b.
Proof.
  intros H. unfold range.
  replace (Z.to_nat (b - a)) with (S (Z.to_nat (b - (a + 1)))) by lia.
  cbn [seq map]. f_equal; [lia |].
  rewrite <- seq_shift, map_map. apply map_ext. intros i. lia.
Qed.

Lemma range_snoc (a b : Z) : a ≤ b → range a (b + 1) = range a b ++ [b].
Proof.
  intros H. unfold range.
  replace (Z.to_nat (b + 1 - a)) with (Z.to_nat (b - a) + 1)%nat by lia.
  rewrite seq_app, map_app. cbn [seq map]. do 2 f_equal. lia.
Qed.

Lemma foldM_app {S A} (body : S → A → M S) (s : S) (l1 l2 : list A) w :
  foldM body s (l1 ++ l2) w = (s' ← foldM body s l1; foldM body s' l2) w.
Proof.
  revert s w. induction l1 as [| x l1 IH]; intros s w; [reflexivity |].
  cbn [app foldM]. rewrite !bind_unfold.
  destruct (body s x w) as [[e | s1] w1]; [reflexivity |].
  rewrite IH. reflexivity.
Qed.

(** [n] epochs numbered from [e]: as many epoch blocks, in order. *)
Lemma train_epochs_returns `{!TorchOk T} (train_set test_set : list Sample)
    (device : Device) (n : nat) (e : Z) model opt w :
  train_set ≠ [] → test_set ≠ [] →
  returns (foldM (train_epoch (train_loader_of train_set)
                    (test_loader_of test_set) device 100)
                 (model, opt) (range e (e + Z.of_nat n))) w
    (λ st w',
       Net_arch (module (fst st)) = Net_arch (module model) ∧
       opt_kind (snd st) = opt_kind opt ∧
       ∃ evs, emits w w' evs ∧
              epoch_blocks (opt_kind opt)
                (len_loader (train_loader_of train_set)) e n evs).
Proof.
  intros Htr Hte. revert e model opt w.
  induction n as [| n IH]; intros e model opt w.
  - rewrite range_nil by lia. apply returns_ret.
    split; [reflexivity |]. split; [reflexivity |].
    exists []. split; [apply emits_refl | constructor].
  - rewrite range_cons by lia.
    replace (e + Z.of_nat (S n)) with (e + 1 + Z.of_nat n) by lia.
    cbn [foldM]. apply returns_bind.
    eapply returns_mono; [apply train_epoch_returns; assumption |].
    intros [m1 o1] w1 (Ha1 & Hk1 & blk & He1 & Hb1). cbn [fst snd] in *.
    eapply returns_mono; [apply IH |].
    intros [m2 o2] w2 (Ha2 & Hk2 & evs & He2 & Hb2). cbn [fst snd] in *.
    split; [congruence |]. split; [congruence |].
    exists (blk ++ evs). split; [eapply emits_trans; eassumption |].
    rewrite Hk1 in Hb2. constructor; assumption.
Qed.

Lemma new_parameter_returns (shape : list Z)
    (init : Generator → Tensor * Generator) w :
  Forall (λ d, 0 ≤ d) shape →
  returns (new_parameter shape init) w
    (λ p w', p_shape p = shape ∧ emits w w' []).
Proof.
  intros Hs. unfold new_parameter.
  replace (forallb (Z.leb 0) shape) with true.
  - apply returns_bind. eapply returns_mono; [apply returns_draw |].
    intros t w' [_ ->]. apply returns_ret.
    split; [reflexivity | apply emits_set_rng].
  - symmetry. apply forallb_forall. intros d Hd.
    apply Z.leb_le. rewrite Forall_forall in Hs. apply Hs.
    apply list_elem_of_In. exact Hd.
Qed.

Lemma Conv2d_init_returns (cin cout k : Z) w :
  0 ≤ cin → 0 ≤ cout → 0 ≤ k →
  returns (Conv2d_init cin cout k) w
    (λ c w',
       in_channels c = cin ∧ out_channels c = cout ∧ kernel_size c = k ∧
       p_shape (conv_weight c) = [cout; cin; k; k] ∧
       p_shape (conv_bias c) = [cout] ∧ emits w w' []).
Proof.
  intros Hi Ho Hk. unfold Conv2d_init. apply returns_bind.
  eapply returns_mono; [apply new_parameter_returns; repeat constructor; lia |].
  intros pw w1 [Hw He1]. apply returns_bind.
  eapply returns_mono; [apply new_parameter_returns; repeat constructor; lia |].
  intros pb w2 [Hb He2]. apply returns_ret. simpl.
  repeat (split; [first [reflexivity | assumption] |]).
  apply (emits_trans _ _ _ [] [] He1 He2).
Qed.

Lemma Linear_init_returns (fin fout : Z) w :
  0 ≤ fin → 0 ≤ fout →
  returns (Linear_init fin fout) w
    (λ l w',
       in_features l = fin ∧ out_features l = fout ∧
       p_shape (lin_weight l) = [fout; fin] ∧
       p_shape (lin_bias l) = [fout] ∧ emits w w' []).
Proof.
  intros Hi Ho. unfold Linear_init. apply returns_bind.
  eapply returns_mono; [apply new_parameter_returns; repeat constructor; lia |].
  intros pw w1 [Hw He1]. apply returns_bind.
  eapply returns_mono; [apply new_parameter_returns; repeat constructor; lia |].
  intros pb w2 [Hb He2]. apply returns_ret. simpl.
  repeat (split; [first [reflexivity | assumption] |]).
  apply (emits_trans _ _ _ [] [] He1 He2).
Qed.

(** Building [Net(hidden, 5, 0.5)] succeeds for a non-negative width and
    yields the architecture [arch_of hidden], in training mode. *)
Lemma Net_init_returns (hidden : Z) w :
  0 ≤ hidden →
  returns (Net_init hidden 5 lit_0_5) w
    (λ n w', Net_arch n = arch_of hidden ∧ training n = true ∧ emits w w' []).
Proof.
  intros Hh. unfold Net_init. apply returns_bind.
  eapply returns_mono; [apply Conv2d_init_returns; lia |].
  intros c1 w1 (A1 & A2 & A3 & A4 & A5 & E1). apply returns_bind.
  eapply returns_mono; [apply Conv2d_init_returns; lia |].
  intros c2 w2 (B1 & B2 & B3 & B4 & B5 & E2). apply returns_bind.
  eapply returns_mono; [apply Linear_init_returns; lia |].
  intros f1 w3 (C1 & C2 & C3 & C4 & E3). apply returns_bind.
  eapply returns_mono; [apply Linear_init_returns; lia |].
  intros f2 w4 (D1 & D2 & D3 & D4 & E4). apply returns_ret.
  split; [| split; [reflexivity |]].
  - unfold Net_arch, arch_of, Net_named_parameters. simpl.
    rewrite A1, A2, A3, A4, A5, B1, B2, B3, B4, B5, C1, C2, C3, C4,
      D1, D2, D3, D4. reflexivity.
  - apply (emits_trans _ _ _ [] [] E1).
    apply (emits_trans _ _ _ [] [] E2).
    apply (emits_trans _ _ _ [] [] E3 E4).
Qed.

Lemma log_processes_returns (part : string) (dl : DataLoader) w :
  dataset dl ≠ [] →
  returns (log_processes part dl) w
    (λ _ w', w' = add_log (processes_line part (length (dataset dl))) w).
Proof.
  intros Hne. unfold log_processes. apply returns_bind.
  eapply returns_mono.
  { apply returns_py_div. apply Qc_of_nat_neq_0.
    destruct (dataset dl); [contradiction | simpl; lia]. }
  intros pct w1 [-> ->].
  eapply returns_mono; [apply returns_emit |].
  intros [] w1 ->. reflexivity.
Qed.

(** Building a loader over a partition with examples. *)
Lemma DataLoader_init_nonempty (ds : list Sample) (bs : nat) (sh : bool) w :
  ds ≠ [] →
  DataLoader_init ds bs sh w
  = (inr {| dataset := ds; batch_size := bs; shuffle := sh |}, w).
Proof.
  intros Hne. unfold DataLoader_init.
  destruct ds as [| e ds]; [contradiction |].
  cbn [length]. rewrite bool_decide_eq_false_2 by lia.
  rewrite andb_false_r. reflexivity.
Qed.

Lemma DataLoader_init_cases (ds : list Sample) (bs : nat) (sh : bool) w :
  (∃ msg, DataLoader_init ds bs sh w = (inl (ValueError msg), w)) ∨
  DataLoader_init ds bs sh w
  = (inr {| dataset := ds; batch_size := bs; shuffle := sh |}, w).
Proof.
  unfold DataLoader_init.
  destruct (sh && bool_decide (length ds = 0%nat)).
  - left. eexists. reflexivity.
  - right. reflexivity.
Qed.

(** The part of [train_model] before the loop. *)
Lemma fresh_model_returns (train_set test_set : list Sample) (hidden : Z) w :
  train_set ≠ [] → test_set ≠ [] → 0 ≤ hidden →
  returns (fresh_model train_set test_set hidden) w
    (λ model w',
       Net_arch (module model) = arch_of hidden ∧
       training (module model) = true ∧
       emits w w' [processes_line "train" (length train_set);
                   processes_line "test" (length test_set)]).
Proof.
  intros Htr Hte Hh. unfold fresh_model.
  apply returns_bind. eapply returns_eq; [reflexivity |].
  apply returns_bind.
  eapply returns_eq; [apply DataLoader_init_nonempty; exact Htr |].
  apply returns_bind.
  eapply returns_eq; [apply DataLoader_init_nonempty; exact Hte |].
  apply returns_bind.
  eapply returns_mono; [apply log_processes_returns; exact Htr |].
  intros [] w1 ->. apply returns_bind.
  eapply returns_mono; [apply log_processes_returns; exact Hte |].
  intros [] w2 ->. apply returns_bind.
  eapply returns_mono; [apply Net_init_returns; exact Hh |].
  intros net w3 (Ha & Ht & He). apply returns_ret. simpl.
  split; [exact Ha |]. split; [exact Ht |].
  eapply (emits_trans _ _ _ [] _ (emits_set_rng _ w)).
  eapply (emits_trans _ _ _ [_] _ (emits_add_log _ _)).
  eapply (emits_trans _ _ _ [_] [] (emits_add_log _ _)). exact He.
Qed.

Lemma opt_kind_optimizer_of (selector : string) model :
  opt_kind (optimizer_of selector model) = kind_of selector.
Proof.
  unfold optimizer_of, kind_of. destruct (decide (selector = "sgd"));
    reflexivity.
Qed.

(** [train_model] returns the model of the state its loop ends in. *)
Lemma train_model_unfold (train_set test_set : list Sample)
    (optimizer : string) (epochs hidden : Z) w :
  train_model train_set test_set optimizer epochs hidden w =
  (st ← train_model_state train_set test_set optimizer epochs hidden;
   mret (fst st)) w.
Proof.
  unfold train_model, train_model_state, fresh_model, to_device.
  fold device_of.
  rewrite !bind_unfold. cbn [torch_manual_seed].
  rewrite !bind_unfold.
  destruct (DataLoader_init_cases train_set 64 true
              (set_rng (manual_seed 42) w)) as [[msg ->] | ->];
    [reflexivity |].
  rewrite !bind_unfold.
  destruct (DataLoader_init_cases test_set 1000 true
              (set_rng (manual_seed 42) w)) as [[msg ->] | ->];
    [reflexivity |].
  fold (train_loader_of train_set). fold (test_loader_of test_set).
  rewrite !bind_unfold.
  destruct (log_processes "train" _ _) as [[e | []] w1]; [reflexivity |].
  rewrite !bind_unfold.
  destruct (log_processes "test" _ _) as [[e | []] w2]; [reflexivity |].
  rewrite !bind_unfold.
  destruct (Net_init hidden 5 lit_0_5 w2) as [[e | net] w3]; [reflexivity |].
  cbn [mret M_ret ret]. rewrite !bind_unfold.
  reflexivity.
Qed.

(** The state [train_model] ends in, for non-empty partitions and a
    positive width. *)
Lemma train_model_state_returns `{!TorchOk T}
    (train_set test_set : list Sample) (optimizer : string)
    (epochs hidden : Z) w :
  train_set ≠ [] → test_set ≠ [] → 0 < hidden →
  returns (train_model_state train_set test_set optimizer epochs hidden) w
    (λ st w',
       Net_arch (module (fst st)) = arch_of hidden ∧
       opt_kind (snd st) = kind_of optimizer ∧
       ∃ evs,
         emits w w' (processes_line "train" (length train_set)
                     :: processes_line "test" (length test_set) :: evs) ∧
         epoch_blocks (kind_of optimizer)
           (len_loader (train_loader_of train_set)) 1 (Z.to_nat epochs) evs).
Proof.
  intros Htr Hte Hh. unfold train_model_state. apply returns_bind.
  eapply returns_mono; [apply fresh_model_returns; [assumption .. | lia] |].
  intros model w1 (Ha & _ & He1).
  replace (range 1 (epochs + 1))
    with (range 1 (1 + Z.of_nat (Z.to_nat epochs))).
  2:{ destruct (Z_le_gt_dec 0 epochs).
      - f_equal. lia.
      - rewrite !range_nil by lia. reflexivity. }
  eapply returns_mono; [apply train_epochs_returns; assumption |].
  intros [m2 o2] w2 (Ha2 & Hk2 & evs & He2 & Hb). cbn [fst snd] in *.
  rewrite opt_kind_optimizer_of in Hk2, Hb.
  split; [congruence |]. split; [exact Hk2 |].
  exists evs. split; [| exact Hb].
  apply (emits_trans _ _ _ [_; _] evs He1 He2).
Qed.

End Epochs.

(** ** Runs as sequences of training steps *)

Section Steps.
Context {T : Torch}.
Implicit Types (w : World) (dl : DataLoader) (m model : DataParallel)
  (o opt : Optimizer) (k : OptimizerKind).

Lemma named_parameters_map_parameters (f : string → Param → Param) m :
  named_parameters (map_parameters f m)
  = map (λ e, (fst e, f (fst e) (snd e))) (named_parameters m).
Proof. reflexivity. Qed.

Lemma map_parameters_compose (f g : string → Param → Param) m :
  map_parameters f (map_parameters g m)
  = map_parameters (λ n p, f n (g n p)) m.
Proof. reflexivity. Qed.

Lemma map_parameters_replace (f : string → Param → Param) m :
  map_parameters f m = replace_parameters f m.
Proof. reflexivity. Qed.

Lemma map_parameters_ext (f g : string → Param → Param) m :
  (∀ n p, f n p = g n p) → map_parameters f m = map_parameters g m.
Proof.
  intros H. unfold map_parameters, Net_map_parameters, Conv2d_map, Linear_map.
  rewrite !H. reflexivity.
Qed.

Lemma foldl_map {A B C} (f : A → B → A) (g : C → B) (a : A) (l : list C) :
  foldl f a (map g l) = foldl (λ a x, f a (g x)) a l.
Proof.
  revert a. induction l as [| x l IH]; intros a; [reflexivity |].
  simpl. apply IH.
Qed.

Lemma foldl_pointwise {A B} (f g : A → B → A) (a : A) (l : list B) :
  (∀ a x, f a x = g a x) → foldl f a l = foldl g a l.
Proof.
  intros H. revert a. induction l as [| x l IH]; intros a; [reflexivity |].
  simpl. rewrite H. apply IH.
Qed.

(** Zeroing gradients leaves the values autograd differentiates at. *)
Lemma values_zero_grad o m :
  map (λ '(n, p), (n, p_data p)) (named_parameters (zero_grad o m))
  = map (λ e, (fst e, p_data (snd e))) (named_parameters m).
Proof. reflexivity. Qed.

(** [zero_grad], [backward] and [step], one after the other, are one
    training step. *)
Lemma step_train_step o m (batch : list Sample) (g0 : Generator) :
  step o (backward (zero_grad o m) batch g0)
  = (snd (train_step (opt_kind o) batch g0 (m, o)),
     fst (train_step (opt_kind o) batch g0 (m, o))).
Proof.
  unfold step, backward. rewrite values_zero_grad.
  unfold zero_grad, train_step. cbn [fst snd].
  rewrite !named_parameters_map_parameters, !map_parameters_compose.
  f_equal.
  - f_equal. rewrite !foldl_map. apply foldl_pointwise.
    intros st [n p]. cbn [fst snd].
    unfold update_param, batch_grad, set_grad, opt_update. cbn [p_grad p_data].
    destruct (accumulate _ _) as [g |]; [| reflexivity].
    cbn [fmap option_fmap option_map].
    destruct (opt_kind o) as [lr mom | lr].
    + destruct (sgd_update _ _ _ _ _). reflexivity.
    + destruct (adam_update _ _ _ _). reflexivity.
  - etransitivity; [| apply map_parameters_replace].
    apply map_parameters_ext. intros n p.
    unfold update_param, batch_grad, set_grad, set_data, opt_update.
    cbn [p_grad p_data p_shape].
    destruct (accumulate _ _) as [g |]; [| reflexivity].
    cbn [fmap option_fmap option_map].
    destruct (opt_kind o) as [lr mom | lr].
    + destruct (sgd_update _ _ _ _ _). reflexivity.
    + destruct (adam_update _ _ _ _). reflexivity.
Qed.

Lemma train_step_kind k (batch : list Sample) (g0 : Generator)
    (st : DataParallel * Optimizer) :
  opt_kind (snd (train_step k batch g0 st)) = k.
Proof. reflexivity. Qed.

Lemma train_step_arch k (batch : list Sample) (g0 : Generator)
    (st : DataParallel * Optimizer) :
  Net_arch (module (fst (train_step k batch g0 st)))
  = Net_arch (module (fst st)).
Proof.
  unfold train_step. cbn [fst].
  apply (map_parameters_arch _ (fst st)). reflexivity.
Qed.

Lemma train_step_training k (batch : list Sample) (g0 : Generator)
    (st : DataParallel * Optimizer) :
  training (module (fst (train_step k batch g0 st)))
  = training (module (fst st)).
Proof. reflexivity. Qed.

(** One batch of the loop is one training step on the examples at the
    batch's positions, differentiated from the generator state the batch
    starts in. *)
Lemma train_batch_step dl (device : Device) (epoch i : Z) model opt
    (idxs : list nat) w :
  Forall (λ j, (j < length (dataset dl))%nat) idxs →
  len_loader dl ≠ 0%nat →
  returns (train_batch dl device 100 epoch (model, opt) (i, idxs)) w
    (λ st w',
       st = train_step (opt_kind opt) (omap (λ j, dataset dl !! j) idxs)
              (rng w) (model, opt) ∧
       ∃ evs,
         emits w w' evs ∧
         ((i `mod` 100 ≠ 0 ∧ evs = [OptimizerStep epoch i (opt_kind opt)]) ∨
          (i `mod` 100 = 0 ∧
           ∃ output w1,
             forward (module model)
               (map fst (omap (λ j, dataset dl !! j) idxs)) w
             = (inr output, w1) ∧
             evs = [OptimizerStep epoch i (opt_kind opt);
                    LogTrain epoch
                      (i * Z.of_nat (length (omap (λ j, dataset dl !! j) idxs)))
                      (len_sampler dl)
                      (lit_100_0 * Qc_of_Z i / Qc_of_nat (len_loader dl))%Qc
                      (nll_loss output
                         (map snd (omap (λ j, dataset dl !! j) idxs)))]))).
Proof.
  intros Hv Hlen. unfold train_batch.
  apply returns_bind.
  eapply returns_eq; [apply fetch_valid; exact Hv |].
  apply returns_bind. eapply returns_eq; [reflexivity |].
  apply returns_bind. unfold to_device, DataParallel_forward.
  destruct (forward_returns (module model)
              (map fst (omap (λ j, dataset dl !! j) idxs)) w)
    as (output & w1 & Hfw & He1).
  eapply returns_eq; [exact Hfw |].
  rewrite step_train_step.
  set (ts := train_step (opt_kind opt) (omap (λ j, dataset dl !! j) idxs)
               (rng w) (model, opt)).
  cbn iota beta.
  apply returns_bind. eapply returns_mono; [apply returns_emit |].
  intros [] w2 ->.
  change (opt_kind (snd ts)) with (opt_kind opt).
  pose proof (emits_trans _ _ _ _ _ He1 (emits_add_log
    (OptimizerStep epoch i (opt_kind opt)) w1)) as He2.
  rewrite length_map.
  apply returns_bind.
  destruct (decide (i `mod` 100 = 0)) as [Hmod | Hmod].
  - apply returns_bind.
    eapply returns_mono.
    { apply returns_py_div. apply Qc_of_nat_neq_0. exact Hlen. }
    intros pct w3 [-> ->].
    eapply returns_mono; [apply returns_emit |].
    intros [] w3 ->. apply returns_ret.
    split; [destruct ts; reflexivity |].
    eexists. split.
    + apply (emits_trans _ _ _ _ _ He2 (emits_add_log _ _)).
    + right. split; [exact Hmod |]. exists output, w1.
      split; [exact Hfw | reflexivity].
  - apply returns_ret. apply returns_ret.
    split; [destruct ts; reflexivity |].
    eexists. split; [exact He2 |].
    left. split; [exact Hmod | reflexivity].
Qed.

(** The batches of one pass, numbered from [i], as a [batch_run]. *)
Lemma train_batches_run dl (device : Device) (epoch : Z)
    (batches : list (list nat)) (i : Z) model opt w :
  Forall (Forall (λ j, (j < length (dataset dl))%nat)) batches →
  len_loader dl ≠ 0%nat →
  returns (foldM (train_batch dl device 100 epoch) (model, opt)
                 (imap (λ j x, (i + Z.of_nat j, x)) batches)) w
    (λ st w',
       ∃ evs, emits w w' evs ∧
              batch_run epoch (opt_kind opt) (len_sampler dl) (len_loader dl)
                (model, opt) i
                (map (omap (λ j, dataset dl !! j)) batches) evs st).
Proof.
  intros Hv Hlen. revert i model opt w.
  induction Hv as [| idxs batches Hv1 _ IH]; intros i model opt w.
  - apply returns_ret. exists []. split; [apply emits_refl | constructor].
  - rewrite imap_cons. cbn [foldM]. apply returns_bind.
    replace (i + Z.of_nat 0) with i by lia.
    eapply returns_mono; [apply train_batch_step; eassumption |].
    intros [m1 o1] w1 (Hst & evs1 & He1 & Hcase).
    rewrite (imap_ext _ (λ j x, (i + 1 + Z.of_nat j, x)))
      by (intros; simpl; f_equal; lia).
    eapply returns_mono; [apply IH |].
    intros st2 w2 (evs2 & He2 & Hb2).
    assert (opt_kind o1 = opt_kind opt) as Hk.
    { apply (f_equal (λ s, opt_kind (snd s))) in Hst. exact Hst. }
    rewrite Hk, Hst in Hb2.
    exists (evs1 ++ evs2). split; [eapply emits_trans; eassumption |].
    cbn [map].
    destruct Hcase as [[Hmod ->] | (Hmod & output & w' & Hfw & ->)].
    + apply (batch_run_quiet _ _ _ _ _ _ _ (rng w)); assumption.
    + apply (batch_run_logged _ _ _ _ _ _ _ w output w'); assumption.
Qed.

Lemma chunks_bounds {A} (fuel n : nat) (l : list A) :
  (0 < n)%nat →
  Forall (λ c, c ≠ [] ∧ (length c ≤ n)%nat) (chunks fuel n l).
Proof.
  intros Hn. revert l. induction fuel as [| fuel IH]; intros l.
  - constructor.
  - destruct l as [| x l]; [constructor |].
    cbn [chunks]. constructor; [| apply IH].
    split.
    + destruct n; [lia |]. discriminate.
    + rewrite length_take. lia.
Qed.

Lemma length_omap_lookup (ds : list Sample) (idxs : list nat) :
  Forall (λ j, (j < length ds)%nat) idxs →
  length (omap (λ j, ds !! j) idxs) = length idxs.
Proof.
  induction 1 as [| j idxs Hj _ IH]; [reflexivity |].
  apply lookup_lt_is_Some_2 in Hj. destruct Hj as [e He].
  cbn [omap list_omap]. rewrite He. cbn [length]. f_equal. exact IH.
Qed.

Lemma concat_map_omap {A B} (f : A → option B) (ls : list (list A)) :
  concat (map (omap f) ls) = omap f (concat ls).
Proof.
  induction ls as [| l ls IH]; [reflexivity |].
  cbn [map concat]. rewrite omap_app, IH. reflexivity.
Qed.

(** The batches an iteration of the train loader fetches: together a
    permutation of the partition, none empty, none above the batch
    size. *)
Lemma DataLoader_iter_batches `{!TorchOk T} dl w :
  (0 < batch_size dl)%nat →
  returns (DataLoader_iter dl) w
    (λ batches w',
       emits w w' [] ∧
       Forall (Forall (λ j, (j < length (dataset dl))%nat)) batches ∧
       concat (map (omap (λ j, dataset dl !! j)) batches) ≡ₚ dataset dl ∧
       length (map (omap (λ j, dataset dl !! j)) batches) = len_loader dl ∧
       Forall (λ b, b ≠ [] ∧ (length b ≤ batch_size dl)%nat)
         (map (omap (λ j, dataset dl !! j)) batches)).
Proof.
  intros Hb.
  assert (returns (DataLoader_iter dl) w
            (λ batches w',
               emits w w' [] ∧
               concat batches ≡ₚ seq 0 (length (dataset dl)) ∧
               length batches = len_loader dl ∧
               Forall (λ c, c ≠ [] ∧ (length c ≤ batch_size dl)%nat) batches))
    as Hiter.
  { destruct (DataLoader_iter_returns dl w Hb)
      as (batches & w' & Hrun & He & Hperm & Hnb).
    exists batches, w'. split; [exact Hrun |].
    split; [exact He |]. split; [exact Hperm |]. split; [exact Hnb |].
    unfold DataLoader_iter in Hrun. apply bind_inv in Hrun.
    destruct Hrun as (idx & w1 & _ & Hret). inversion Hret; subst.
    apply chunks_bounds. exact Hb. }
  eapply returns_mono; [exact Hiter |].
  intros batches w' (He & Hperm & Hnb & Hbound).
  pose proof (Forall_concat_inv _ _ (Permutation_seq_bound _ _ Hperm)) as Hval.
  split; [exact He |]. split; [exact Hval |]. split; [| split].
  - rewrite concat_map_omap. apply omap_lookup_Permutation. exact Hperm.
  - rewrite length_map. exact Hnb.
  - apply Forall_forall. intros b Hin.
    apply list_elem_of_fmap in Hin. destruct Hin as (idxs & -> & Hin).
    rewrite Forall_forall in Hbound, Hval.
    specialize (Hbound _ Hin). specialize (Hval _ Hin).
    destruct Hbound as [Hne Hle].
    rewrite <- (length_omap_lookup _ _ Hval) in Hle.
    split; [| exact Hle].
    intros Heq. apply (f_equal length) in Heq.
    rewrite (length_omap_lookup _ _ Hval) in Heq.
    destruct idxs; [contradiction | discriminate].
Qed.

(** One epoch of the loop is an [epoch_run]. *)
Lemma train_epoch_run `{!TorchOk T} (train_set test_set : list Sample)
    (device : Device) (epoch : Z) model opt w :
  train_set ≠ [] → test_set ≠ [] →
  returns (train_epoch (train_loader_of train_set) (test_loader_of test_set)
             device 100 (model, opt) epoch) w
    (λ st w',
       ∃ blk, emits w w' blk ∧
              epoch_run (opt_kind opt) train_set test_set (model, opt)
                epoch blk st).
Proof.
  intros Htr Hte. unfold train_epoch.
  assert (len_loader (train_loader_of train_set) ≠ 0%nat) as Hlen.
  { apply len_loader_neq_0; [exact Htr | simpl; lia]. }
  apply returns_bind. eapply returns_mono; [apply returns_emit |].
  intros [] w1 ->. apply returns_bind.
  eapply returns_mono; [apply DataLoader_iter_batches; simpl; lia |].
  intros batches w2 (He2 & Hval & Hperm & Hnb & Hbound). apply returns_bind.
  eapply returns_mono.
  { unfold enumerate. apply train_batches_run; [exact Hval | exact Hlen]. }
  intros [m1 o1] w3 (evs & He3 & Hb).
  apply returns_bind.
  eapply returns_mono.
  { apply log_performance_returns; [exact Htr | simpl; lia]. }
  intros m2 w4 (-> & g4 & ->). apply returns_bind.
  eapply returns_mono.
  { apply log_performance_returns; [exact Hte | simpl; lia]. }
  intros m3 w5 (-> & g5 & ->). apply returns_ret.
  eexists. split.
  - eapply emits_trans; [apply emits_add_log |].
    eapply emits_trans; [exact He2 |].
    eapply emits_trans; [exact He3 |].
    eapply emits_trans; [apply emits_set_rng |].
    eapply emits_trans; [apply emits_add_log |].
    eapply emits_trans; [apply emits_set_rng |].
    apply emits_add_log.
  - unfold epoch_run.
    exists (map (omap (λ j, dataset (train_loader_of train_set) !! j)) batches),
      evs, (m1, o1).
    split; [exact Hperm |]. split; [exact Hnb |]. split; [exact Hbound |].
    split; [exact Hb |]. split; reflexivity.
Qed.

(** The steps of a run keep the optimizer's kind and the architecture. *)
Lemma batch_run_kind epoch k (total nb : nat) st i
    (batches : list (list Sample)) evs st' :
  batch_run epoch k total nb st i batches evs st' →
  opt_kind (snd st) = k → opt_kind (snd st') = k.
Proof.
  induction 1 as [| ? ? ? ? ? ? ? _ _ IH | ? ? ? ? ? ? ? ? ? _ _ _ IH];
    intros Hk.
  - exact Hk.
  - apply IH. reflexivity.
  - apply IH. reflexivity.
Qed.

Lemma batch_run_arch epoch k (total nb : nat) st i
    (batches : list (list Sample)) evs st' :
  batch_run epoch k total nb st i batches evs st' →
  Net_arch (module (fst st')) = Net_arch (module (fst st)).
Proof.
  induction 1 as [| ? ? ? ? ? ? ? _ _ IH | ? ? ? ? ? ? ? ? ? _ _ _ IH].
  - reflexivity.
  - rewrite IH. apply train_step_arch.
  - rewrite IH. apply train_step_arch.
Qed.

Lemma epoch_run_kind k (train_set test_set : list Sample) st epoch blk st' :
  epoch_run k train_set test_set st epoch blk st' →
  opt_kind (snd st) = k → opt_kind (snd st') = k.
Proof.
  intros (bs & evs & st1 & _ & _ & _ & Hrun & _ & ->) Hk. cbn [snd].
  apply (batch_run_kind _ _ _ _ _ _ _ _ _ Hrun). exact Hk.
Qed.

Lemma epoch_run_arch k (train_set test_set : list Sample) st epoch blk st' :
  epoch_run k train_set test_set st epoch blk st' →
  Net_arch (module (fst st')) = Net_arch (module (fst st)).
Proof.
  intros (bs & evs & st1 & _ & _ & _ & Hrun & _ & ->). cbn [fst].
  apply (batch_run_arch _ _ _ _ _ _ _ _ _) in Hrun. exact Hrun.
Qed.

(** [n] epochs of the loop, numbered from [e], are an [epochs_run]. *)
Lemma train_epochs_run `{!TorchOk T} (train_set test_set : list Sample)
    (device : Device) (n : nat) (e : Z) model opt w :
  train_set ≠ [] → test_set ≠ [] →
  returns (foldM (train_epoch (train_loader_of train_set)
                    (test_loader_of test_set) device 100)
                 (model, opt) (range e (e + Z.of_nat n))) w
    (λ st w',
       ∃ evs, emits w w' evs ∧
              epochs_run (opt_kind opt) train_set test_set (model, opt)
                e n evs st).
Proof.
  intros Htr Hte. revert e model opt w.
  induction n as [| n IH]; intros e model opt w.
  - rewrite range_nil by lia. apply returns_ret.
    exists []. split; [apply emits_refl | constructor].
  - rewrite range_cons by lia.
    replace (e + Z.of_nat (S n)) with (e + 1 + Z.of_nat n) by lia.
    cbn [foldM]. apply returns_bind.
    eapply returns_mono; [apply train_epoch_run; assumption |].
    intros [m1 o1] w1 (blk & He1 & Hb1).
    eapply returns_mono; [apply IH |].
    intros st2 w2 (evs & He2 & Hb2).
    exists (blk ++ evs). split; [eapply emits_trans; eassumption |].
    assert (opt_kind o1 = opt_kind opt) as Hk.
    { apply (epoch_run_kind _ _ _ _ _ _ _ Hb1). reflexivity. }
    rewrite Hk in Hb2. econstructor; eassumption.
Qed.

End Steps.

(** ** The command line *)

Section CommandLine.
Context {T : Torch}.
Implicit Types (w : World) (ns : RawArgs).

Lemma list_pair_ind {A} (P : list A → Prop) :
  P [] → (∀ x, P [x]) → (∀ x y l, P l → P (x :: y :: l)) → ∀ l, P l.
Proof.
  intros H0 H1 H2 l.
  assert (P l ∧ ∀ x, P (x :: l)) as [H _]; [| exact H].
  induction l as [| y l [IH1 IH2]]; split; auto.
Qed.

Lemma arg_int_inv (v : string) w (n : Z) w' :
  arg_int v w = (inr n, w') → w' = w ∧ py_int v = Some n.
Proof.
  unfold arg_int. destruct (py_int v); intros H; inversion H; auto.
Qed.

(** Storing one option leaves every other destination as it was. *)
Lemma store_arg_inv (name value : string) ns w ns' w' :
  store_arg name value ns w = (inr ns', w') →
  w' = w ∧
  (name ≠ "--epochs" → raw_epochs ns' = raw_epochs ns) ∧
  (name ≠ "--optimizer" → raw_optimizer ns' = raw_optimizer ns) ∧
  (name ≠ "--hidden_channels" →
   raw_hidden_channels ns' = raw_hidden_channels ns).
Proof.
  unfold store_arg. intros H.
  repeat (case_decide; [subst name |]); try discriminate;
    match goal with
    | E : _ = (inr _, _) |- _ =>
        first [ apply bind_inv in E; destruct E as (n & w1 & E1 & E2);
                apply arg_int_inv in E1; destruct E1 as [-> _];
                inversion E2; subst; clear E2
              | inversion E; subst; clear E ]
    end;
    simpl; repeat split; intros; first [reflexivity | congruence].
Qed.

Lemma parse_pairs_inv (argv : list string) :
  ∀ ns w ns' w',
    parse_pairs argv ns w = (inr ns', w') →
    w' = w ∧
    ("--epochs" ∉ argv → raw_epochs ns' = raw_epochs ns) ∧
    ("--optimizer" ∉ argv → raw_optimizer ns' = raw_optimizer ns) ∧
    ("--hidden_channels" ∉ argv →
     raw_hidden_channels ns' = raw_hidden_channels ns).
Proof.
  induction argv as [| x | name value argv IH] using list_pair_ind;
    intros ns w ns' w' H.
  - inversion H; subst. auto.
  - discriminate.
  - cbn [parse_pairs] in H. apply bind_inv in H.
    destruct H as (ns1 & w1 & H1 & H2).
    apply store_arg_inv in H1. destruct H1 as (-> & E1 & E2 & E3).
    apply IH in H2. destruct H2 as (-> & F1 & F2 & F3).
    split; [reflexivity |].
    repeat split; intros Hn; rewrite !not_elem_of_cons in Hn;
      destruct Hn as (Hn1 & Hn2 & Hn3).
    + rewrite F1, E1; auto.
    + rewrite F2, E2; auto.
    + rewrite F3, E3; auto.
Qed.

End CommandLine.

(** ** Complete runs *)

Section Runs.
Context {T : Torch}.
Implicit Types (w : World) (k : OptimizerKind).

Lemma train_model_returns `{!TorchOk T} (train_set test_set : list Sample)
    (optimizer : string) (epochs hidden : Z) w :
  train_set ≠ [] → test_set ≠ [] → 0 < hidden →
  returns (train_model train_set test_set optimizer epochs hidden) w
    (λ model w',
       Net_arch (module model) = arch_of hidden ∧
       ∃ evs,
         emits w w' (processes_line "train" (length train_set)
                     :: processes_line "test" (length test_set) :: evs) ∧
         epoch_blocks (kind_of optimizer)
           (len_loader (train_loader_of train_set)) 1 (Z.to_nat epochs) evs).
Proof.
  intros Htr Hte Hh.
  destruct (train_model_state_returns train_set test_set optimizer epochs
              hidden w Htr Hte Hh) as ([m o] & w' & Hrun & Ha & _ & Hev).
  exists m, w'. split; [| split; assumption].
  rewrite train_model_unfold, (bind_inr _ _ _ _ _ Hrun). reflexivity.
Qed.

(** A complete run, for any selector: the final state, its architecture
    and optimizer kind, and the kind of every recorded step. *)
Lemma train_run `{!TorchOk T} (train_set test_set : list Sample)
    (optimizer : string) (epochs hidden : Z) w :
  train_set ≠ [] → test_set ≠ [] → 0 < hidden →
  ∃ st w' evs,
    train_model_state train_set test_set optimizer epochs hidden w
    = (inr st, w') ∧
    train_model train_set test_set optimizer epochs hidden w
    = (inr (fst st), w') ∧
    Net_arch (module (fst st)) = arch_of hidden ∧
    opt_kind (snd st) = kind_of optimizer ∧
    emits w w' (processes_line "train" (length train_set)
                :: processes_line "test" (length test_set) :: evs) ∧
    epoch_blocks (kind_of optimizer)
      (len_loader (train_loader_of train_set)) 1 (Z.to_nat epochs) evs.
Proof.
  intros Htr Hte Hh.
  destruct (train_model_state_returns train_set test_set optimizer epochs
              hidden w Htr Hte Hh)
    as (st & w' & Hrun & Ha & Hk & evs & He & Hb).
  exists st, w', evs. split; [exact Hrun |].
  split; [| auto].
  rewrite train_model_unfold, (bind_inr _ _ _ _ _ Hrun). reflexivity.
Qed.

(** One more epoch is one more [train_epoch] on the state reached. *)
Lemma train_model_state_succ (train_set test_set : list Sample)
    (optimizer : string) (n hidden : Z) w :
  0 ≤ n →
  train_model_state train_set test_set optimizer (n + 1) hidden w =
  (st ← train_model_state train_set test_set optimizer n hidden;
   train_epoch (train_loader_of train_set) (test_loader_of test_set)
     device_of 100 st (n + 1)) w.
Proof.
  intros Hn. unfold train_model_state. rewrite !bind_unfold.
  destruct (fresh_model train_set test_set hidden w) as [[e | model] w1];
    [reflexivity |].
  rewrite (range_snoc 1 (n + 1)) by lia. rewrite foldM_app, bind_unfold.
  destruct (foldM _ _ (range 1 (n + 1)) w1) as [[e | st] w2]; [reflexivity |].
  cbn [foldM]. rewrite bind_unfold.
  destruct (train_epoch _ _ _ _ st (n + 1) w2) as [[e | st'] w3]; reflexivity.
Qed.

(** Over non-empty partitions, the part of [train_model] before the loop
    is the seeding, the two "Processes" lines and the construction of the
    network. *)
Lemma fresh_model_nonempty (train_set test_set : list Sample) (hidden : Z) w :
  train_set ≠ [] → test_set ≠ [] →
  fresh_model train_set test_set hidden w
  = (net ← Net_init hidden 5 lit_0_5; mret {| module := net |})
      (add_log (processes_line "test" (length test_set))
         (add_log (processes_line "train" (length train_set))
            (set_rng (manual_seed 42) w))).
Proof.
  intros Htr Hte. unfold fresh_model.
  rewrite bind_unfold. cbn [torch_manual_seed]. rewrite bind_unfold.
  rewrite (DataLoader_init_nonempty _ _ _ _ Htr), bind_unfold.
  rewrite (DataLoader_init_nonempty _ _ _ _ Hte), bind_unfold.
  fold (train_loader_of train_set). fold (test_loader_of test_set).
  destruct (log_processes_returns "train" (train_loader_of train_set)
              (set_rng (manual_seed 42) w) Htr) as ([] & w1 & R1 & ->).
  rewrite R1, bind_unfold.
  destruct (log_processes_returns "test" (test_loader_of test_set)
              (add_log (processes_line "train"
                          (length (dataset (train_loader_of train_set))))
                 (set_rng (manual_seed 42) w)) Hte) as ([] & w2 & R2 & ->).
  rewrite R2. reflexivity.
Qed.

(** A complete run as a sequence of training steps: the state the loop
    ends in is reached from the network built after the two "Processes"
    lines and the optimizer built for the selector, with no state yet, by
    one [epoch_run] per epoch. *)
Lemma train_run_steps `{!TorchOk T} (train_set test_set : list Sample)
    (optimizer : string) (epochs hidden : Z) w :
  train_set ≠ [] → test_set ≠ [] → 0 < hidden →
  ∃ net w0 st w' evs,
    Net_init hidden 5 lit_0_5
      (add_log (processes_line "test" (length test_set))
         (add_log (processes_line "train" (length train_set))
            (set_rng (manual_seed 42) w)))
    = (inr net, w0) ∧
    Net_arch net = arch_of hidden ∧
    train_model_state train_set test_set optimizer epochs hidden w
    = (inr st, w') ∧
    train_model train_set test_set optimizer epochs hidden w
    = (inr (fst st), w') ∧
    log w' = log w ++ processes_line "train" (length train_set)
                      :: processes_line "test" (length test_set) :: evs ∧
    epochs_run (opt_kind (optimizer_of optimizer {| module := net |}))
      train_set test_set
      ({| module := net |}, optimizer_of optimizer {| module := net |})
      1 (Z.to_nat epochs) evs st.
Proof.
  intros Htr Hte Hh.
  destruct (Net_init_returns hidden
              (add_log (processes_line "test" (length test_set))
                 (add_log (processes_line "train" (length train_set))
                    (set_rng (manual_seed 42) w))) ltac:(lia))
    as (net & w0 & Hinit & Ha & _ & He0).
  assert (fresh_model train_set test_set hidden w
          = (inr {| module := net |}, w0)) as Hfresh.
  { rewrite (fresh_model_nonempty _ _ _ _ Htr Hte).
    rewrite (bind_inr _ _ _ _ _ Hinit). reflexivity. }
  assert (range 1 (epochs + 1) = range 1 (1 + Z.of_nat (Z.to_nat epochs)))
    as Hrange.
  { destruct (Z_le_gt_dec 0 epochs).
    - f_equal. lia.
    - rewrite !range_nil by lia. reflexivity. }
  destruct (train_epochs_run train_set test_set device_of (Z.to_nat epochs) 1
              {| module := net |} (optimizer_of optimizer {| module := net |})
              w0 Htr Hte)
    as (st & w' & Hloop & evs & He & Hrun).
  assert (train_model_state train_set test_set optimizer epochs hidden w
          = (inr st, w')) as Hstate.
  { unfold train_model_state. rewrite (bind_inr _ _ _ _ _ Hfresh), Hrange.
    exact Hloop. }
  exists net, w0, st, w', evs.
  split; [exact Hinit |]. split; [exact Ha |].
  split; [exact Hstate |]. split; [| split; [| exact Hrun]].
  - rewrite train_model_unfold, (bind_inr _ _ _ _ _ Hstate). reflexivity.
  - rewrite (emits_log _ _ _ He), (emits_log _ _ _ He0).
    cbn [log add_log set_rng]. rewrite app_nil_r, <- !app_assoc.
    reflexivity.
Qed.

Lemma optimizer_of_sgd (model : DataParallel) :
  optimizer_of "sgd" model
  = {| opt_kind := SGD (Q2Qc (1 # 100)) (Q2Qc (1 # 2)); opt_state := ∅ |}.
Proof. reflexivity. Qed.

Lemma optimizer_of_other (selector : string) (model : DataParallel) :
  selector ≠ "sgd" →
  optimizer_of selector model
  = {| opt_kind := Adam (Q2Qc (1 # 100)); opt_state := ∅ |}.
Proof.
  intros Hne. unfold optimizer_of.
  destruct (decide (selector = "sgd")); [contradiction | reflexivity].
Qed.

(** Saving into a directory that exists. *)
Lemma save_model_returns (model : DataParallel) (model_dir : string) w :
  model_dir_exists w model_dir = true →
  save_model model model_dir w
  = (inr tt,
     write_file (os_path_join model_dir "model.pth") (state_dict model)
       (add_log LogSaving w)).
Proof.
  intros Hdir. unfold save_model, torch_save, to_device.
  rewrite bind_unfold. cbn [emit].
  unfold model_dir_exists in Hdir. cbn [isdir add_log]. rewrite Hdir.
  reflexivity.
Qed.

Lemma model_dir_exists_emits w w' evs (model_dir : string) :
  emits w w' evs → model_dir_exists w' model_dir = model_dir_exists w model_dir.
Proof.
  intros He. unfold model_dir_exists. rewrite (emits_isdir _ _ _ He).
  reflexivity.
Qed.

End Runs.

Lemma os_path_join_model_pth (model_dir : string) :
  ∃ sep, (sep = "" ∨ sep = "/") ∧
         os_path_join model_dir "model.pth" = model_dir +:+ sep +:+ "model.pth".
Proof.
  unfold os_path_join. cbn [String.prefix].
  destruct (decide (model_dir = "")) as [-> | _].
  - exists "". split; [auto | reflexivity].
  - destruct (String.eqb _ "/").
    + exists "". split; [auto | reflexivity].
    + exists "/". split; [auto | reflexivity].
Qed.

(** The small instance satisfies the generator's law. *)
Lemma toy_torch_ok : TorchOk toy_torch.
Proof.
  constructor. intros n g. simpl. symmetry. apply Permutation_rev.
Qed.

(** * The claims *)

(** C1 (as amended). After [train_model] completes (non-empty partitions,
    a width [0 < hidden_channels]) and [save_model] is called with the
    model and a directory that exists, one file is written, [model.pth]
    inside that directory, and no other path changes, during training or
    saving.  The mapping it holds has exactly 8 tensors, the weight and
    the bias of each of [conv1], [conv2], [fc1] and [fc2], under the names
    [module.conv1.weight] ... [module.fc2.bias], with the shapes of the
    architecture for that [hidden_channels]. *)
Theorem save_model_after_training {T : Torch} `{!TorchOk T}
    (train_set test_set : list Sample) (optimizer : string)
    (epochs hidden_channels : Z) (model_dir : string) (w : World) :
  train_set ≠ [] → test_set ≠ [] → 0 < hidden_channels →
  model_dir_exists w model_dir = true →
  ∃ model w1 w2,
    train_model train_set test_set optimizer epochs hidden_channels w
    = (inr model, w1) ∧
    save_model model model_dir w1 = (inr tt, w2) ∧
    fs w1 = fs w ∧
    fs w2 = <[os_path_join model_dir "model.pth" := state_dict model]> (fs w) ∧
    (∃ sep, (sep = "" ∨ sep = "/") ∧
            os_path_join model_dir "model.pth"
            = model_dir +:+ sep +:+ "model.pth") ∧
    entry_shapes (state_dict model) = saved_shapes hidden_channels ∧
    length (state_dict model) = 8%nat.
Proof.
  intros Htr Hte Hh Hdir.
  destruct (train_model_returns train_set test_set optimizer epochs
              hidden_channels w Htr Hte ltac:(lia))
    as (model & w1 & Hrun & Ha & evs & He & _).
  exists model, w1, (write_file (os_path_join model_dir "model.pth")
                       (state_dict model) (add_log LogSaving w1)).
  split; [exact Hrun |].
  split.
  { apply save_model_returns.
    rewrite (model_dir_exists_emits _ _ _ _ He). exact Hdir. }
  split; [exact (emits_fs _ _ _ He) |].
  split; [simpl; rewrite (emits_fs _ _ _ He); reflexivity |].
  split; [apply os_path_join_model_pth |].
  split; [apply state_dict_shapes; exact Ha | reflexivity].
Qed.

(** The amended C1 on a run: three examples, one epoch, width 5. *)
Lemma save_model_after_training_witness :
  ∃ model w1 w2,
    @train_model toy_torch toy_examples toy_examples "adam" 1 5 toy_world
    = (inr model, w1) ∧
    save_model model "/opt/ml/model" w1 = (inr tt, w2) ∧
    entry_shapes (state_dict model) = saved_shapes 5.
Proof.
  destruct (@save_model_after_training toy_torch toy_torch_ok toy_examples
              toy_examples "adam" 1 5 "/opt/ml/model" toy_world)
    as (model & w1 & w2 & H1 & H2 & _ & _ & _ & H3 & _).
  - discriminate.
  - discriminate.
  - lia.
  - reflexivity.
  - exists model, w1, w2. auto.
Defined.

(** C1, as stated, fails: one epoch on three examples with
    [hidden_channels = 5] and ["adam"], then [save_model]: the file
    [/opt/ml/model/model.pth] holds 8 named tensors, not 6. *)
Lemma saved_state_dict_not_six :
  ∃ model w1 w2 sd,
    @train_model toy_torch toy_examples toy_examples "adam" 1 5 toy_world
    = (inr model, w1) ∧
    save_model model "/opt/ml/model" w1 = (inr tt, w2) ∧
    fs w2 !! "/opt/ml/model/model.pth" = Some sd ∧
    map fst sd =
      ["module.conv1.weight"; "module.conv1.bias";
       "module.conv2.weight"; "module.conv2.bias";
       "module.fc1.weight"; "module.fc1.bias";
       "module.fc2.weight"; "module.fc2.bias"] ∧
    length sd ≠ 6%nat.
Proof.
  destruct (@train_model_returns toy_torch toy_torch_ok toy_examples
              toy_examples "adam" 1 5 toy_world)
    as (model & w1 & Hrun & Ha & evs & He & _);
    [discriminate | discriminate | lia |].
  exists model, w1,
    (write_file "/opt/ml/model/model.pth" (state_dict model)
       (add_log LogSaving w1)), (state_dict model).
  split; [exact Hrun |].
  split.
  { apply (save_model_returns model "/opt/ml/model").
    rewrite (model_dir_exists_emits _ _ _ _ He). reflexivity. }
  split; [apply lookup_insert_eq |].
  split; [| simpl; lia].
  apply state_dict_shapes in Ha.
  apply (f_equal (map fst)) in Ha. unfold entry_shapes in Ha.
  rewrite map_map in Ha. exact Ha.
Qed.

(** C2. [log_performance] reports metrics of the whole partition: for a
    loader over a partition of [M > 0] examples (any batch size, shuffled
    or not), the call returns and logs exactly one line, whose loss is the
    sum of the negative log-likelihoods of all [M] examples divided by [M]
    and whose accuracy is 100 times the number of examples whose arg-max
    class is the label, divided by [M]; each example is scored by the
    network's own forward pass in evaluation mode. *)
Theorem log_performance_full_partition {T : Torch} `{!TorchOk T}
    (model : DataParallel) (data_loader : DataLoader) (device : Device) (epoch : Z)
    (metric_type : string) (w : World) :
  dataset data_loader ≠ [] → (0 < batch_size data_loader)%nat →
  (∃ g,
     log_performance model data_loader device epoch metric_type w =
     (inr (eval model),
      add_log
        (LogPerformance metric_type
           (sum_Qc (map (λ e, nll (forward_eval_row (module model) (fst e))
                                  (snd e))
                        (dataset data_loader))
            / Qc_of_nat (length (dataset data_loader)))%Qc
           (lit_100_0
            * Qc_of_nat
                (length
                   (filter (λ e, argmax (forward_eval_row (module model) (fst e))
                                 = snd e)
                           (dataset data_loader)))
            / Qc_of_nat (length (dataset data_loader)))%Qc)
        (set_rng g w))) ∧
  (∀ (x : list Tensor) w0,
     DataParallel_forward (eval model) x w0 =
     (inr (map (forward_eval_row (module model)) x), w0)).
Proof.
  intros Hne Hbs. split.
  - destruct (log_performance_returns model data_loader device epoch
                metric_type w Hne Hbs) as (m' & w' & Hrun & -> & g & ->).
    exists g. exact Hrun.
  - intros x w0. unfold DataParallel_forward.
    rewrite forward_eval by reflexivity. reflexivity.
Qed.

(** C2 on a loader over three examples in batches of two. *)
Lemma log_performance_full_partition_witness :
  toy_examples ≠ [] ∧ (0 < 2)%nat ∧
  ∃ g,
    fst (@log_performance toy_torch toy_model toy_loader cpu 1 "Test" toy_world)
    = inr (eval toy_model) ∧
    log (snd (@log_performance toy_torch toy_model toy_loader cpu 1 "Test"
                toy_world))
    = [LogPerformance "Test"
         (sum_Qc (map (λ e, nll (forward_eval_row (module toy_model) (fst e))
                                (snd e)) toy_examples)
          / Qc_of_nat 3)%Qc
         (lit_100_0
          * Qc_of_nat
              (length
                 (filter (λ e, argmax (forward_eval_row (module toy_model) (fst e))
                               = snd e) toy_examples))
          / Qc_of_nat 3)%Qc] ∧
    rng (snd (@log_performance toy_torch toy_model toy_loader cpu 1 "Test"
                toy_world)) = g.
Proof.
  split; [discriminate |]. split; [lia |].
  destruct (@log_performance_full_partition toy_torch toy_torch_ok toy_model
              toy_loader cpu 1 "Test" toy_world) as [[g Hg] _].
  - discriminate.
  - simpl. lia.
  - exists g. rewrite Hg. simpl. auto.
Defined.

(** C3. If one of the three container variables [SM_MODEL_DIR],
    [SM_NUM_GPUS], [SM_CHANNEL_TRAINING] is absent from the environment,
    the script stops with a [KeyError] while the parser is being built,
    whatever the command line holds: the world is unchanged (nothing
    logged, no generator use, no file written), so no batch is processed.
    The three hyperparameter arguments have the defaults [epochs = 10],
    [optimizer = "sgd"], [hidden_channels = 10]: a command line without
    arguments parses to all three defaults, beside the three values of the
    environment. *)
Theorem main_missing_environment {T : Torch} (environ : gmap string string)
    (argv : list string) (w : World) :
  missing_environment environ →
  (∃ key, main environ argv w = (inl (KeyError key), w)) ∧
  (∀ model_dir num_gpus data_dir n,
     py_int num_gpus = Some n →
     parse_args model_dir num_gpus data_dir [] w =
     (inr {| args_epochs := 10; args_optimizer := "sgd";
             args_hidden_channels := 10; args_model_dir := model_dir;
             args_num_gpus := n; args_data_dir := data_dir |}, w)).
Proof.
  intros Hmiss. split.
  - unfold main, environ_getitem. unfold missing_environment in Hmiss.
    destruct (environ !! "SM_MODEL_DIR") as [md |] eqn:E1;
      [| exists "SM_MODEL_DIR"; reflexivity].
    destruct (environ !! "SM_NUM_GPUS") as [ng |] eqn:E2;
      [| exists "SM_NUM_GPUS"; reflexivity].
    destruct (environ !! "SM_CHANNEL_TRAINING") as [dd |] eqn:E3;
      [| exists "SM_CHANNEL_TRAINING"; reflexivity].
    destruct Hmiss as [H | [H | H]]; discriminate.
  - intros model_dir num_gpus data_dir n Hn.
    unfold parse_args, arg_int. cbn [parse_pairs raw_num_gpus].
    rewrite !bind_unfold. cbn [mret M_ret ret raw_num_gpus]. rewrite Hn.
    reflexivity.
Qed.

(** C3 with only [SM_MODEL_DIR] set. *)
Lemma main_missing_environment_witness :
  @missing_environment {["SM_MODEL_DIR" := "/opt/ml/model"]} ∧
  ∃ key,
    @main toy_torch {["SM_MODEL_DIR" := "/opt/ml/model"]}
      ["--epochs"; "1"] toy_world
    = (inl (KeyError key), toy_world).
Proof.
  assert (@missing_environment {["SM_MODEL_DIR" := "/opt/ml/model"]}) as Hm.
  { right. left. reflexivity. }
  split; [exact Hm |].
  exact (proj1 (@main_missing_environment toy_torch _ ["--epochs"; "1"]
                  toy_world Hm)).
Defined.

(** C4. For every width [0 < h] the network [train_model] builds and
    returns computes the pipeline of the specification: conv(1→h, 5),
    max-pool 2, ReLU, conv(h→20, 5), 2D dropout (p = 0.5), max-pool 2,
    ReLU, flatten to 320, linear(320→50), ReLU, dropout, linear(50→10),
    log-softmax.
    This holds on every batch and in both modes, the two dropout stages
    drawing masks in training mode only, and for every network of that
    architecture, so also for the model between two updates. *)
Theorem forward_is_spec_pipeline {T : Torch} `{!TorchOk T}
    (train_set test_set : list Sample) (optimizer : string)
    (epochs hidden_channels : Z) (w : World) :
  train_set ≠ [] → test_set ≠ [] → 0 < hidden_channels →
  ∃ model w',
    train_model train_set test_set optimizer epochs hidden_channels w
    = (inr model, w') ∧
    Net_arch (module model) = arch_of hidden_channels ∧
    (∀ (mode : bool) (x : list Tensor) w0,
       DataParallel_forward
         {| module := Net_set_training mode (module model) |} x w0
       = run_pipeline (spec_pipeline hidden_channels)
           (parameter_values (module model)) mode x w0) ∧
    (∀ net, Net_arch net = arch_of hidden_channels →
       ∀ (x : list Tensor) w0,
         forward net x w0
         = run_pipeline (spec_pipeline hidden_channels)
             (parameter_values net) (training net) x w0).
Proof.
  intros Htr Hte Hh.
  destruct (train_model_returns train_set test_set optimizer epochs
              hidden_channels w Htr Hte ltac:(lia)) as (model & w' & Hrun & Ha & _).
  exists model, w'. split; [exact Hrun |]. split; [exact Ha |]. split.
  - intros mode x w0. unfold DataParallel_forward.
    apply (forward_pipeline (Net_set_training mode (module model))).
    exact Ha.
  - intros net Hnet x w0. apply forward_pipeline. exact Hnet.
Qed.

(** C4 on the model a one-epoch run returns, in evaluation mode. *)
Lemma forward_is_spec_pipeline_witness :
  ∃ model w',
    @train_model toy_torch toy_examples toy_examples "sgd" 1 5 toy_world
    = (inr model, w') ∧
    ∀ (x : list Z) w0,
      DataParallel_forward
        {| module := Net_set_training false (module model) |} x w0
      = run_pipeline (spec_pipeline 5) (parameter_values (module model))
          false x w0.
Proof.
  destruct (@forward_is_spec_pipeline toy_torch toy_torch_ok toy_examples
              toy_examples "sgd" 1 5 toy_world)
    as (model & w' & H1 & _ & H2 & _).
  - discriminate.
  - discriminate.
  - lia.
  - exists model, w'. split; [exact H1 |]. intros x w0. apply H2.
Defined.

(** C5. [train_model] is deterministic: it seeds the default generator
    with 42 before the loaders, the network and the optimizer are built,
    so its whole outcome (the returned model with every parameter, and
    everything logged, the per-epoch loss and accuracy lines included) is
    the same from any two generator states, and equals the outcome from a
    generator already seeded with 42. *)
Theorem train_model_deterministic {T : Torch} (train_set test_set : list Sample)
    (optimizer : string) (epochs hidden_channels : Z) (w : World)
    (g1 g2 : Generator) :
  train_model train_set test_set optimizer epochs hidden_channels (set_rng g1 w)
  = train_model train_set test_set optimizer epochs hidden_channels
      (set_rng g2 w)
  ∧ train_model train_set test_set optimizer epochs hidden_channels w
    = train_model train_set test_set optimizer epochs hidden_channels
        (set_rng (manual_seed 42) w).
Proof.
  split.
  - unfold train_model. rewrite !(bind_unfold (torch_manual_seed 42)).
    reflexivity.
  - unfold train_model. rewrite !(bind_unfold (torch_manual_seed 42)).
    reflexivity.
Qed.

(** C6. With the selector ["sgd"], [train_model] trains with stochastic
    gradient descent, learning rate 0.01 and momentum 0.5: the run
    returns the model of the state that is reached, from the network
    built after the two "Processes" lines and an optimizer of kind
    [SGD 0.01 0.5] without state, by the epochs of the run, each batch of
    each epoch being one [train_step] of kind [SGD 0.01 0.5]: every
    parameter with a gradient is replaced by [sgd_update 0.01 0.5] of its
    value and the batch's gradient.  With the selector ["adam"] the same
    holds for the adaptive-moment optimizer, kind [Adam 0.01] and rule
    [adam_update 0.01].  What the run writes after the two "Processes"
    lines is the trace of these epochs.  (Non-empty partitions and a
    width [0 < hidden_channels].) *)
Theorem train_model_optimizer_choice {T : Torch} `{!TorchOk T}
    (train_set test_set : list Sample) (epochs hidden_channels : Z)
    (w : World) :
  train_set ≠ [] → test_set ≠ [] → 0 < hidden_channels →
  (∃ net w0 st w' evs,
     Net_init hidden_channels 5 lit_0_5
       (add_log (processes_line "test" (length test_set))
          (add_log (processes_line "train" (length train_set))
             (set_rng (manual_seed 42) w)))
     = (inr net, w0) ∧
     train_model train_set test_set "sgd" epochs hidden_channels w
     = (inr (fst st), w') ∧
     log w' = log w ++ processes_line "train" (length train_set)
                       :: processes_line "test" (length test_set) :: evs ∧
     epochs_run (SGD (Q2Qc (1 # 100)) (Q2Qc (1 # 2))) train_set test_set
       ({| module := net |},
        {| opt_kind := SGD (Q2Qc (1 # 100)) (Q2Qc (1 # 2)); opt_state := ∅ |})
       1 (Z.to_nat epochs) evs st) ∧
  (∃ net w0 st w' evs,
     Net_init hidden_channels 5 lit_0_5
       (add_log (processes_line "test" (length test_set))
          (add_log (processes_line "train" (length train_set))
             (set_rng (manual_seed 42) w)))
     = (inr net, w0) ∧
     train_model train_set test_set "adam" epochs hidden_channels w
     = (inr (fst st), w') ∧
     log w' = log w ++ processes_line "train" (length train_set)
                       :: processes_line "test" (length test_set) :: evs ∧
     epochs_run (Adam (Q2Qc (1 # 100))) train_set test_set
       ({| module := net |},
        {| opt_kind := Adam (Q2Qc (1 # 100)); opt_state := ∅ |})
       1 (Z.to_nat epochs) evs st).
Proof.
  intros Htr Hte Hh. split.
  - destruct (train_run_steps train_set test_set "sgd" epochs hidden_channels
                w Htr Hte Hh)
      as (net & w0 & st & w' & evs & H1 & _ & _ & H3 & HL & Hrun).
    exists net, w0, st, w', evs.
    split; [exact H1 |]. split; [exact H3 |]. split; [exact HL |].
    rewrite optimizer_of_sgd in Hrun. exact Hrun.
  - destruct (train_run_steps train_set test_set "adam" epochs hidden_channels
                w Htr Hte Hh)
      as (net & w0 & st & w' & evs & H1 & _ & _ & H3 & HL & Hrun).
    exists net, w0, st, w', evs.
    split; [exact H1 |]. split; [exact H3 |]. split; [exact HL |].
    rewrite optimizer_of_other in Hrun by discriminate. exact Hrun.
Qed.

(** C6 on a two-epoch run with the selector ["sgd"]: two epochs of SGD
    steps from the fresh network. *)
Lemma train_model_optimizer_choice_witness :
  ∃ net st w' evs,
    @train_model toy_torch toy_examples toy_examples "sgd" 2 5 toy_world
    = (inr (fst st), w') ∧
    epochs_run (SGD (Q2Qc (1 # 100)) (Q2Qc (1 # 2))) toy_examples toy_examples
      ({| module := net |},
       {| opt_kind := SGD (Q2Qc (1 # 100)) (Q2Qc (1 # 2)); opt_state := ∅ |})
      1 2 evs st.
Proof.
  destruct (@train_model_optimizer_choice toy_torch toy_torch_ok toy_examples
              toy_examples 2 5 toy_world)
    as [(net & w0 & st & w' & evs & _ & H2 & _ & H3) _].
  - discriminate.
  - discriminate.
  - lia.
  - exists net, st, w', evs. auto.
Defined.

(** C7. For fixed partitions, epochs and width [0 < hidden_channels], the
    two selectors differ in the optimizer only: before the loop both runs hold the same model
    and an optimizer with the same (empty) state, of kind SGD for ["sgd"]
    and Adam for ["adam"]; both runs return; the returned models have the
    same architecture and the same number of parameters,
    [526 * hidden_channels + 16580]. *)
Theorem optimizer_switch_keeps_architecture {T : Torch} `{!TorchOk T}
    (train_set test_set : list Sample) (epochs hidden_channels : Z)
    (w : World) :
  train_set ≠ [] → test_set ≠ [] → 0 < hidden_channels →
  ∃ st1 w1 st2 w2,
    train_model_state train_set test_set "sgd" epochs hidden_channels w
    = (inr st1, w1) ∧
    train_model_state train_set test_set "adam" epochs hidden_channels w
    = (inr st2, w2) ∧
    train_model train_set test_set "sgd" epochs hidden_channels w
    = (inr (fst st1), w1) ∧
    train_model train_set test_set "adam" epochs hidden_channels w
    = (inr (fst st2), w2) ∧
    opt_kind (snd st1) = SGD (Q2Qc (1 # 100)) (Q2Qc (1 # 2)) ∧
    opt_kind (snd st2) = Adam (Q2Qc (1 # 100)) ∧
    Net_arch (module (fst st1)) = Net_arch (module (fst st2)) ∧
    num_parameters (fst st1) = 526 * hidden_channels + 16580 ∧
    num_parameters (fst st2) = 526 * hidden_channels + 16580 ∧
    (∀ model, opt_state (optimizer_of "sgd" model)
              = opt_state (optimizer_of "adam" model)).
Proof.
  intros Htr Hte Hh.
  destruct (train_run train_set test_set "sgd" epochs hidden_channels w
              Htr Hte ltac:(lia)) as (st1 & w1 & _ & A1 & A2 & A3 & A4 & _).
  destruct (train_run train_set test_set "adam" epochs hidden_channels w
              Htr Hte ltac:(lia)) as (st2 & w2 & _ & B1 & B2 & B3 & B4 & _).
  exists st1, w1, st2, w2.
  split; [exact A1 |]. split; [exact B1 |].
  split; [exact A2 |]. split; [exact B2 |].
  split; [exact A4 |]. split; [exact B4 |].
  split; [congruence |].
  split; [apply num_parameters_arch; exact A3 |].
  split; [apply num_parameters_arch; exact B3 |].
  reflexivity.
Qed.

(** C7 at the default width 10: 21840 parameters under both selectors. *)
Lemma optimizer_switch_keeps_architecture_witness :
  ∃ m1 w1 m2 w2,
    @train_model toy_torch toy_examples toy_examples "sgd" 1 10 toy_world
    = (inr m1, w1) ∧
    @train_model toy_torch toy_examples toy_examples "adam" 1 10 toy_world
    = (inr m2, w2) ∧
    Net_arch (module m1) = Net_arch (module m2) ∧
    num_parameters m1 = 21840 ∧ num_parameters m2 = 21840.
Proof.
  destruct (@optimizer_switch_keeps_architecture toy_torch toy_torch_ok
              toy_examples toy_examples 1 10 toy_world)
    as (st1 & w1 & st2 & w2 & _ & _ & H1 & H2 & _ & _ & H3 & H4 & H5 & _).
  - discriminate.
  - discriminate.
  - lia.
  - exists (fst st1), w1, (fst st2), w2. auto.
Defined.

(** C8. The loop of [train_model] is sequential (non-empty partitions, a
    width [0 < hidden_channels]).  After the two "Processes" lines, a
    run is one [epoch_run] per epoch, for the epochs 1, 2, ..., [epochs]
    in this order, each starting from the model and optimizer the one
    before it ended in, the first from the network just built and an
    optimizer without state.  The epoch [N] writes its "Training Epoch"
    line, then takes one training step per batch of the train partition,
    numbered from 1, each on the state the previous batch left (with a
    progress line after each 100th), then writes the evaluation line of
    the model these steps produced over the whole train partition, then
    that over the whole test partition.  The model returned is the one
    the last epoch ends in: nothing is selected or stopped early. *)
Theorem train_model_sequential {T : Torch} `{!TorchOk T}
    (train_set test_set : list Sample) (optimizer : string)
    (epochs hidden_channels : Z) (w : World) :
  train_set ≠ [] → test_set ≠ [] → 0 < hidden_channels →
  ∃ net w0 opt0 st w' evs,
    Net_init hidden_channels 5 lit_0_5
      (add_log (processes_line "test" (length test_set))
         (add_log (processes_line "train" (length train_set))
            (set_rng (manual_seed 42) w)))
    = (inr net, w0) ∧
    opt_state opt0 = ∅ ∧
    train_model train_set test_set optimizer epochs hidden_channels w
    = (inr (fst st), w') ∧
    log w' = log w ++ processes_line "train" (length train_set)
                      :: processes_line "test" (length test_set) :: evs ∧
    epochs_run (opt_kind opt0) train_set test_set ({| module := net |}, opt0)
      1 (Z.to_nat epochs) evs st.
Proof.
  intros Htr Hte Hh.
  destruct (train_run_steps train_set test_set optimizer epochs
              hidden_channels w Htr Hte Hh)
    as (net & w0 & st & w' & evs & H1 & _ & _ & H3 & HL & Hrun).
  exists net, w0, (optimizer_of optimizer {| module := net |}), st, w', evs.
  split; [exact H1 |].
  split.
  { unfold optimizer_of. destruct (decide (optimizer = "sgd")); reflexivity. }
  split; [exact H3 |]. split; [exact HL | exact Hrun].
Qed.

(** C8 on a three-epoch run: three epochs in a row from the fresh
    network. *)
Lemma train_model_sequential_witness :
  ∃ net opt0 st w' evs,
    @train_model toy_torch toy_examples toy_examples "sgd" 3 5 toy_world
    = (inr (fst st), w') ∧
    log w' = processes_line "train" 3 :: processes_line "test" 3 :: evs ∧
    epochs_run (opt_kind opt0) toy_examples toy_examples
      ({| module := net |}, opt0) 1 3 evs st.
Proof.
  destruct (@train_model_sequential toy_torch toy_torch_ok toy_examples
              toy_examples "sgd" 3 5 toy_world)
    as (net & w0 & opt0 & st & w' & evs & _ & _ & H2 & H3 & H4).
  - discriminate.
  - discriminate.
  - lia.
  - exists net, opt0, st, w', evs. auto.
Defined.

(** C9. The selector is not validated: with every string other than
    ["sgd"], [train_model] is the run it is with ["adam"], and it builds
    and uses the adaptive-moment optimizer with learning rate 0.01: for
    non-empty partitions and a width [0 < hidden_channels] the call
    returns a model, reached from the network built after the two
    "Processes" lines and an [Adam 0.01] optimizer without state by the
    epochs of the run, every batch being one [train_step] of kind
    [Adam 0.01].  No error comes from the unrecognized name. *)
Theorem unknown_optimizer_selects_adam {T : Torch}
    (train_set test_set : list Sample) (optimizer : string)
    (epochs hidden_channels : Z) (w : World) :
  optimizer ≠ "sgd" →
  train_model train_set test_set optimizer epochs hidden_channels w
  = train_model train_set test_set "adam" epochs hidden_channels w
  ∧ (TorchOk T → train_set ≠ [] → test_set ≠ [] → 0 < hidden_channels →
     ∃ net w0 st w' evs,
       Net_init hidden_channels 5 lit_0_5
         (add_log (processes_line "test" (length test_set))
            (add_log (processes_line "train" (length train_set))
               (set_rng (manual_seed 42) w)))
       = (inr net, w0) ∧
       train_model train_set test_set optimizer epochs hidden_channels w
       = (inr (fst st), w') ∧
       log w' = log w ++ processes_line "train" (length train_set)
                         :: processes_line "test" (length test_set) :: evs ∧
       epochs_run (Adam (Q2Qc (1 # 100))) train_set test_set
         ({| module := net |},
          {| opt_kind := Adam (Q2Qc (1 # 100)); opt_state := ∅ |})
         1 (Z.to_nat epochs) evs st).
Proof.
  intros Hne. split.
  - unfold train_model.
    destruct (decide (optimizer = "sgd")) as [E | _]; [contradiction |].
    destruct (decide ("adam" = "sgd")) as [E | _]; [discriminate |].
    reflexivity.
  - intros Hok Htr Hte Hh.
    destruct (train_run_steps train_set test_set optimizer epochs
                hidden_channels w Htr Hte Hh)
      as (net & w0 & st & w' & evs & H1 & _ & _ & H3 & HL & Hrun).
    exists net, w0, st, w', evs.
    split; [exact H1 |]. split; [exact H3 |]. split; [exact HL |].
    rewrite (optimizer_of_other _ _ Hne) in Hrun. exact Hrun.
Qed.

(** C9 for the misspelled selector ["sdg"]: the run is the ["adam"] run,
    two epochs of Adam steps. *)
Lemma unknown_optimizer_selects_adam_witness :
  "sdg" ≠ "sgd" ∧
  @train_model toy_torch toy_examples toy_examples "sdg" 2 5 toy_world
  = @train_model toy_torch toy_examples toy_examples "adam" 2 5 toy_world ∧
  ∃ net st w' evs,
    @train_model toy_torch toy_examples toy_examples "sdg" 2 5 toy_world
    = (inr (fst st), w') ∧
    epochs_run (Adam (Q2Qc (1 # 100))) toy_examples toy_examples
      ({| module := net |},
       {| opt_kind := Adam (Q2Qc (1 # 100)); opt_state := ∅ |})
      1 2 evs st.
Proof.
  assert ("sdg" ≠ "sgd") as Hne by discriminate.
  split; [exact Hne |].
  destruct (@unknown_optimizer_selects_adam toy_torch toy_examples
              toy_examples "sdg" 2 5 toy_world Hne) as [Heq Hrun].
  split; [exact Heq |].
  destruct Hrun as (net & w0 & st & w' & evs & _ & H2 & _ & H3).
  - exact toy_torch_ok.
  - discriminate.
  - discriminate.
  - lia.
  - exists net, st, w', evs. auto.
Defined.

(** C10. With [epochs ≤ 0] the loop of [train_model] runs zero times: the
    call is the part before the loop and nothing else.  For non-empty
    partitions and a non-negative width it returns the network that
    [Net_init] builds from the generator seeded with 42, wrapped and
    untouched, and the only lines written are the two "Processes" lines:
    no epoch line, no optimizer step, no evaluation line. *)
Theorem train_model_no_epochs {T : Torch} (train_set test_set : list Sample)
    (optimizer : string) (epochs hidden_channels : Z) (w : World) :
  epochs ≤ 0 →
  train_model train_set test_set optimizer epochs hidden_channels w
  = fresh_model train_set test_set hidden_channels w
  ∧ (train_set ≠ [] → test_set ≠ [] → 0 ≤ hidden_channels →
     ∃ net w',
       Net_init hidden_channels 5 lit_0_5
         (add_log (processes_line "test" (length test_set))
            (add_log (processes_line "train" (length train_set))
               (set_rng (manual_seed 42) w)))
       = (inr net, w') ∧
       train_model train_set test_set optimizer epochs hidden_channels w
       = (inr {| module := net |}, w') ∧
       log w' = log w ++ [processes_line "train" (length train_set);
                          processes_line "test" (length test_set)]).
Proof.
  intros Hep.
  assert (train_model train_set test_set optimizer epochs hidden_channels w
          = fresh_model train_set test_set hidden_channels w) as Heq.
  { rewrite train_model_unfold. unfold train_model_state.
    rewrite range_nil by lia. rewrite !bind_unfold.
    destruct (fresh_model train_set test_set hidden_channels w)
      as [[e | model] w1]; reflexivity. }
  split; [exact Heq |].
  intros Htr Hte Hh. rewrite Heq. unfold fresh_model.
  rewrite bind_unfold. cbn [torch_manual_seed]. rewrite bind_unfold.
  rewrite (DataLoader_init_nonempty _ _ _ _ Htr), bind_unfold.
  rewrite (DataLoader_init_nonempty _ _ _ _ Hte), bind_unfold.
  fold (train_loader_of train_set). fold (test_loader_of test_set).
  destruct (log_processes_returns "train" (train_loader_of train_set)
              (set_rng (manual_seed 42) w) Htr) as ([] & w1 & R1 & ->).
  rewrite R1, bind_unfold.
  destruct (log_processes_returns "test" (test_loader_of test_set)
              (add_log (processes_line "train"
                          (length (dataset (train_loader_of train_set))))
                 (set_rng (manual_seed 42) w)) Hte) as ([] & w2 & R2 & ->).
  rewrite R2, bind_unfold. cbn [dataset train_loader_of test_loader_of].
  destruct (Net_init_returns hidden_channels
              (add_log (processes_line "test" (length test_set))
                 (add_log (processes_line "train" (length train_set))
                    (set_rng (manual_seed 42) w))) Hh)
    as (net & w3 & R3 & _ & _ & (HL & _)).
  exists net, w3. rewrite R3. split; [reflexivity |]. split; [reflexivity |].
  rewrite HL. simpl. rewrite app_nil_r, <- app_assoc. reflexivity.
Qed.

(** C10 for [epochs = -3]. *)
Lemma train_model_no_epochs_witness :
  -3 ≤ 0 ∧
  @train_model toy_torch toy_examples toy_examples "sgd" (-3) 5 toy_world
  = @fresh_model toy_torch toy_examples toy_examples 5 toy_world.
Proof.
  assert (-3 ≤ 0) as H by lia.
  split; [exact H |].
  exact (proj1 (@train_model_no_epochs toy_torch toy_examples toy_examples
                  "sgd" (-3) 5 toy_world H)).
Defined.

(** * Further properties *)

(** ** Counting the lines of a run *)

Lemma count_events_app (f : Event → bool) (l1 l2 : list Event) :
  count_events f (l1 ++ l2) = (count_events f l1 + count_events f l2)%nat.
Proof.
  induction l1 as [| e l1 IH]; [reflexivity |].
  cbn [app count_events]. rewrite IH. lia.
Qed.

Lemma div_100_succ (i : Z) :
  i `mod` 100 = 0 → i `div` 100 = (i - 1) `div` 100 + 1.
Proof. intros H. Z.to_euclidean_division_equations. lia. Qed.

Lemma div_100_same (i : Z) :
  i `mod` 100 ≠ 0 → i `div` 100 = (i - 1) `div` 100.
Proof. intros H. Z.to_euclidean_division_equations. lia. Qed.

Lemma batch_events_counts epoch k i n evs :
  batch_events epoch k i n evs →
  count_events is_step evs = n ∧
  count_events is_epoch_line evs = 0%nat ∧
  count_events is_evaluation evs = 0%nat ∧
  Z.of_nat (count_events is_progress evs)
  = (i + Z.of_nat n - 1) `div` 100 - (i - 1) `div` 100.
Proof.
  induction 1 as [i | i n evs Hmod _ IH | i n evs seen total pct loss Hmod _ IH].
  - cbn [count_events]. repeat split; try reflexivity.
    replace (i + Z.of_nat 0 - 1) with (i - 1) by lia. lia.
  - destruct IH as (I1 & I2 & I3 & I4). cbn [count_events is_step
      is_epoch_line is_evaluation is_progress].
    repeat split; try lia.
    replace (i + 1 + Z.of_nat n - 1) with (i + Z.of_nat (S n) - 1) in I4 by lia.
    replace (i + 1 - 1) with i in I4 by lia.
    rewrite (div_100_same i Hmod) in I4. lia.
  - destruct IH as (I1 & I2 & I3 & I4). cbn [count_events is_step
      is_epoch_line is_evaluation is_progress].
    repeat split; try lia.
    replace (i + 1 + Z.of_nat n - 1) with (i + Z.of_nat (S n) - 1) in I4 by lia.
    replace (i + 1 - 1) with i in I4 by lia.
    rewrite (div_100_succ i Hmod) in I4. lia.
Qed.

Lemma epoch_block_counts k nb epoch blk :
  epoch_block k nb epoch blk →
  count_events is_epoch_line blk = 1%nat ∧
  count_events is_step blk = nb ∧
  count_events is_progress blk = (nb `div` 100)%nat ∧
  count_events is_evaluation blk = 2%nat.
Proof.
  intros (evs & l1 & a1 & l2 & a2 & Hb & ->).
  apply batch_events_counts in Hb. destruct Hb as (B1 & B2 & B3 & B4).
  cbn [count_events is_epoch_line is_step is_progress is_evaluation].
  rewrite !count_events_app.
  cbn [count_events is_epoch_line is_step is_progress is_evaluation].
  rewrite B1, B2, B3. repeat split; try lia.
  replace (1 + Z.of_nat nb - 1) with (Z.of_nat nb) in B4 by lia.
  replace ((1 - 1) `div` 100) with 0 in B4 by reflexivity.
  apply Nat2Z.inj. rewrite Nat2Z.inj_add, Nat2Z.inj_add, B4.
  rewrite Nat2Z.inj_div. simpl. lia.
Qed.

Lemma epoch_blocks_counts k nb epoch n evs :
  epoch_blocks k nb epoch n evs →
  count_events is_epoch_line evs = n ∧
  count_events is_step evs = (n * nb)%nat ∧
  count_events is_progress evs = (n * (nb `div` 100))%nat ∧
  count_events is_evaluation evs = (2 * n)%nat.
Proof.
  induction 1 as [epoch | epoch n blk rest Hblk _ IH].
  - cbn [count_events]. repeat split; lia.
  - apply epoch_block_counts in Hblk.
    destruct Hblk as (B1 & B2 & B3 & B4). destruct IH as (I1 & I2 & I3 & I4).
    rewrite !count_events_app, B1, B2, B3, B4, I1, I2, I3, I4.
    repeat split; lia.
Qed.

(** X1. A run over non-empty partitions with a width
    [0 < hidden_channels] writes, besides the two "Processes" lines, one
    "Training Epoch" line per epoch, one optimizer step per batch and epoch,
    [len(train_loader) // 100] progress lines per epoch and two evaluation
    lines per epoch, where the number of epochs is [max(epochs, 0)] and
    [len(train_loader)] is the number of batches of 64 the train
    partition is cut into, the last one possibly short. *)
Theorem train_model_event_counts {T : Torch} `{!TorchOk T}
    (train_set test_set : list Sample) (optimizer : string)
    (epochs hidden_channels : Z) (w : World) :
  train_set ≠ [] → test_set ≠ [] → 0 < hidden_channels →
  ∃ model w' evs,
    train_model train_set test_set optimizer epochs hidden_channels w
    = (inr model, w') ∧
    log w' = log w ++ processes_line "train" (length train_set)
                      :: processes_line "test" (length test_set) :: evs ∧
    count_events is_epoch_line evs = Z.to_nat epochs ∧
    count_events is_step evs
    = (Z.to_nat epochs * ((length train_set + 63) `div` 64))%nat ∧
    count_events is_progress evs
    = (Z.to_nat epochs * (((length train_set + 63) `div` 64) `div` 100))%nat ∧
    count_events is_evaluation evs = (2 * Z.to_nat epochs)%nat.
Proof.
  intros Htr Hte Hh.
  destruct (train_run train_set test_set optimizer epochs hidden_channels w
              Htr Hte ltac:(lia)) as (st & w' & evs & _ & H2 & _ & _ & He & Hb).
  exists (fst st), w', evs. split; [exact H2 |]. split; [apply He |].
  apply epoch_blocks_counts in Hb. unfold len_loader in Hb.
  cbn [dataset batch_size train_loader_of] in Hb.
  replace (length train_set + 64 - 1)%nat with (length train_set + 63)%nat
    in Hb by lia.
  exact Hb.
Qed.

(** X1 on three epochs over three examples: three steps, no progress line. *)
Lemma train_model_event_counts_witness :
  ∃ model w' evs,
    @train_model toy_torch toy_examples toy_examples "sgd" 3 5 toy_world
    = (inr model, w') ∧
    log w' = processes_line "train" 3 :: processes_line "test" 3 :: evs ∧
    count_events is_step evs = 3%nat ∧
    count_events is_progress evs = 0%nat ∧
    count_events is_evaluation evs = 6%nat.
Proof.
  destruct (@train_model_event_counts toy_torch toy_torch_ok toy_examples
              toy_examples "sgd" 3 5 toy_world)
    as (model & w' & evs & H1 & H2 & _ & H3 & H4 & H5).
  - discriminate.
  - discriminate.
  - lia.
  - exists model, w', evs. auto.
Defined.

(** ** The model a run returns *)

Section LastEpoch.
Context {T : Torch}.
Implicit Types (w : World) (model : DataParallel) (opt : Optimizer).

(** An epoch ends with the two evaluation lines of the model it leaves,
    and leaves it in evaluation mode. *)
Lemma train_epoch_evaluates `{!TorchOk T} (train_set test_set : list Sample)
    (device : Device) (epoch : Z) model opt w :
  train_set ≠ [] → test_set ≠ [] →
  returns (train_epoch (train_loader_of train_set) (test_loader_of test_set)
             device 100 (model, opt) epoch) w
    (λ st w',
       training (module (fst st)) = false ∧
       ∃ evs,
         log w' = log w ++ evs ++
           [LogPerformance "Train"
              (average_loss (module (fst st)) train_set)
              (accuracy (module (fst st)) train_set);
            LogPerformance "Test"
              (average_loss (module (fst st)) test_set)
              (accuracy (module (fst st)) test_set)]).
Proof.
  intros Htr Hte. unfold train_epoch.
  assert (len_loader (train_loader_of train_set) ≠ 0%nat) as Hlen.
  { apply len_loader_neq_0; [exact Htr | simpl; lia]. }
  apply returns_bind. eapply returns_mono; [apply returns_emit |].
  intros [] w1 ->. apply returns_bind.
  eapply returns_mono; [apply DataLoader_iter_returns; simpl; lia |].
  intros batches w2 ((L2 & _ & _) & Hperm & _). apply returns_bind.
  pose proof (Forall_concat_inv _ _ (Permutation_seq_bound _ _ Hperm)) as Hval.
  eapply returns_mono.
  { unfold enumerate. apply train_batches_returns; [exact Hval | exact Hlen]. }
  intros [m1 o1] w3 (_ & _ & evs & (L3 & _ & _) & _). cbn [fst snd] in *.
  apply returns_bind.
  eapply returns_mono.
  { apply log_performance_returns; [exact Htr | simpl; lia]. }
  intros m2 w4 (-> & g4 & ->). apply returns_bind.
  eapply returns_mono.
  { apply log_performance_returns; [exact Hte | simpl; lia]. }
  intros m3 w5 (-> & g5 & ->). apply returns_ret. cbn [fst snd].
  split; [reflexivity |].
  exists (PrintEpoch epoch :: evs).
  cbn [log add_log set_rng]. rewrite L3, L2. cbn [log add_log].
  rewrite app_nil_r, <- !app_assoc. reflexivity.
Qed.

(** With at least one epoch, the run ends with the evaluation of the
    model it returns. *)
Lemma train_model_last_epoch `{!TorchOk T} (train_set test_set : list Sample)
    (optimizer : string) (epochs hidden : Z) w :
  train_set ≠ [] → test_set ≠ [] → 0 < hidden → 1 ≤ epochs →
  ∃ model w' evs,
    train_model train_set test_set optimizer epochs hidden w
    = (inr model, w') ∧
    training (module model) = false ∧
    log w' = log w ++ evs ++
      [LogPerformance "Train"
         (average_loss (module model) train_set)
         (accuracy (module model) train_set);
       LogPerformance "Test"
         (average_loss (module model) test_set)
         (accuracy (module model) test_set)].
Proof.
  intros Htr Hte Hh Hep.
  destruct (train_run train_set test_set optimizer (epochs - 1) hidden w
              Htr Hte Hh) as ([m0 o0] & w1 & evs0 & G1 & _ & _ & _ & (L1 & _) & _).
  destruct (train_epoch_evaluates train_set test_set device_of epochs m0 o0 w1
              Htr Hte) as (st & w' & Hrun & Hmode & evs & L2).
  pose proof (train_model_state_succ train_set test_set optimizer
                (epochs - 1) hidden w ltac:(lia)) as Hs.
  replace (epochs - 1 + 1) with epochs in Hs by lia.
  rewrite (bind_inr _ _ _ _ _ G1), Hrun in Hs.
  exists (fst st), w',
    ((processes_line "train" (length train_set)
      :: processes_line "test" (length test_set) :: evs0) ++ evs).
  split; [| split; [exact Hmode |]].
  - rewrite train_model_unfold, (bind_inr _ _ _ _ _ Hs). reflexivity.
  - rewrite L2, L1. rewrite <- (app_assoc (log w)), <- (app_assoc _ evs).
    reflexivity.
Qed.

(** Without epochs the run is the part before the loop. *)
Lemma train_model_without_epochs (train_set test_set : list Sample)
    (optimizer : string) (epochs hidden : Z) w :
  epochs ≤ 0 →
  train_model train_set test_set optimizer epochs hidden w
  = fresh_model train_set test_set hidden w.
Proof.
  intros Hep. rewrite train_model_unfold. unfold train_model_state.
  rewrite range_nil by lia. rewrite !bind_unfold.
  destruct (fresh_model train_set test_set hidden w) as [[e | model] w1];
    reflexivity.
Qed.

End LastEpoch.

(** X2. When at least one epoch runs (non-empty partitions, a width
    [0 < hidden_channels]), the last two lines a run of [train_model]
    writes are the evaluation of the very model it returns:
    the "Train" line holds that model's average loss and accuracy over
    the whole train partition, the "Test" line those over the whole test
    partition. *)
Theorem final_lines_describe_returned_model {T : Torch} `{!TorchOk T}
    (train_set test_set : list Sample) (optimizer : string)
    (epochs hidden_channels : Z) (w : World) :
  train_set ≠ [] → test_set ≠ [] → 0 < hidden_channels → 1 ≤ epochs →
  ∃ model w' evs,
    train_model train_set test_set optimizer epochs hidden_channels w
    = (inr model, w') ∧
    log w' = log w ++ evs ++
      [LogPerformance "Train"
         (total_loss (module model) train_set
          / Qc_of_nat (length train_set))%Qc
         (lit_100_0 * Qc_of_nat (num_correct (module model) train_set)
          / Qc_of_nat (length train_set))%Qc;
       LogPerformance "Test"
         (total_loss (module model) test_set
          / Qc_of_nat (length test_set))%Qc
         (lit_100_0 * Qc_of_nat (num_correct (module model) test_set)
          / Qc_of_nat (length test_set))%Qc].
Proof.
  intros Htr Hte Hh Hep.
  destruct (train_model_last_epoch train_set test_set optimizer epochs
              hidden_channels w Htr Hte ltac:(lia) Hep)
    as (model & w' & evs & H1 & _ & H2).
  exists model, w', evs. split; [exact H1 | exact H2].
Qed.

(** X2 on a two-epoch run. *)
Lemma final_lines_describe_returned_model_witness :
  ∃ model w' evs,
    @train_model toy_torch toy_examples toy_examples "adam" 2 5 toy_world
    = (inr model, w') ∧
    log w' = evs ++
      [LogPerformance "Train" (average_loss (module model) toy_examples)
         (accuracy (module model) toy_examples);
       LogPerformance "Test" (average_loss (module model) toy_examples)
         (accuracy (module model) toy_examples)].
Proof.
  destruct (@final_lines_describe_returned_model toy_torch toy_torch_ok
              toy_examples toy_examples "adam" 2 5 toy_world)
    as (model & w' & evs & H1 & H2).
  - discriminate.
  - discriminate.
  - lia.
  - lia.
  - exists model, w', evs. split; [exact H1 | exact H2].
Defined.

(** X3. The mode of the model a run returns (non-empty partitions, a
    width [0 < hidden_channels]) depends on whether an epoch ran:
    after at least one epoch the model is in evaluation mode (the last
    call on it is [model.eval()] inside [log_performance]), so both
    dropouts are inactive when it is used; with [epochs ≤ 0] it is
    returned as constructed, in training mode. *)
Theorem returned_model_mode {T : Torch} `{!TorchOk T}
    (train_set test_set : list Sample) (optimizer : string)
    (epochs hidden_channels : Z) (w : World) :
  train_set ≠ [] → test_set ≠ [] → 0 < hidden_channels →
  ∃ model w',
    train_model train_set test_set optimizer epochs hidden_channels w
    = (inr model, w') ∧
    training (module model) = bool_decide (epochs ≤ 0) ∧
    (1 ≤ epochs →
     ∀ (x : list Tensor) w0,
       DataParallel_forward model x w0
       = (inr (map (forward_eval_row (module model)) x), w0)).
Proof.
  intros Htr Hte Hh.
  destruct (Z_le_gt_dec epochs 0) as [Hep | Hep].
  - destruct (fresh_model_returns train_set test_set hidden_channels w
                Htr Hte ltac:(lia)) as (model & w' & Hrun & _ & Hmode & _).
    exists model, w'. split; [| split].
    + rewrite train_model_without_epochs by exact Hep. exact Hrun.
    + rewrite Hmode. symmetry. apply bool_decide_eq_true. exact Hep.
    + intros. lia.
  - destruct (train_model_last_epoch train_set test_set optimizer epochs
                hidden_channels w Htr Hte ltac:(lia) ltac:(lia))
      as (model & w' & evs & H1 & Hmode & _).
    exists model, w'. split; [exact H1 |]. split.
    + rewrite Hmode. symmetry. apply bool_decide_eq_false. lia.
    + intros _ x w0. unfold DataParallel_forward.
      apply forward_eval. exact Hmode.
Qed.

(** X3 on a one-epoch run: the returned model is in evaluation mode. *)
Lemma returned_model_mode_witness :
  ∃ model w',
    @train_model toy_torch toy_examples toy_examples "sgd" 1 5 toy_world
    = (inr model, w') ∧
    training (module model) = false.
Proof.
  destruct (@returned_model_mode toy_torch toy_torch_ok toy_examples
              toy_examples "sgd" 1 5 toy_world)
    as (model & w' & H1 & H2 & _).
  - discriminate.
  - discriminate.
  - lia.
  - exists model, w'. split; [exact H1 | exact H2].
Defined.

(** ** Empty partitions *)

(** X4. [log_performance] on a loader whose dataset is empty never reaches
    its log line: the loop body does not run, and the division of the
    loss by [len(data_loader.dataset)] raises [ZeroDivisionError]; nothing
    is written and no file changes. *)
Theorem log_performance_empty_dataset {T : Torch} `{!TorchOk T}
    (model : DataParallel) (data_loader : DataLoader) (device : Device)
    (epoch : Z) (metric_type : string) (w : World) :
  dataset data_loader = [] →
  ∃ g,
    log_performance model data_loader device epoch metric_type w
    = (inl ZeroDivisionError, set_rng g w).
Proof.
  intros Hds. unfold log_performance, DataLoader_iter. rewrite Hds.
  cbn [length].
  assert (∃ g, (if shuffle data_loader
                then draw (randperm 0)
                else ret (seq 0 0)) w = (inr [], set_rng g w)) as [g Hidx].
  { destruct (shuffle data_loader).
    - pose proof (randperm_Permutation 0 (rng w)) as Hp.
      unfold draw. destruct (randperm 0 (rng w)) as [idx g] eqn:E.
      cbn [fst seq] in Hp. apply Permutation_nil_r in Hp. subst idx.
      exists g. reflexivity.
    - exists (rng w). destruct w. reflexivity. }
  exists g. rewrite !bind_unfold, Hidx. reflexivity.
Qed.

(** X4 on a loader over no examples. *)
Lemma log_performance_empty_dataset_witness :
  ∃ g,
    @log_performance toy_torch toy_model
      {| dataset := []; batch_size := 1000; shuffle := false |} cpu 1 "Test"
      toy_world
    = (inl ZeroDivisionError, set_rng g toy_world).
Proof.
  exact (@log_performance_empty_dataset toy_torch toy_torch_ok toy_model
           {| dataset := []; batch_size := 1000; shuffle := false |} cpu 1
           "Test" toy_world eq_refl).
Defined.

(** X5. If the train or the test partition is empty, [train_model] raises
    [ValueError] while it builds the shuffled loader of that partition:
    the generator has been seeded, and nothing else has happened: no
    line is written, not even a "Processes" line, no network is built, no
    epoch runs and no file is touched. *)
Theorem train_model_empty_partition {T : Torch}
    (train_set test_set : list Sample) (optimizer : string)
    (epochs hidden_channels : Z) (w : World) :
  train_set = [] ∨ test_set = [] →
  ∃ msg,
    train_model train_set test_set optimizer epochs hidden_channels w
    = (inl (ValueError msg), set_rng (manual_seed 42) w).
Proof.
  intros Hempty. unfold train_model. rewrite bind_unfold.
  cbn [torch_manual_seed]. rewrite bind_unfold.
  destruct train_set as [| s train_set].
  - eexists. reflexivity.
  - destruct Hempty as [Hempty | ->]; [discriminate |].
    rewrite (DataLoader_init_nonempty (s :: train_set)) by discriminate.
    rewrite bind_unfold. eexists. reflexivity.
Qed.

(** X5 with an empty test partition. *)
Lemma train_model_empty_partition_witness :
  ∃ msg,
    @train_model toy_torch toy_examples [] "sgd" 10 10 toy_world
    = (inl (ValueError msg), @set_rng toy_torch 42 toy_world).
Proof.
  exact (@train_model_empty_partition toy_torch toy_examples [] "sgd"
           10 10 toy_world (or_intror eq_refl)).
Defined.

(** ** The script as a whole *)

Section Parsing.
Context {T : Torch}.
Implicit Types (w : World) (ns : RawArgs).

Lemma arg_int_cases (v : string) w :
  (∃ n, py_int v = Some n ∧ arg_int v w = (inr n, w)) ∨
  (py_int v = None ∧ arg_int v w = (inl (SystemExit 2), w)).
Proof.
  unfold arg_int. destruct (py_int v) as [n |]; [left | right]; eauto.
Qed.

(** Storing an option either succeeds or ends the process with status 2;
    the world is not touched. *)
Lemma store_arg_cases (name value : string) ns w :
  (∃ ns', store_arg name value ns w = (inr ns', w)) ∨
  store_arg name value ns w = (inl (SystemExit 2), w).
Proof.
  unfold store_arg.
  repeat (case_decide; [subst name |]);
    first [ rewrite bind_unfold;
            destruct (arg_int_cases value w) as [(n & _ & ->) | [_ ->]];
            [left; eexists; reflexivity | right; reflexivity]
          | left; eexists; reflexivity
          | right; reflexivity ].
Qed.

Lemma parse_pairs_cases (argv : list string) :
  ∀ ns w,
    (∃ ns', parse_pairs argv ns w = (inr ns', w)) ∨
    parse_pairs argv ns w = (inl (SystemExit 2), w).
Proof.
  induction argv as [| x | name value argv IH] using list_pair_ind;
    intros ns w.
  - left. exists ns. reflexivity.
  - right. reflexivity.
  - cbn [parse_pairs]. rewrite bind_unfold.
    destruct (store_arg_cases name value ns w) as [[ns1 ->] | ->];
      [| right; reflexivity].
    apply IH.
Qed.

Lemma parse_args_cases (model_dir num_gpus data_dir : string)
    (argv : list string) w :
  (∃ args, parse_args model_dir num_gpus data_dir argv w = (inr args, w)) ∨
  parse_args model_dir num_gpus data_dir argv w = (inl (SystemExit 2), w).
Proof.
  unfold parse_args. rewrite bind_unfold.
  destruct (parse_pairs_cases argv
              {| raw_epochs := 10; raw_optimizer := "sgd";
                 raw_hidden_channels := 10; raw_model_dir := model_dir;
                 raw_num_gpus := inr num_gpus; raw_data_dir := data_dir |} w)
    as [[ns ->] | ->]; [| right; reflexivity].
  rewrite bind_unfold. destruct (raw_num_gpus ns) as [n | s].
  - left. eexists. reflexivity.
  - destruct (arg_int_cases s w) as [(n & _ & ->) | [_ ->]].
    + left. eexists. reflexivity.
    + right. reflexivity.
Qed.

(** Options are stored from left to right. *)
Lemma parse_pairs_app (argv rest : list string) :
  ∀ ns w ns1 w1,
    parse_pairs argv ns w = (inr ns1, w1) →
    parse_pairs (argv ++ rest) ns w = parse_pairs rest ns1 w1.
Proof.
  induction argv as [| x | name value argv IH] using list_pair_ind;
    intros ns w ns1 w1 H.
  - inversion H; subst. reflexivity.
  - discriminate.
  - cbn [parse_pairs app] in *. rewrite bind_unfold in *.
    destruct (store_arg name value ns w) as [[e | ns'] w']; [discriminate |].
    apply IH. exact H.
Qed.

(** A command line with a last option that has no value is refused. *)
Lemma parse_pairs_trailing (argv : list string) (name : string) :
  plain_argv argv = true →
  ∀ ns w, parse_pairs (argv ++ [name]) ns w = (inl (SystemExit 2), w).
Proof.
  induction argv as [| x | n v argv IH] using list_pair_ind;
    intros Hplain ns w.
  - reflexivity.
  - discriminate.
  - cbn [plain_argv] in Hplain. apply andb_true_iff in Hplain.
    destruct Hplain as [_ Hplain].
    cbn [app parse_pairs]. rewrite bind_unfold.
    destruct (store_arg_cases n v ns w) as [[ns1 ->] | ->]; [| reflexivity].
    apply IH. exact Hplain.
Qed.

End Parsing.

(** X6. The script from start to end.  With the three container variables
    set, a command line of [--name value] pairs that parses, the MNIST
    files present under the data directory of the parsed arguments with
    non-empty partitions, a width [0 < hidden_channels] and a model
    directory that exists, [__main__] returns normally: it trains on those
    two partitions with the parsed optimizer, epochs and width, then
    writes the returned model's parameters to [model.pth] under the model
    directory of the parsed arguments, its last line being "Saving the
    model.", and no other file changes. *)
Theorem main_trains_and_saves {T : Torch} `{!TorchOk T}
    (environ : gmap string string) (argv : list string) (w : World)
    (model_dir num_gpus data_dir : string) (args : Namespace) (w0 : World)
    (files : MnistFiles) :
  environ !! "SM_MODEL_DIR" = Some model_dir →
  environ !! "SM_NUM_GPUS" = Some num_gpus →
  environ !! "SM_CHANNEL_TRAINING" = Some data_dir →
  plain_argv argv = true →
  parse_args model_dir num_gpus data_dir argv w = (inr args, w0) →
  disk w !! args_data_dir args = Some files →
  mnist_train files ≠ [] → mnist_test files ≠ [] →
  0 < args_hidden_channels args →
  model_dir_exists w (args_model_dir args) = true →
  ∃ model w1,
    train_model (mnist_train files) (mnist_test files) (args_optimizer args)
      (args_epochs args) (args_hidden_channels args) w = (inr model, w1) ∧
    main environ argv w
    = (inr tt,
       write_file (os_path_join (args_model_dir args) "model.pth")
         (state_dict model) (add_log LogSaving w1)) ∧
    fs w1 = fs w ∧
    entry_shapes (state_dict model)
    = saved_shapes (args_hidden_channels args).
Proof.
  intros E1 E2 E3 _ Hparse Hdisk Htr Hte Hh Hdir.
  assert (w0 = w) as ->.
  { destruct (parse_args_cases model_dir num_gpus data_dir argv w)
      as [[a Ha] | Ha]; rewrite Ha in Hparse; inversion Hparse; reflexivity. }
  destruct (train_model_returns (mnist_train files) (mnist_test files)
              (args_optimizer args) (args_epochs args)
              (args_hidden_channels args) w Htr Hte ltac:(lia))
    as (model & w1 & Hrun & Ha & evs & He & _).
  exists model, w1. split; [exact Hrun |].
  split; [| split; [exact (emits_fs _ _ _ He)
                   | apply state_dict_shapes; exact Ha]].
  unfold main, environ_getitem. rewrite E1, E2, E3.
  do 4 (rewrite bind_unfold; cbn [mret M_ret ret]). rewrite Hparse.
  rewrite bind_unfold. unfold MNIST at 1. rewrite Hdisk.
  rewrite bind_unfold. unfold MNIST at 1. rewrite Hdisk.
  rewrite bind_unfold, Hrun.
  apply save_model_returns.
  rewrite (model_dir_exists_emits _ _ _ _ He). exact Hdir.
Qed.

(** X6 on the small instance: one epoch, width 5, data under [/data]. *)
Lemma main_trains_and_saves_witness :
  ∃ model w1,
    @main toy_torch toy_environ
      ["--epochs"; "1"; "--hidden_channels"; "5"] toy_disk_world
    = (inr tt,
       write_file "/opt/ml/model/model.pth" (state_dict model)
         (add_log LogSaving w1)) ∧
    entry_shapes (state_dict model) = saved_shapes 5.
Proof.
  destruct (@main_trains_and_saves toy_torch toy_torch_ok toy_environ
              ["--epochs"; "1"; "--hidden_channels"; "5"] toy_disk_world
              "/opt/ml/model" "0" "/data"
              {| args_epochs := 1; args_optimizer := "sgd";
                 args_hidden_channels := 5; args_model_dir := "/opt/ml/model";
                 args_num_gpus := 0; args_data_dir := "/data" |}
              toy_disk_world
              {| mnist_train := toy_examples; mnist_test := toy_examples |})
    as (model & w1 & _ & H1 & _ & H2).
  - reflexivity.
  - reflexivity.
  - reflexivity.
  - reflexivity.
  - reflexivity.
  - reflexivity.
  - discriminate.
  - discriminate.
  - simpl. lia.
  - reflexivity.
  - exists model, w1. split; [exact H1 | exact H2].
Defined.

(** X7. With the three container variables set, the script still stops
    before any training when a later start-up step fails, and leaves the
    world as it found it (nothing logged, generator not seeded, no file
    written).  For a command line of [--name value] pairs: if it is
    followed by one more option that has no value, the process ends with
    status 2; if it parses and the data directory holds no MNIST files,
    the first [datasets.MNIST(..., download=False)] raises
    [RuntimeError]. *)
Theorem main_stops_before_training {T : Torch}
    (environ : gmap string string) (argv : list string) (w : World)
    (model_dir num_gpus data_dir : string) :
  environ !! "SM_MODEL_DIR" = Some model_dir →
  environ !! "SM_NUM_GPUS" = Some num_gpus →
  environ !! "SM_CHANNEL_TRAINING" = Some data_dir →
  plain_argv argv = true →
  (∀ name, name ∈ option_names →
     main environ (argv ++ [name]) w = (inl (SystemExit 2), w)) ∧
  (∀ args w0,
     parse_args model_dir num_gpus data_dir argv w = (inr args, w0) →
     disk w !! args_data_dir args = None →
     ∃ msg, main environ argv w = (inl (RuntimeError msg), w)).
Proof.
  intros E1 E2 E3 Hplain. split.
  - intros name _.
    unfold main, environ_getitem. rewrite E1, E2, E3.
    do 4 (rewrite bind_unfold; cbn [mret M_ret ret]).
    unfold parse_args. rewrite bind_unfold.
    rewrite (parse_pairs_trailing argv name Hplain). reflexivity.
  - intros args w0 Hparse Hdisk.
    destruct (parse_args_cases model_dir num_gpus data_dir argv w)
      as [[a Ha] | Ha]; rewrite Ha in Hparse; [| discriminate].
    inversion Hparse; subst a w0.
    unfold main, environ_getitem. rewrite E1, E2, E3.
    do 4 (rewrite bind_unfold; cbn [mret M_ret ret]). rewrite Ha.
    rewrite bind_unfold. unfold MNIST at 1. rewrite Hdisk.
    eexists. reflexivity.
Qed.

(** X7 with the data directory [/elsewhere] given on the command line. *)
Lemma main_stops_before_training_witness :
  ∃ msg,
    @main toy_torch toy_environ ["--data-dir"; "/elsewhere"] toy_disk_world
    = (inl (RuntimeError msg), toy_disk_world).
Proof.
  apply (proj2 (@main_stops_before_training toy_torch toy_environ
                  ["--data-dir"; "/elsewhere"] toy_disk_world
                  "/opt/ml/model" "0" "/data" eq_refl eq_refl eq_refl eq_refl)
           {| args_epochs := 10; args_optimizer := "sgd";
              args_hidden_channels := 10; args_model_dir := "/opt/ml/model";
              args_num_gpus := 0; args_data_dir := "/elsewhere" |}
           toy_disk_world).
  - reflexivity.
  - reflexivity.
Defined.

Section Overrides.
Context {T : Torch}.
Implicit Types (w : World) (ns : RawArgs).

(** What [parse_args] does, in two steps. *)
Lemma parse_args_inv (model_dir num_gpus data_dir : string)
    (argv : list string) w args w' :
  parse_args model_dir num_gpus data_dir argv w = (inr args, w') →
  ∃ ns gpus,
    parse_pairs argv
      {| raw_epochs := 10; raw_optimizer := "sgd"; raw_hidden_channels := 10;
         raw_model_dir := model_dir; raw_num_gpus := inr num_gpus;
         raw_data_dir := data_dir |} w = (inr ns, w) ∧
    match raw_num_gpus ns with
    | inl n => ret n
    | inr s => arg_int s
    end w = (inr gpus, w) ∧
    w' = w ∧
    args = {| args_epochs := raw_epochs ns; args_optimizer := raw_optimizer ns;
              args_hidden_channels := raw_hidden_channels ns;
              args_model_dir := raw_model_dir ns; args_num_gpus := gpus;
              args_data_dir := raw_data_dir ns |}.
Proof.
  intros H. unfold parse_args in H. apply bind_inv in H.
  destruct H as (ns & w1 & H1 & H2).
  pose proof (parse_pairs_inv _ _ _ _ _ H1) as [-> _].
  apply bind_inv in H2. destruct H2 as (gpus & w2 & H2 & H3).
  assert (w2 = w) as ->.
  { destruct (raw_num_gpus ns) as [n | s].
    - inversion H2. reflexivity.
    - apply arg_int_inv in H2. tauto. }
  inversion H3; subst. exists ns, gpus. auto.
Qed.

Lemma parse_args_snoc (model_dir num_gpus data_dir : string)
    (argv : list string) (name value : string) w ns gpus ns' :
  parse_pairs argv
    {| raw_epochs := 10; raw_optimizer := "sgd"; raw_hidden_channels := 10;
       raw_model_dir := model_dir; raw_num_gpus := inr num_gpus;
       raw_data_dir := data_dir |} w = (inr ns, w) →
  store_arg name value ns w = (inr ns', w) →
  match raw_num_gpus ns' with
  | inl n => ret n
  | inr s => arg_int s
  end w = (inr gpus, w) →
  parse_args model_dir num_gpus data_dir (argv ++ [name; value]) w
  = (inr {| args_epochs := raw_epochs ns';
            args_optimizer := raw_optimizer ns';
            args_hidden_channels := raw_hidden_channels ns';
            args_model_dir := raw_model_dir ns'; args_num_gpus := gpus;
            args_data_dir := raw_data_dir ns' |}, w).
Proof.
  intros H1 H2 H3. unfold parse_args.
  rewrite bind_unfold, (parse_pairs_app _ _ _ _ _ _ H1).
  cbn [parse_pairs]. rewrite bind_unfold, H2. cbn [mret M_ret ret].
  rewrite bind_unfold, H3. reflexivity.
Qed.

End Overrides.

(** X8. The command line is read from left to right and the last value
    given for an argument is the one used: appending [--name value], with
    a value that does not begin with ["-"], to a command line of such
    pairs that parses gives the same namespace with that one argument
    replaced, whatever default or earlier value it had.  This holds for
    the three hyperparameters and for the three container arguments,
    whose environment defaults are overridden in this way. *)
Theorem command_line_last_wins {T : Torch}
    (model_dir num_gpus data_dir : string) (argv : list string)
    (args : Namespace) (w w' : World) :
  plain_argv argv = true →
  parse_args model_dir num_gpus data_dir argv w = (inr args, w') →
  (∀ v n, String.prefix "-" v = false → py_int v = Some n →
     parse_args model_dir num_gpus data_dir (argv ++ ["--epochs"; v]) w
     = (inr (with_epochs n args), w')) ∧
  (∀ v, String.prefix "-" v = false →
     parse_args model_dir num_gpus data_dir (argv ++ ["--optimizer"; v]) w
     = (inr (with_optimizer v args), w')) ∧
  (∀ v n, String.prefix "-" v = false → py_int v = Some n →
     parse_args model_dir num_gpus data_dir
       (argv ++ ["--hidden_channels"; v]) w
     = (inr (with_hidden_channels n args), w')) ∧
  (∀ v, String.prefix "-" v = false →
     parse_args model_dir num_gpus data_dir (argv ++ ["--model-dir"; v]) w
     = (inr (with_model_dir v args), w')) ∧
  (∀ v n, String.prefix "-" v = false → py_int v = Some n →
     parse_args model_dir num_gpus data_dir (argv ++ ["--num-gpus"; v]) w
     = (inr (with_num_gpus n args), w')) ∧
  (∀ v, String.prefix "-" v = false →
     parse_args model_dir num_gpus data_dir (argv ++ ["--data-dir"; v]) w
     = (inr (with_data_dir v args), w')).
Proof.
  intros _ H. apply parse_args_inv in H.
  destruct H as (ns & gpus & H1 & H2 & -> & ->).
  repeat split.
  - intros v n _ Hv.
    rewrite (parse_args_snoc _ _ _ _ "--epochs" v w ns gpus
               {| raw_epochs := n; raw_optimizer := raw_optimizer ns;
                  raw_hidden_channels := raw_hidden_channels ns;
                  raw_model_dir := raw_model_dir ns;
                  raw_num_gpus := raw_num_gpus ns;
                  raw_data_dir := raw_data_dir ns |} H1).
    + reflexivity.
    + unfold store_arg, arg_int.
      repeat (case_decide; try discriminate; try congruence).
      rewrite bind_unfold, Hv. reflexivity.
    + exact H2.
  - intros v _.
    rewrite (parse_args_snoc _ _ _ _ "--optimizer" v w ns gpus
               {| raw_epochs := raw_epochs ns; raw_optimizer := v;
                  raw_hidden_channels := raw_hidden_channels ns;
                  raw_model_dir := raw_model_dir ns;
                  raw_num_gpus := raw_num_gpus ns;
                  raw_data_dir := raw_data_dir ns |} H1).
    + reflexivity.
    + unfold store_arg.
      repeat (case_decide; try discriminate; try congruence).
      reflexivity.
    + exact H2.
  - intros v n _ Hv.
    rewrite (parse_args_snoc _ _ _ _ "--hidden_channels" v w ns gpus
               {| raw_epochs := raw_epochs ns;
                  raw_optimizer := raw_optimizer ns;
                  raw_hidden_channels := n;
                  raw_model_dir := raw_model_dir ns;
                  raw_num_gpus := raw_num_gpus ns;
                  raw_data_dir := raw_data_dir ns |} H1).
    + reflexivity.
    + unfold store_arg, arg_int.
      repeat (case_decide; try discriminate; try congruence).
      rewrite bind_unfold, Hv. reflexivity.
    + exact H2.
  - intros v _.
    rewrite (parse_args_snoc _ _ _ _ "--model-dir" v w ns gpus
               {| raw_epochs := raw_epochs ns;
                  raw_optimizer := raw_optimizer ns;
                  raw_hidden_channels := raw_hidden_channels ns;
                  raw_model_dir := v;
                  raw_num_gpus := raw_num_gpus ns;
                  raw_data_dir := raw_data_dir ns |} H1).
    + reflexivity.
    + unfold store_arg.
      repeat (case_decide; try discriminate; try congruence).
      reflexivity.
    + exact H2.
  - intros v n _ Hv.
    rewrite (parse_args_snoc _ _ _ _ "--num-gpus" v w ns n
               {| raw_epochs := raw_epochs ns;
                  raw_optimizer := raw_optimizer ns;
                  raw_hidden_channels := raw_hidden_channels ns;
                  raw_model_dir := raw_model_dir ns;
                  raw_num_gpus := inl n;
                  raw_data_dir := raw_data_dir ns |} H1).
    + reflexivity.
    + unfold store_arg, arg_int.
      repeat (case_decide; try discriminate; try congruence).
      rewrite bind_unfold, Hv. reflexivity.
    + reflexivity.
  - intros v _.
    rewrite (parse_args_snoc _ _ _ _ "--data-dir" v w ns gpus
               {| raw_epochs := raw_epochs ns;
                  raw_optimizer := raw_optimizer ns;
                  raw_hidden_channels := raw_hidden_channels ns;
                  raw_model_dir := raw_model_dir ns;
                  raw_num_gpus := raw_num_gpus ns;
                  raw_data_dir := v |} H1).
    + reflexivity.
    + unfold store_arg.
      repeat (case_decide; try discriminate; try congruence).
      reflexivity.
    + exact H2.
Qed.

(** X8: a second [--epochs] replaces the first. *)
Lemma command_line_last_wins_witness :
  @parse_args toy_torch "/opt/ml/model" "0" "/data"
    (["--epochs"; "3"] ++ ["--epochs"; "7"]) toy_world
  = (inr {| args_epochs := 7; args_optimizer := "sgd";
            args_hidden_channels := 10; args_model_dir := "/opt/ml/model";
            args_num_gpus := 0; args_data_dir := "/data" |}, toy_world).
Proof.
  apply (proj1 (@command_line_last_wins toy_torch "/opt/ml/model" "0" "/data"
                  ["--epochs"; "3"]
                  {| args_epochs := 3; args_optimizer := "sgd";
                     args_hidden_channels := 10;
                     args_model_dir := "/opt/ml/model";
                     args_num_gpus := 0; args_data_dir := "/data" |}
                  toy_world toy_world eq_refl eq_refl) "7" 7 eq_refl eq_refl).
Defined.

Section GpuCount.
Context {T : Torch}.
Implicit Types (w : World) (a b : RawArgs).

Lemma store_arg_sim (ng1 ng2 name value : string) a b w :
  same_but_gpus ng1 ng2 a b →
  (∃ a' b',
     store_arg name value a w = (inr a', w) ∧
     store_arg name value b w = (inr b', w) ∧
     same_but_gpus ng1 ng2 a' b') ∨
  (store_arg name value a w = (inl (SystemExit 2), w) ∧
   store_arg name value b w = (inl (SystemExit 2), w)).
Proof.
  intros (S1 & S2 & S3 & S4 & S5 & S6). unfold store_arg.
  repeat (case_decide; [subst name |]);
    first [ rewrite !bind_unfold;
            destruct (arg_int_cases value w) as [(n & _ & ->) | [_ ->]];
            [left; do 2 eexists; split; [reflexivity |];
             split; [reflexivity |]; unfold same_but_gpus; simpl; tauto
            | right; split; reflexivity]
          | left; do 2 eexists; split; [reflexivity |];
            split; [reflexivity |]; unfold same_but_gpus; simpl; tauto
          | right; split; reflexivity ].
Qed.

Lemma parse_pairs_sim (ng1 ng2 : string) (argv : list string) :
  ∀ a b w,
    same_but_gpus ng1 ng2 a b →
    (∃ a' b',
       parse_pairs argv a w = (inr a', w) ∧
       parse_pairs argv b w = (inr b', w) ∧
       same_but_gpus ng1 ng2 a' b') ∨
    (parse_pairs argv a w = (inl (SystemExit 2), w) ∧
     parse_pairs argv b w = (inl (SystemExit 2), w)).
Proof.
  induction argv as [| x | name value argv IH] using list_pair_ind;
    intros a b w Hs.
  - left. exists a, b. auto.
  - right. split; reflexivity.
  - cbn [parse_pairs]. rewrite !bind_unfold.
    destruct (store_arg_sim ng1 ng2 name value a b w Hs)
      as [(a1 & b1 & -> & -> & Hs1) | [-> ->]].
    + apply IH. exact Hs1.
    + right. split; reflexivity.
Qed.

End GpuCount.

(** X9. The GPU count is parsed and then never used: two environments
    that differ only in the (integer) value of [SM_NUM_GPUS] give the
    same run of the script, for every command line: the same outcome, the
    same lines, the same file.  The device is chosen from
    [torch.cuda.is_available()] alone. *)
Theorem num_gpus_is_ignored {T : Torch} (environ : gmap string string)
    (ng1 ng2 : string) (n1 n2 : Z) (argv : list string) (w : World) :
  py_int ng1 = Some n1 → py_int ng2 = Some n2 →
  main (<["SM_NUM_GPUS" := ng1]> environ) argv w
  = main (<["SM_NUM_GPUS" := ng2]> environ) argv w.
Proof.
  intros Hn1 Hn2. unfold main, environ_getitem.
  rewrite !(lookup_insert_ne _ "SM_NUM_GPUS" "SM_MODEL_DIR") by discriminate.
  rewrite !(lookup_insert_ne _ "SM_NUM_GPUS" "SM_CHANNEL_TRAINING")
    by discriminate.
  rewrite !lookup_insert_eq.
  destruct (environ !! "SM_MODEL_DIR") as [md |]; [| reflexivity].
  destruct (environ !! "SM_CHANNEL_TRAINING") as [dd |]; [| reflexivity].
  do 3 (rewrite bind_unfold; cbn [mret M_ret ret];
        symmetry; rewrite bind_unfold; cbn [mret M_ret ret]; symmetry).
  rewrite (bind_unfold (parse_args md ng1 dd argv)).
  rewrite (bind_unfold (parse_args md ng2 dd argv)).
  unfold parse_args. rewrite !(bind_unfold (parse_pairs _ _)).
  destruct (parse_pairs_sim ng1 ng2 argv
              {| raw_epochs := 10; raw_optimizer := "sgd";
                 raw_hidden_channels := 10; raw_model_dir := md;
                 raw_num_gpus := inr ng1; raw_data_dir := dd |}
              {| raw_epochs := 10; raw_optimizer := "sgd";
                 raw_hidden_channels := 10; raw_model_dir := md;
                 raw_num_gpus := inr ng2; raw_data_dir := dd |} w)
    as [(a & b & -> & -> & (S1 & S2 & S3 & S4 & S5 & S6)) | [-> ->]];
    [unfold same_but_gpus; simpl; tauto | | reflexivity].
  rewrite !bind_unfold.
  assert (∃ g1 g2,
            match raw_num_gpus a with inl n => ret n | inr s => arg_int s end w
            = (inr g1, w) ∧
            match raw_num_gpus b with inl n => ret n | inr s => arg_int s end w
            = (inr g2, w)
          ∨ ∃ e,
            match raw_num_gpus a with inl n => ret n | inr s => arg_int s end w
            = (inl e, w) ∧
            match raw_num_gpus b with inl n => ret n | inr s => arg_int s end w
            = (inl e, w)) as Hconv.
  { destruct S6 as [S6 | [S6a S6b]].
    - rewrite <- S6. destruct (raw_num_gpus a) as [n | s].
      + exists n, n. left. split; reflexivity.
      + destruct (arg_int_cases s w) as [(n & _ & E) | [_ E]].
        * exists n, n. left. auto.
        * exists 0, 0. right. eauto.
    - rewrite S6a, S6b. exists n1, n2. left.
      unfold arg_int. rewrite Hn1, Hn2. split; reflexivity. }
  destruct Hconv as (g1 & g2 & [[-> ->] | (e & -> & ->)]); [| reflexivity].
  cbn [mret M_ret ret]. rewrite !bind_unfold.
  cbn [args_data_dir args_optimizer args_epochs args_hidden_channels
       args_model_dir].
  rewrite S1, S2, S3, S4, S5. reflexivity.
Qed.

(** X9 for the values 0 and 4. *)
Lemma num_gpus_is_ignored_witness :
  @main toy_torch (<["SM_NUM_GPUS" := "0"]> toy_environ) ["--epochs"; "1"]
    toy_disk_world
  = @main toy_torch (<["SM_NUM_GPUS" := "4"]> toy_environ) ["--epochs"; "1"]
      toy_disk_world.
Proof.
  exact (@num_gpus_is_ignored toy_torch toy_environ "0" "4" 0 4
           ["--epochs"; "1"] toy_disk_world eq_refl eq_refl).
Defined.

(** X10. The file the script saves is the model it last reported on.  With
    the start-up conditions of a successful run (a command line of
    [--name value] pairs that parses, the data on disk with non-empty
    partitions, a width [0 < hidden_channels], a model directory that
    exists) and at least one epoch, the last three lines of [__main__]
    are the "Train" and "Test" evaluation lines of one model, computed
    over the whole partitions, followed by "Saving the model.", and
    [model.pth] under the model directory holds the parameters of exactly
    that model. *)
Theorem saved_model_is_evaluated_model {T : Torch} `{!TorchOk T}
    (environ : gmap string string) (argv : list string) (w : World)
    (model_dir num_gpus data_dir : string) (args : Namespace) (w0 : World)
    (files : MnistFiles) :
  environ !! "SM_MODEL_DIR" = Some model_dir →
  environ !! "SM_NUM_GPUS" = Some num_gpus →
  environ !! "SM_CHANNEL_TRAINING" = Some data_dir →
  plain_argv argv = true →
  parse_args model_dir num_gpus data_dir argv w = (inr args, w0) →
  disk w !! args_data_dir args = Some files →
  mnist_train files ≠ [] → mnist_test files ≠ [] →
  0 < args_hidden_channels args → 1 ≤ args_epochs args →
  model_dir_exists w (args_model_dir args) = true →
  ∃ model w2 evs,
    main environ argv w = (inr tt, w2) ∧
    fs w2 !! os_path_join (args_model_dir args) "model.pth"
    = Some (state_dict model) ∧
    log w2 = log w ++ evs ++
      [LogPerformance "Train"
         (total_loss (module model) (mnist_train files)
          / Qc_of_nat (length (mnist_train files)))%Qc
         (lit_100_0
          * Qc_of_nat (num_correct (module model) (mnist_train files))
          / Qc_of_nat (length (mnist_train files)))%Qc;
       LogPerformance "Test"
         (total_loss (module model) (mnist_test files)
          / Qc_of_nat (length (mnist_test files)))%Qc
         (lit_100_0
          * Qc_of_nat (num_correct (module model) (mnist_test files))
          / Qc_of_nat (length (mnist_test files)))%Qc;
       LogSaving].
Proof.
  intros E1 E2 E3 _ Hparse Hdisk Htr Hte Hh Hep Hdir.
  assert (w0 = w) as ->.
  { destruct (parse_args_cases model_dir num_gpus data_dir argv w)
      as [[a Ha] | Ha]; rewrite Ha in Hparse; inversion Hparse; reflexivity. }
  destruct (train_model_last_epoch (mnist_train files) (mnist_test files)
              (args_optimizer args) (args_epochs args)
              (args_hidden_channels args) w Htr Hte ltac:(lia) Hep)
    as (model & w1 & evs & Hrun & _ & Hlog).
  assert (isdir w1 = isdir w) as Hisdir.
  { destruct (train_model_returns (mnist_train files) (mnist_test files)
                (args_optimizer args) (args_epochs args)
                (args_hidden_channels args) w Htr Hte ltac:(lia))
      as (model' & w1' & Hrun' & _ & evs' & He & _).
    rewrite Hrun in Hrun'. inversion Hrun'; subst.
    exact (emits_isdir _ _ _ He). }
  exists model,
    (write_file (os_path_join (args_model_dir args) "model.pth")
       (state_dict model) (add_log LogSaving w1)), evs.
  split; [| split].
  - unfold main, environ_getitem. rewrite E1, E2, E3.
    do 4 (rewrite bind_unfold; cbn [mret M_ret ret]). rewrite Hparse.
    rewrite bind_unfold. unfold MNIST at 1. rewrite Hdisk.
    rewrite bind_unfold. unfold MNIST at 1. rewrite Hdisk.
    rewrite bind_unfold, Hrun.
    apply save_model_returns.
    unfold model_dir_exists in *. rewrite Hisdir. exact Hdir.
  - cbn [fs write_file]. apply lookup_insert_eq.
  - cbn [log write_file add_log]. rewrite Hlog.
    unfold average_loss, accuracy.
    rewrite <- !app_assoc. reflexivity.
Qed.

(** X10 on the small instance with two epochs. *)
Lemma saved_model_is_evaluated_model_witness :
  ∃ model w2,
    @main toy_torch toy_environ ["--epochs"; "2"; "--hidden_channels"; "5"]
      toy_disk_world = (inr tt, w2) ∧
    fs w2 !! "/opt/ml/model/model.pth" = Some (state_dict model).
Proof.
  destruct (@saved_model_is_evaluated_model toy_torch toy_torch_ok toy_environ
              ["--epochs"; "2"; "--hidden_channels"; "5"] toy_disk_world
              "/opt/ml/model" "0" "/data"
              {| args_epochs := 2; args_optimizer := "sgd";
                 args_hidden_channels := 5; args_model_dir := "/opt/ml/model";
                 args_num_gpus := 0; args_data_dir := "/data" |}
              toy_disk_world
              {| mnist_train := toy_examples; mnist_test := toy_examples |})
    as (model & w2 & evs & H1 & H2 & _).
  - reflexivity.
  - reflexivity.
  - reflexivity.
  - reflexivity.
  - reflexivity.
  - reflexivity.
  - discriminate.
  - discriminate.
  - simpl. lia.
  - simpl. lia.
  - reflexivity.
  - exists model, w2. split; [exact H1 | exact H2].
Defined.
